(** * Real-time conversation and presence layer of notetake-ai

    A shallow embedding of the chat back end:
    - [server/models]: the Mongoose documents [User], [Conversation],
      [Message], [Friendship] and the collection operations the handlers
      call on them;
    - [server/config/socket.ts]: the Socket.IO gateway (connection,
      room membership, message fan-out, typing relay, read receipts,
      disconnect);
    - [server/routes/conversations.ts] and [server/routes/messages.ts]:
      the REST handlers over the same collections.

    Conventions.  An ObjectId is a number; a collection is the list of its
    documents in insertion order; [new ObjectId()] is the store's counter
    [Store.oid], which never hands out the same id twice; [new Date()] is
    the time stamp carried by the request.  A JavaScript string whose
    length, [trim] or [substring] the code inspects is the list of its
    UTF-16 code units.  The driver writes a string as UTF-8, so what is
    read back of a written string has U+FFFD in the place of every lone
    surrogate ([Bson.asStored]); this is modelled for the texts of
    messages, which the code itself can cut inside a surrogate pair, and
    a conversation name carried by a request is taken to be well-formed
    UTF-16, which is stored as it is.  Handlers are run to completion one
    after the other; a store failure other than a schema validation error
    is not modelled, and neither is the casting of a malformed id. *)

From stdpp Require Import base strings list gmap sets fin_maps sorting.

Abbreviation ObjectId := N (only parsing).
Abbreviation SocketId := string (only parsing).
Abbreviation Date := Z (only parsing).
Abbreviation JsString := (list N) (only parsing).

(** ** JavaScript built-ins used by the handlers *)
Module Js.

(** WhiteSpace and LineTerminator code units, as [String.prototype.trim]
    strips them. *)
Definition isWhiteSpace (c : N) : bool :=
  ((c =? 9) || (c =? 10) || (c =? 11) || (c =? 12) || (c =? 13)
   || (c =? 32) || (c =? 160) || (c =? 5760)
   || ((8192 <=? c) && (c <=? 8202))
   || (c =? 8232) || (c =? 8233) || (c =? 8239) || (c =? 8287)
   || (c =? 12288) || (c =? 65279))%N.

Fixpoint trimStart (s : JsString) : JsString :=
  match s with
  | [] => []
  | c :: s' => if isWhiteSpace c then trimStart s' else s
  end.

Definition trimEnd (s : JsString) : JsString := rev (trimStart (rev s)).

Definition trim (s : JsString) : JsString := trimEnd (trimStart s).

(** [s.substring(a, b)] for non-negative integer arguments. *)
Definition substring (a b : nat) (s : JsString) : JsString :=
  take (max a b - min a b) (drop (min a b) s).

(** [l.includes(x)] *)
Definition includes `{EqDecision A} (l : list A) (x : A) : bool :=
  bool_decide (x ∈ l).

(** [[...new Set(l)]]: the distinct elements of [l], each at the place
    of its first occurrence. *)
Fixpoint spreadSetFrom `{EqDecision A} (seen l : list A) : list A :=
  match l with
  | [] => []
  | x :: l' =>
      if includes seen x then spreadSetFrom seen l'
      else x :: spreadSetFrom (x :: seen) l'
  end.

Definition spreadSet `{EqDecision A} (l : list A) : list A :=
  spreadSetFrom [] l.

End Js.

(** ** Strings as the driver stores them *)
Module Bson.

Definition isHighSurrogate (c : N) : bool := ((55296 <=? c) && (c <=? 56319))%N.

Definition isLowSurrogate (c : N) : bool := ((56320 <=? c) && (c <=? 57343))%N.

(** A string after it was written, as UTF-8, and read back: a high
    surrogate followed by a low one is a character and is kept; any other
    surrogate is replaced by U+FFFD. *)
Fixpoint asStored (s : JsString) : JsString :=
  match s with
  | [] => []
  | c :: s' =>
      if isHighSurrogate c then
        match s' with
        | d :: s'' =>
            if isLowSurrogate d then c :: d :: asStored s''
            else 65533%N :: asStored s'
        | [] => [65533%N]
        end
      else if isLowSurrogate c then 65533%N :: asStored s'
      else c :: asStored s'
  end.

End Bson.

(** ** Documents and collections (server/models) *)

(** What a Mongoose call can throw in this model. *)
Inductive Exn :=
| ValidationError (path : string) (kind : string).

Module User.

Record t := mk {
  _id : ObjectId;
  name : string;
  email : string;
  isOnline : bool;
  lastSeen : Date;
}.

Definition findById (id : ObjectId) (users : list t) : option t :=
  List.find (λ u, (_id u =? id)%N) users.

(** [User.findByIdAndUpdate(id, update)]: the first document with that
    id is updated; nothing happens when there is none. *)
Fixpoint findByIdAndUpdate (id : ObjectId) (update : t → t) (users : list t)
  : list t :=
  match users with
  | [] => []
  | u :: rest =>
      if (_id u =? id)%N then update u :: rest
      else u :: findByIdAndUpdate id update rest
  end.

(** The projection ["name email isOnline lastSeen"] is the whole modelled
    document; ["name email"] is [brief]. *)
Record brief := mkBrief {
  b_id : ObjectId;
  b_name : string;
  b_email : string;
}.

Definition select_name_email (u : t) : brief :=
  {| b_id := _id u; b_name := name u; b_email := email u |}.

End User.

Module Friendship.

Inductive Status := pending | accepted | declined | blocked.

#[global] Instance Status_eq_dec : EqDecision Status.
Proof. solve_decision. Defined.

Definition Status_eqb (a b : Status) : bool :=
  match a, b with
  | pending, pending | accepted, accepted
  | declined, declined | blocked, blocked => true
  | _, _ => false
  end.

Record t := mk {
  requester : ObjectId;
  recipient : ObjectId;
  status : Status;
}.

Definition findOne (filter : t → bool) (coll : list t) : option t :=
  List.find filter coll.

(** The query every friendship check of the routes issues:
    [{ $or: [{requester: a, recipient: b}, {requester: b, recipient: a}],
       status: "accepted" }]. *)
Definition acceptedBetween (a b : ObjectId) (f : t) : bool :=
  ((((requester f =? a) && (recipient f =? b))
    || ((requester f =? b) && (recipient f =? a)))%N
   && Status_eqb (status f) accepted).

End Friendship.

Module Conversation.

Inductive ConversationType := personal | group.

Definition ConversationType_eqb (a b : ConversationType) : bool :=
  match a, b with
  | personal, personal | group, group => true
  | _, _ => false
  end.

#[global] Instance ConversationType_eq_dec : EqDecision ConversationType.
Proof. solve_decision. Defined.

Record LastMessage := mkLast {
  lm_content : JsString;
  lm_sender : ObjectId;
  lm_createdAt : Date;
}.

Record t := mk {
  _id : ObjectId;
  type : ConversationType;
  participants : list ObjectId;
  name : option JsString;
  admin : option ObjectId;
  lastMessage : option LastMessage;
}.

Definition MAX_GROUP_SIZE : nat := 20.

Definition set_participants (ps : list ObjectId) (c : t) : t :=
  {| _id := _id c; type := type c; participants := ps; name := name c;
     admin := admin c; lastMessage := lastMessage c |}.

Definition set_lastMessage (lm : LastMessage) (c : t) : t :=
  {| _id := _id c; type := type c; participants := participants c;
     name := name c; admin := admin c; lastMessage := Some lm |}.

Definition set_name (n : JsString) (c : t) : t :=
  {| _id := _id c; type := type c; participants := participants c;
     name := Some n; admin := admin c; lastMessage := lastMessage c |}.

Definition find (filter : t → bool) (coll : list t) : list t :=
  List.filter filter coll.

Definition findOne (filter : t → bool) (coll : list t) : option t :=
  List.find filter coll.

Definition findById (id : ObjectId) (coll : list t) : option t :=
  findOne (λ c, (_id c =? id)%N) coll.

(** Schema: [name] is trimmed and has [maxlength: 50]. *)
Definition validate (c : t) : option Exn :=
  match name c with
  | Some n =>
      if (50 <? length n)%nat then Some (ValidationError "name" "maxlength")
      else None
  | None => None
  end.

(** [Conversation.create(doc)]: [oid] is the id generated for it. *)
Definition create (oid : ObjectId) (ty : ConversationType)
    (ps : list ObjectId) (nm : option JsString) (adm : option ObjectId)
    (coll : list t) : Exn + (list t * t) :=
  let doc := {| _id := oid; type := ty; participants := ps;
                name := Js.trim <$> nm; admin := adm;
                lastMessage := None |} in
  match validate doc with
  | Some e => inl e
  | None => inr (coll ++ [doc], doc)
  end.

(** The write of [doc.save()]: the stored document with that id is
    replaced. *)
Definition updateOne (doc : t) (coll : list t) : list t :=
  (λ c, if (_id c =? _id doc)%N then doc else c) <$> coll.

(** [doc.save()] of a document loaded from the collection: the document
    is validated, every loaded path of it and not only the changed ones,
    and then written; on a validation error nothing is written. *)
Definition save (doc : t) (coll : list t) : Exn + list t :=
  match validate doc with
  | Some e => inl e
  | None => inr (updateOne doc coll)
  end.

(** [findOneAndUpdate(filter, update)]: the first match is updated and
    returned (option [new: true]). *)
Fixpoint findOneAndUpdate (filter : t → bool) (update : t → t)
    (coll : list t) : list t * option t :=
  match coll with
  | [] => ([], None)
  | c :: rest =>
      if filter c then (update c :: rest, Some (update c))
      else let '(rest', r) := findOneAndUpdate filter update rest in
           (c :: rest', r)
  end.

Fixpoint findByIdAndDelete (id : ObjectId) (coll : list t) : list t :=
  match coll with
  | [] => []
  | c :: rest =>
      if (_id c =? id)%N then rest else c :: findByIdAndDelete id rest
  end.

End Conversation.

Module Message.

Record t := mk {
  _id : ObjectId;
  conversation : ObjectId;
  sender : ObjectId;
  content : JsString;
  readBy : list ObjectId;
  createdAt : Date;
}.

(** The validators of one String path of a schema. *)
Record StringPath := mkPath {
  required : bool;
  trim : bool;
  maxlength : option nat;
}.

(** [messageSchema.content]:
    [{ type: String, required: true, trim: true, maxlength: 2000 }]. *)
Definition contentSchema : StringPath :=
  {| required := true; trim := true; maxlength := Some 2000%nat |}.

(** The setter, then the validators, of a String path. *)
Definition castString (p : StringPath) (path : string) (v : JsString)
  : Exn + JsString :=
  let v := if trim p then Js.trim v else v in
  if required p && (length v =? 0)%nat
  then inl (ValidationError path "required")
  else match maxlength p with
       | Some n =>
           if (n <? length v)%nat then inl (ValidationError path "maxlength")
           else inr v
       | None => inr v
       end.

(** [Message.create(doc)] under a schema for [content]: [oid] is the id
    generated for the document and [now] its creation time stamp; on a
    validation error nothing is written, and the document returned is
    the one stored. *)
Definition createWith (schema : StringPath) (oid : ObjectId) (now : Date)
    (conv sndr : ObjectId) (text : JsString) (rb : list ObjectId)
    (coll : list t) : Exn + (list t * t) :=
  match castString schema "content" text with
  | inl e => inl e
  | inr text' =>
      let doc := {| _id := oid; conversation := conv; sender := sndr;
                    content := Bson.asStored text'; readBy := rb;
                    createdAt := now |} in
      inr (coll ++ [doc], doc)
  end.

Definition create := createWith contentSchema.

Definition find (filter : t → bool) (coll : list t) : list t :=
  List.filter filter coll.

Definition findById (id : ObjectId) (coll : list t) : option t :=
  List.find (λ m, (_id m =? id)%N) coll.

Definition countDocuments (filter : t → bool) (coll : list t) : nat :=
  length (List.filter filter coll).

(** [{ $addToSet: { readBy: u } }] *)
Definition addToSet_readBy (u : ObjectId) (m : t) : t :=
  {| _id := _id m; conversation := conversation m; sender := sender m;
     content := content m;
     readBy := if Js.includes (readBy m) u then readBy m
               else readBy m ++ [u];
     createdAt := createdAt m |}.

Definition updateMany (filter : t → bool) (update : t → t) (coll : list t)
  : list t :=
  (λ m, if filter m then update m else m) <$> coll.

Definition deleteMany (filter : t → bool) (coll : list t) : list t :=
  List.filter (λ m, negb (filter m)) coll.

(** The filter of both mark-as-read paths:
    [{ conversation: cid, readBy: { $ne: u } }]. *)
Definition unreadBy (cid u : ObjectId) (m : t) : bool :=
  (conversation m =? cid)%N && negb (Js.includes (readBy m) u).

(** [.sort({ createdAt: -1 })], newest first, as a stable insertion. *)
Fixpoint insertNewestFirst (m : t) (sorted : list t) : list t :=
  match sorted with
  | [] => [m]
  | x :: rest =>
      if (createdAt x <? createdAt m)%Z then m :: sorted
      else x :: insertNewestFirst m rest
  end.

Definition sortNewestFirst (l : list t) : list t :=
  foldr insertNewestFirst [] l.

End Message.

(** ** The durable store and the gateway's process-local state *)

Record Store := mkStore {
  users : list User.t;
  conversations : list Conversation.t;
  messages : list Message.t;
  friendships : list Friendship.t;
  oid : ObjectId;  (* the next id [new ObjectId()] hands out *)
}.

Definition set_users (us : list User.t) (d : Store) : Store :=
  {| users := us; conversations := conversations d; messages := messages d;
     friendships := friendships d; oid := oid d |}.

Definition set_conversations (cs : list Conversation.t) (d : Store) : Store :=
  {| users := users d; conversations := cs; messages := messages d;
     friendships := friendships d; oid := oid d |}.

Definition set_messages (ms : list Message.t) (d : Store) : Store :=
  {| users := users d; conversations := conversations d; messages := ms;
     friendships := friendships d; oid := oid d |}.

Definition next_oid (d : Store) : Store :=
  {| users := users d; conversations := conversations d;
     messages := messages d; friendships := friendships d;
     oid := (oid d + 1)%N |}.

(** The rooms of the Socket.IO adapter: a socket's own room, and the
    template strings [`user:${userId}`] and [`conversation:${id}`]. *)
Inductive Room :=
| SocketRoom (sid : SocketId)
| UserRoom (userId : ObjectId)
| ConversationRoom (conversationId : ObjectId).

#[global] Instance Room_eq_dec : EqDecision Room.
Proof. solve_decision. Defined.

#[global] Instance Room_countable : Countable Room.
Proof.
  refine (inj_countable'
    (λ r, match r with
          | SocketRoom s => inl s
          | UserRoom u => inr (inl u)
          | ConversationRoom c => inr (inr c)
          end)
    (λ x, match x with
          | inl s => SocketRoom s
          | inr (inl u) => UserRoom u
          | inr (inr c) => ConversationRoom c
          end) _).
  by intros [].
Defined.

(** A connected socket: [socket.data.userId] and [socket.rooms]. *)
Record Socket := mkSocket {
  data_userId : ObjectId;
  rooms : gset Room;
}.

Record Gateway := mkGateway {
  onlineUsers : gmap N string;       (* userId -> socketId *)
  sockets : gmap string Socket;      (* the connected sockets *)
}.

Record Server := mkServer {
  db : Store;
  io : Gateway;
}.

Definition with_db (d : Store) (s : Server) : Server :=
  {| db := d; io := io s |}.

Definition with_io (g : Gateway) (s : Server) : Server :=
  {| db := db s; io := g |}.

(** ** Populated views *)

Record PopulatedMessage := mkPMessage {
  pm_doc : Message.t;
  pm_sender : option User.brief;     (* populate("sender", "name email") *)
}.

Record PopulatedConversation := mkPConversation {
  pc_doc : Conversation.t;
  (* populate("participants", "name email isOnline lastSeen") *)
  pc_participants : list User.t;
  (* populate("admin", "name email"), when the query asks for it *)
  pc_admin : option User.brief;
}.

Definition populate_sender (d : Store) (m : Message.t) : PopulatedMessage :=
  {| pm_doc := m;
     pm_sender := User.select_name_email
                    <$> User.findById (Message.sender m) (users d) |}.

(** References to users that no longer exist are dropped from a populated
    array. *)
Definition populate_participants (d : Store) (c : Conversation.t)
  : PopulatedConversation :=
  {| pc_doc := c;
     pc_participants :=
       omap (λ p, User.findById p (users d)) (Conversation.participants c);
     pc_admin := None |}.

Definition populate_admin (d : Store) (pc : PopulatedConversation)
  : PopulatedConversation :=
  {| pc_doc := pc_doc pc;
     pc_participants := pc_participants pc;
     pc_admin :=
       Conversation.admin (pc_doc pc)
         ≫= (λ a, User.select_name_email <$> User.findById a (users d)) |}.

(** ** The gateway (server/config/socket.ts) *)

Inductive ServerEvent :=
| user_online (userId : ObjectId)
| user_offline (userId : ObjectId)
| message_receive (message : option PopulatedMessage)
                  (conversationId : ObjectId)
| typing_update (userId conversationId : ObjectId) (isTyping : bool)
| messages_read_update (conversationId userId : ObjectId)
| error (message : string).

(** Where an [emit] goes. *)
Inductive Target :=
| socket_emit (sid : SocketId)             (* socket.emit(...) *)
| io_to (room : Room)                      (* io.to(room).emit(...) *)
| socket_to (sid : SocketId) (room : Room) (* socket.to(room).emit(...) *)
| socket_broadcast (sid : SocketId).       (* socket.broadcast.emit(...) *)

Record Emission := emit {
  target : Target;
  event : ServerEvent;
}.

(** The sockets joined to a room. *)
Definition joined (g : Gateway) (r : Room) : gset string :=
  dom (filter (λ kv : string * Socket, r ∈ rooms kv.2) (sockets g)).

(** The connections an emission is delivered to. *)
Definition recipients (g : Gateway) (t : Target) : gset string :=
  match t with
  | socket_emit sid => {[sid]}
  | io_to r => joined g r
  | socket_to sid r => joined g r ∖ {[sid]}
  | socket_broadcast sid => dom (sockets g) ∖ {[sid]}
  end.

Definition hasParticipant (userId : ObjectId) (c : Conversation.t) : bool :=
  Js.includes (Conversation.participants c) userId.

Definition set_isOnline (b : bool) (u : User.t) : User.t :=
  {| User._id := User._id u; User.name := User.name u;
     User.email := User.email u; User.isOnline := b;
     User.lastSeen := User.lastSeen u |}.

Definition set_offline (now : Date) (u : User.t) : User.t :=
  {| User._id := User._id u; User.name := User.name u;
     User.email := User.email u; User.isOnline := false;
     User.lastSeen := now |}.

Definition socket_join (sid : SocketId) (r : Room) (g : Gateway) : Gateway :=
  {| onlineUsers := onlineUsers g;
     sockets := alter (λ k, {| data_userId := data_userId k;
                               rooms := {[r]} ∪ rooms k |}) sid (sockets g) |}.

Definition socket_leave (sid : SocketId) (r : Room) (g : Gateway) : Gateway :=
  {| onlineUsers := onlineUsers g;
     sockets := alter (λ k, {| data_userId := data_userId k;
                               rooms := rooms k ∖ {[r]} |}) sid (sockets g) |}.

(** [io.on("connection", ...)]: the body run for a socket [sid] whose
    handshake token was verified to [userId]. *)
Definition on_connection (sid : SocketId) (userId : ObjectId) (s : Server)
  : Server * list Emission :=
  let online := <[userId := sid]> (onlineUsers (io s)) in
  let d := set_users
             (User.findByIdAndUpdate userId (set_isOnline true) (users (db s)))
             (db s) in
  let convs := Conversation.find (hasParticipant userId) (conversations d) in
  let rs : gset Room :=
    {[SocketRoom sid; UserRoom userId]}
    ∪ list_to_set ((λ c, ConversationRoom (Conversation._id c)) <$> convs) in
  ({| db := d;
      io := {| onlineUsers := online;
               sockets := <[sid := {| data_userId := userId; rooms := rs |}]>
                            (sockets (io s)) |} |},
   [emit (socket_broadcast sid) (user_online userId)]).

(** [io.use(...)]: a missing or invalid token refuses the connection
    before anything is touched.  [token] is what [jwt.verify] yields. *)
Definition connect (sid : SocketId) (token : option ObjectId) (s : Server)
  : Server * list Emission :=
  match token with
  | None => (s, [])
  | Some userId => on_connection sid userId s
  end.

Definition on_conversation_join (sid : SocketId) (conversationId : ObjectId)
    (s : Server) : Server * list Emission :=
  (with_io (socket_join sid (ConversationRoom conversationId) (io s)) s, []).

Definition on_conversation_leave (sid : SocketId) (conversationId : ObjectId)
    (s : Server) : Server * list Emission :=
  (with_io (socket_leave sid (ConversationRoom conversationId) (io s)) s, []).

(** [socket.on("message:send", ...)], over the schema of
    [Message.content] the model layer validates against. *)
Definition on_message_send_with (schema : Message.StringPath)
    (sid : SocketId) (userId : ObjectId) (now : Date)
    (conversationId : ObjectId) (content : JsString) (s : Server)
  : Server * list Emission :=
  (* Validate conversation exists and user is participant *)
  match Conversation.findOne
          (λ c, (Conversation._id c =? conversationId)%N
                && hasParticipant userId c)
          (conversations (db s)) with
  | None => (s, [emit (socket_emit sid) (error "Conversation not found")])
  | Some conversation =>
      (* Create message *)
      match Message.createWith schema (oid (db s)) now conversationId userId
              (Js.trim content) [userId] (messages (db s)) with
      | inl _ =>
          (* catch (error) *)
          (s, [emit (socket_emit sid) (error "Failed to send message")])
      | inr (msgs, message) =>
          let d1 := next_oid (set_messages msgs (db s)) in
          (* Update conversation's lastMessage *)
          let conversation' :=
            Conversation.set_lastMessage
              {| Conversation.lm_content :=
                   Bson.asStored (Js.substring 0 100 (Js.trim content));
                 Conversation.lm_sender := userId;
                 Conversation.lm_createdAt := now |}
              conversation in
          match Conversation.save conversation' (conversations d1) with
          | inl _ =>
              (* catch (error): the message is written already *)
              (with_db d1 s,
               [emit (socket_emit sid) (error "Failed to send message")])
          | inr convs =>
              let d2 := set_conversations convs d1 in
              (* Populate sender info *)
              let populatedMessage :=
                populate_sender d2
                  <$> Message.findById (Message._id message) (messages d2) in
              (* Emit to all participants in the conversation *)
              (with_db d2 s,
               [emit (io_to (ConversationRoom conversationId))
                     (message_receive populatedMessage conversationId)])
          end
      end
  end.

Definition on_message_send := on_message_send_with Message.contentSchema.

Definition on_typing_start (sid : SocketId) (userId conversationId : ObjectId)
    (s : Server) : Server * list Emission :=
  (s, [emit (socket_to sid (ConversationRoom conversationId))
            (typing_update userId conversationId true)]).

Definition on_typing_stop (sid : SocketId) (userId conversationId : ObjectId)
    (s : Server) : Server * list Emission :=
  (s, [emit (socket_to sid (ConversationRoom conversationId))
            (typing_update userId conversationId false)]).

(** [socket.on("messages:read", ...)] *)
Definition on_messages_read (userId conversationId : ObjectId) (s : Server)
  : Server * list Emission :=
  let msgs := Message.updateMany
                (Message.unreadBy conversationId userId)
                (Message.addToSet_readBy userId)
                (messages (db s)) in
  (with_db (set_messages msgs (db s)) s,
   [emit (io_to (ConversationRoom conversationId))
         (messages_read_update conversationId userId)]).

(** [socket.on("disconnect", ...)]: by the time the handler runs the
    socket has left its rooms and the server's set of connections. *)
Definition on_disconnect (sid : SocketId) (userId : ObjectId) (now : Date)
    (s : Server) : Server * list Emission :=
  let g := {| onlineUsers := delete userId (onlineUsers (io s));
              sockets := delete sid (sockets (io s)) |} in
  (* Update user offline status *)
  let d := set_users
             (User.findByIdAndUpdate userId (set_offline now) (users (db s)))
             (db s) in
  (* Broadcast offline status *)
  ({| db := d; io := g |},
   [emit (socket_broadcast sid) (user_offline userId)]).

(** What a client sends over an open socket. *)
Inductive ClientEvent :=
| conversation_join (conversationId : ObjectId)
| conversation_leave (conversationId : ObjectId)
| message_send (conversationId : ObjectId) (content : JsString)
| typing_start (conversationId : ObjectId)
| typing_stop (conversationId : ObjectId)
| messages_read (conversationId : ObjectId)
| disconnect.

(** The listeners registered on a socket close over the [userId] of its
    connection; an event for a socket that is not connected has no
    listener. *)
Definition socket_on (sid : SocketId) (now : Date) (ev : ClientEvent)
    (s : Server) : Server * list Emission :=
  match sockets (io s) !! sid with
  | None => (s, [])
  | Some k =>
      let userId := data_userId k in
      match ev with
      | conversation_join c => on_conversation_join sid c s
      | conversation_leave c => on_conversation_leave sid c s
      | message_send c content => on_message_send sid userId now c content s
      | typing_start c => on_typing_start sid userId c s
      | typing_stop c => on_typing_stop sid userId c s
      | messages_read c => on_messages_read userId c s
      | disconnect => on_disconnect sid userId now s
      end
  end.

(** ** The REST handlers (server/routes) *)

Record Pagination := mkPagination {
  pg_page : nat;
  pg_limit : nat;
  pg_total : nat;
  pg_pages : nat;
  pg_hasMore : bool;
}.

Inductive Body :=
| json_error (error : string)                          (* { error } *)
| json_message (message : string)                      (* { message } *)
| json_conversation (c : option PopulatedConversation)
| json_populated_message (m : option PopulatedMessage)
| json_conversation_page (c : PopulatedConversation)
    (messages : list PopulatedMessage) (pagination : Pagination)
| json_message_page (messages : list PopulatedMessage)
    (pagination : Pagination).

Record Response := respond {
  status : nat;
  body : Body;
}.

Definition areFriends (d : Store) (a b : ObjectId) : bool :=
  bool_decide (is_Some (Friendship.findOne (Friendship.acceptedBetween a b)
                          (friendships d))).

(** [parseInt(query) || dflt], for a query parameter that parses to a
    non-negative integer; 0 also stands for an absent or unparsable one. *)
Definition parseIntOr (dflt q : nat) : nat :=
  match q with O => dflt | _ => q end.

(** One page of the messages of a conversation, oldest first. *)
Definition messagePage (d : Store) (conversationId : ObjectId)
    (page limit : nat) : list PopulatedMessage * Pagination :=
  let skip := ((page - 1) * limit)%nat in
  let all := Message.find (λ m, (Message.conversation m =? conversationId)%N)
               (messages d) in
  let msgs := take limit (drop skip (Message.sortNewestFirst all)) in
  let total := length all in
  (populate_sender d <$> rev msgs,
   {| pg_page := page; pg_limit := limit; pg_total := total;
      pg_pages := ((total + limit - 1) / limit)%nat;
      pg_hasMore := (skip + length msgs <? total)%nat |}).

Module ConversationsRouter.

(** POST /api/conversations *)
Definition post (userId : ObjectId) (type : string)
    (participantIds : option (list ObjectId)) (name : option JsString)
    (d : Store) : Store * Response :=
  match participantIds with
  | None => (d, respond 400 (json_error "Invalid request body"))
  | Some participantIds =>
  if String.eqb type "" then
    (d, respond 400 (json_error "Invalid request body"))
  else
  (* Add current user to participants *)
  let allParticipants := Js.spreadSet (userId :: participantIds) in
  if String.eqb type "personal" then
    match participantIds with
    | p0 :: _ =>
      if negb (length allParticipants =? 2)%nat then
        (d, respond 400
              (json_error "Personal chat requires exactly 2 participants"))
      (* Check if they are friends *)
      else if negb (areFriends d userId p0) then
        (d, respond 400 (json_error "Can only chat with friends"))
      else
        (* Check if conversation already exists *)
        match Conversation.findOne
                (λ c, Conversation.ConversationType_eqb
                        (Conversation.type c) Conversation.personal
                      && forallb (Js.includes (Conversation.participants c))
                                 allParticipants
                      && (length (Conversation.participants c) =? 2)%nat)
                (conversations d) with
        | Some existing =>
            (d, respond 200
                  (json_conversation (Some (populate_participants d existing))))
        | None =>
            match Conversation.create (oid d) Conversation.personal
                    allParticipants None None (conversations d) with
            | inl _ =>
                (d, respond 500 (json_error "Failed to create conversation"))
            | inr (convs, conversation) =>
                let d1 := next_oid (set_conversations convs d) in
                (d1, respond 201
                       (json_conversation
                          (populate_participants d1
                             <$> Conversation.findById
                                   (Conversation._id conversation)
                                   (conversations d1))))
            end
        end
    | [] =>
        (* here allParticipants is [userId] *)
        (d, respond 400
              (json_error "Personal chat requires exactly 2 participants"))
    end
  (* Group chat *)
  else if String.eqb type "group" then
    match name with
    | None => (d, respond 400 (json_error "Group name is required"))
    | Some name =>
      if (length (Js.trim name) =? 0)%nat then
        (d, respond 400 (json_error "Group name is required"))
      else if (Conversation.MAX_GROUP_SIZE <? length allParticipants)%nat then
        (d, respond 400 (json_error "Group cannot exceed 20 members"))
      else if (length allParticipants <? 2)%nat then
        (d, respond 400 (json_error "Group requires at least 2 members"))
      (* Verify all participants are friends with the creator *)
      else if negb (forallb (areFriends d userId) participantIds) then
        (d, respond 400 (json_error "Can only add friends to group"))
      else
        match Conversation.create (oid d) Conversation.group
                allParticipants (Some (Js.trim name)) (Some userId)
                (conversations d) with
        | inl _ =>
            (d, respond 500 (json_error "Failed to create conversation"))
        | inr (convs, conversation) =>
            let d1 := next_oid (set_conversations convs d) in
            (d1, respond 201
                   (json_conversation
                      (populate_admin d1
                         <$> (populate_participants d1
                                <$> Conversation.findById
                                      (Conversation._id conversation)
                                      (conversations d1)))))
        end
    end
  else (d, respond 400 (json_error "Invalid conversation type"))
  end.

(** GET /api/conversations/:id *)
Definition get (userId conversationId : ObjectId) (page limit : nat)
    (d : Store) : Response :=
  let page := parseIntOr 1 page in
  let limit := parseIntOr 50 limit in
  match Conversation.findOne
          (λ c, (Conversation._id c =? conversationId)%N
                && hasParticipant userId c)
          (conversations d) with
  | None => respond 404 (json_error "Conversation not found")
  | Some conversation =>
      let '(msgs, pagination) := messagePage d conversationId page limit in
      respond 200
        (json_conversation_page
           (populate_admin d (populate_participants d conversation))
           msgs pagination)
  end.

(** PUT /api/conversations/:id/members *)
Definition put_members (userId conversationId : ObjectId) (action : string)
    (memberIds : option (list ObjectId)) (d : Store) : Store * Response :=
  match memberIds with
  | None => (d, respond 400 (json_error "Invalid request body"))
  | Some memberIds =>
  if String.eqb action "" then
    (d, respond 400 (json_error "Invalid request body"))
  else
  match Conversation.findOne
          (λ c, (Conversation._id c =? conversationId)%N
                && Conversation.ConversationType_eqb
                     (Conversation.type c) Conversation.group
                && bool_decide (Conversation.admin c = Some userId))
          (conversations d) with
  | None => (d, respond 404 (json_error "Group not found or not admin"))
  | Some conversation =>
    let saved (ps : list ObjectId) :=
      match Conversation.save
              (Conversation.set_participants ps conversation)
              (conversations d) with
      | inl _ =>
          (* catch (error) *)
          (d, respond 500 (json_error "Failed to update group members"))
      | inr convs =>
          let d1 := set_conversations convs d in
          (d1, respond 200
                 (json_conversation
                    (populate_admin d1
                       <$> (populate_participants d1
                              <$> Conversation.findById conversationId
                                    (conversations d1)))))
      end in
    if String.eqb action "add" then
      (* Check max size *)
      let newSize := (length (Conversation.participants conversation)
                      + length memberIds)%nat in
      if (Conversation.MAX_GROUP_SIZE <? newSize)%nat then
        (d, respond 400 (json_error "Group cannot exceed 20 members"))
      (* Verify all new members are friends with admin *)
      else if negb (forallb (areFriends d userId) memberIds) then
        (d, respond 400 (json_error "Can only add friends to group"))
      else
        saved (Js.spreadSet
                 (Conversation.participants conversation ++ memberIds))
    else if String.eqb action "remove" then
      (* Cannot remove admin *)
      if Js.includes memberIds userId then
        (d, respond 400 (json_error "Admin cannot be removed"))
      else
        let ps := List.filter (λ p, negb (Js.includes memberIds p))
                    (Conversation.participants conversation) in
        if (length ps <? 2)%nat then
          (d, respond 400 (json_error "Group must have at least 2 members"))
        else saved ps
    else (d, respond 400 (json_error "Invalid action"))
  end
  end.

(** PUT /api/conversations/:id/name *)
Definition put_name (userId conversationId : ObjectId)
    (name : option JsString) (d : Store) : Store * Response :=
  match name with
  | None => (d, respond 400 (json_error "Group name is required"))
  | Some name =>
    if (length (Js.trim name) =? 0)%nat then
      (d, respond 400 (json_error "Group name is required"))
    else
      match Conversation.findOneAndUpdate
              (λ c, (Conversation._id c =? conversationId)%N
                    && Conversation.ConversationType_eqb
                         (Conversation.type c) Conversation.group
                    && bool_decide (Conversation.admin c = Some userId))
              (Conversation.set_name (Js.trim name))
              (conversations d) with
      | (_, None) =>
          (d, respond 404 (json_error "Group not found or not admin"))
      | (convs, Some conversation) =>
          let d1 := set_conversations convs d in
          (d1, respond 200
                 (json_conversation
                    (Some (populate_admin d1
                             (populate_participants d1 conversation)))))
      end
  end.

(** DELETE /api/conversations/:id *)
Definition delete (userId conversationId : ObjectId) (d : Store)
  : Store * Response :=
  match Conversation.findOne
          (λ c, (Conversation._id c =? conversationId)%N
                && hasParticipant userId c)
          (conversations d) with
  | None => (d, respond 404 (json_error "Conversation not found"))
  | Some conversation =>
    let removed :=
      set_conversations
        (Conversation.findByIdAndDelete conversationId (conversations d))
        (set_messages
           (Message.deleteMany
              (λ m, (Message.conversation m =? conversationId)%N)
              (messages d)) d) in
    match Conversation.type conversation with
    | Conversation.personal =>
        (* For personal chats, just remove the conversation *)
        (removed, respond 200 (json_message "Conversation deleted"))
    | Conversation.group =>
        if bool_decide (Conversation.admin conversation = Some userId) then
          (* Admin leaving deletes the group *)
          (removed, respond 200 (json_message "Group deleted"))
        else
          (* Regular member leaving *)
          let conversation' :=
            Conversation.set_participants
              (List.filter (λ p, negb (p =? userId)%N)
                 (Conversation.participants conversation))
              conversation in
          match Conversation.save conversation' (conversations d) with
          | inl _ =>
              (* catch (error) *)
              (d, respond 500 (json_error "Failed to leave conversation"))
          | inr convs =>
              (set_conversations convs d,
               respond 200 (json_message "Left group"))
          end
    end
  end.

End ConversationsRouter.

Module MessagesRouter.

(** POST /api/messages (REST fallback of [message:send]; no broadcast) *)
Definition post (userId : ObjectId) (now : Date) (conversationId : ObjectId)
    (content : JsString) (d : Store) : Store * Response :=
  if (length content =? 0)%nat || (length (Js.trim content) =? 0)%nat then
    (d, respond 400 (json_error "Conversation ID and content are required"))
  else
  (* Validate conversation exists and user is participant *)
  match Conversation.findOne
          (λ c, (Conversation._id c =? conversationId)%N
                && hasParticipant userId c)
          (conversations d) with
  | None => (d, respond 404 (json_error "Conversation not found"))
  | Some conversation =>
      match Message.create (oid d) now conversationId userId
              (Js.trim content) [userId] (messages d) with
      | inl _ => (d, respond 500 (json_error "Failed to send message"))
      | inr (msgs, message) =>
          let d1 := next_oid (set_messages msgs d) in
          let conversation' :=
            Conversation.set_lastMessage
              {| Conversation.lm_content :=
                   Bson.asStored (Js.substring 0 100 (Js.trim content));
                 Conversation.lm_sender := userId;
                 Conversation.lm_createdAt := now |}
              conversation in
          match Conversation.save conversation' (conversations d1) with
          | inl _ =>
              (* catch (error): the message is written already *)
              (d1, respond 500 (json_error "Failed to send message"))
          | inr convs =>
              let d2 := set_conversations convs d1 in
              (d2, respond 201
                     (json_populated_message
                        (populate_sender d2
                           <$> Message.findById (Message._id message)
                                 (messages d2))))
          end
      end
  end.

(** GET /api/messages/:conversationId *)
Definition get (userId conversationId : ObjectId) (page limit : nat)
    (d : Store) : Response :=
  let page := parseIntOr 1 page in
  let limit := parseIntOr 50 limit in
  match Conversation.findOne
          (λ c, (Conversation._id c =? conversationId)%N
                && hasParticipant userId c)
          (conversations d) with
  | None => respond 404 (json_error "Conversation not found")
  | Some _ =>
      let '(msgs, pagination) := messagePage d conversationId page limit in
      respond 200 (json_message_page msgs pagination)
  end.

(** PUT /api/messages/read/:conversationId *)
Definition put_read (userId conversationId : ObjectId) (d : Store)
  : Store * Response :=
  (* Verify user is participant *)
  match Conversation.findOne
          (λ c, (Conversation._id c =? conversationId)%N
                && hasParticipant userId c)
          (conversations d) with
  | None => (d, respond 404 (json_error "Conversation not found"))
  | Some _ =>
      (set_messages
         (Message.updateMany
            (Message.unreadBy conversationId userId)
            (Message.addToSet_readBy userId)
            (messages d)) d,
       respond 200 (json_message "Messages marked as read"))
  end.

End MessagesRouter.

(** ** The server as a transition system *)

(** A REST call, made by the authenticated user [userId]. *)
Inductive RestCall :=
| POST_conversations (type : string) (participantIds : option (list ObjectId))
    (name : option JsString)
| GET_conversation (conversationId : ObjectId) (page limit : nat)
| PUT_members (conversationId : ObjectId) (action : string)
    (memberIds : option (list ObjectId))
| PUT_name (conversationId : ObjectId) (name : option JsString)
| DELETE_conversation (conversationId : ObjectId)
| POST_messages (conversationId : ObjectId) (content : JsString)
| GET_messages (conversationId : ObjectId) (page limit : nat)
| PUT_read (conversationId : ObjectId).

Definition rest (userId : ObjectId) (now : Date) (call : RestCall) (d : Store)
  : Store * Response :=
  match call with
  | POST_conversations ty ps nm => ConversationsRouter.post userId ty ps nm d
  | GET_conversation c page limit =>
      (d, ConversationsRouter.get userId c page limit d)
  | PUT_members c action ms => ConversationsRouter.put_members userId c action ms d
  | PUT_name c nm => ConversationsRouter.put_name userId c nm d
  | DELETE_conversation c => ConversationsRouter.delete userId c d
  | POST_messages c content => MessagesRouter.post userId now c content d
  | GET_messages c page limit => (d, MessagesRouter.get userId c page limit d)
  | PUT_read c => MessagesRouter.put_read userId c d
  end.

(** Everything the outside world can do to the server. *)
Inductive Request :=
| Connect (sid : SocketId) (token : option ObjectId)
| SocketEvent (sid : SocketId) (ev : ClientEvent)
| Rest (userId : ObjectId) (call : RestCall).

(** What the server answers: the emissions of a gateway handler, or the
    response of a REST handler. *)
Inductive Output :=
| Emitted (es : list Emission)
| Responded (r : Response).

(** One request, handled at time [now]. *)
Definition step (now : Date) (r : Request) (s : Server) : Server * Output :=
  match r with
  | Connect sid token =>
      let '(s', es) := connect sid token s in (s', Emitted es)
  | SocketEvent sid ev =>
      let '(s', es) := socket_on sid now ev s in (s', Emitted es)
  | Rest userId call =>
      let '(d, resp) := rest userId now call (db s) in
      (with_db d s, Responded resp)
  end.

(** A sequence of time-stamped requests, handled one after the other. *)
Fixpoint run (trace : list (Date * Request)) (s : Server) : Server :=
  match trace with
  | [] => s
  | (now, r) :: rest => run rest (step now r s).1
  end.

(** ** Predicates the properties are stated with *)

(** [userId] is among the participants of a stored conversation with id
    [conversationId]. *)
Definition participates (userId conversationId : ObjectId) (d : Store) : Prop :=
  Exists (λ c, Conversation._id c = conversationId
               ∧ userId ∈ Conversation.participants c)
         (conversations d).

(** Ids are unique within a collection and were all handed out by the
    generator already. *)
Record wf (d : Store) : Prop := mk_wf {
  wf_conversation_ids : NoDup (Conversation._id <$> conversations d);
  wf_message_ids : NoDup (Message._id <$> messages d);
  wf_conversation_old :
    Forall (λ c, (Conversation._id c < oid d)%N) (conversations d);
  wf_message_old : Forall (λ m, (Message._id m < oid d)%N) (messages d);
}.

(** Content the message schema accepts: after trimming, non-empty and at
    most 2000 code units. *)
Definition valid_content (content : JsString) : Prop :=
  Js.trim content ≠ [] ∧ length (Js.trim content) ≤ 2000.

(** A schema for [Message.content] that rejects nothing. *)
Definition laxSchema : Message.StringPath :=
  {| Message.required := false; Message.trim := true;
     Message.maxlength := None |}.

(** The reading of "the Gateway enforces the content bound itself, not
    relying on the storage-schema layer": whatever schema the model layer
    validates against, the handler leaves the server untouched when the
    trimmed content is empty or longer than 2000 code units. *)
Definition gateway_enforces_content_bound : Prop :=
  ∀ schema sid u now cid content s,
    participates u cid (db s) → ¬ valid_content content →
    (on_message_send_with schema sid u now cid content s).1 = s.

(** What a request may do to the store: ids are only ever handed out
    upwards, no user document appears or disappears, a conversation or
    message present afterwards either was there before or carries an id
    generated meanwhile, and a message that was there before still has,
    besides all it had, every reader it had. *)
Record evolves (d d' : Store) : Prop := mk_evolves {
  ev_oid : (oid d ≤ oid d')%N;
  ev_users : User._id <$> users d' = User._id <$> users d;
  ev_conversations :
    ∀ c', c' ∈ conversations d' →
      (∃ c, c ∈ conversations d ∧ Conversation._id c = Conversation._id c')
      ∨ (oid d ≤ Conversation._id c' < oid d')%N;
  ev_messages :
    ∀ m', m' ∈ messages d' →
      (∃ m, m ∈ messages d ∧ Message._id m = Message._id m'
            ∧ Message.conversation m = Message.conversation m'
            ∧ Message.sender m = Message.sender m'
            ∧ Message.content m = Message.content m'
            ∧ Message.createdAt m = Message.createdAt m'
            ∧ Message.readBy m ⊆ Message.readBy m')
      ∨ (oid d ≤ Message._id m' < oid d')%N;
}.

(** The size invariant of a group: its participants are pairwise distinct
    and there are between 2 and [MAX_GROUP_SIZE] of them. *)
Definition group_ok (c : Conversation.t) : Prop :=
  Conversation.type c = Conversation.group →
  NoDup (Conversation.participants c)
  ∧ 2 ≤ length (Conversation.participants c) ≤ Conversation.MAX_GROUP_SIZE.

Definition groups_ok (d : Store) : Prop := Forall group_ok (conversations d).

(** The member add and remove operations: PUT /:id/members. *)
Definition is_member_op (r : Date * Request) : Prop :=
  match r.2 with
  | Rest _ (PUT_members _ _ _) => True
  | _ => False
  end.

(** The group [c], with id [cid], that [u] administers. *)
Definition administers (u cid : ObjectId) (c : Conversation.t) (d : Store)
  : Prop :=
  c ∈ conversations d ∧ Conversation._id c = cid
  ∧ Conversation.type c = Conversation.group
  ∧ Conversation.admin c = Some u.

(** [a] and [b] are accepted friends. *)
Definition friends (a b : ObjectId) (d : Store) : Prop :=
  Exists (λ f, Friendship.status f = Friendship.accepted
               ∧ ((Friendship.requester f = a ∧ Friendship.recipient f = b)
                  ∨ (Friendship.requester f = b ∧ Friendship.recipient f = a)))
         (friendships d).

(** [c] is a personal conversation whose participant set is {a, b}. *)
Definition personal_between (a b : ObjectId) (c : Conversation.t) : Prop :=
  Conversation.type c = Conversation.personal
  ∧ (Conversation.participants c = [a; b]
     ∨ Conversation.participants c = [b; a]).

#[global] Instance personal_between_dec a b c : Decision (personal_between a b c).
Proof. unfold personal_between. apply _. Defined.

(** How many personal conversations between [a] and [b] are stored. *)
Definition count_personal (a b : ObjectId) (d : Store) : nat :=
  length (List.filter (λ c, bool_decide (personal_between a b c))
            (conversations d)).

(** A request that neither opens nor closes the socket [sid]. *)
Definition keeps_open (sid : SocketId) (r : Date * Request) : Prop :=
  match r.2 with
  | Connect sid' _ => sid' ≠ sid
  | SocketEvent sid' disconnect => sid' ≠ sid
  | _ => True
  end.

(** How the ids of a collection may change in one request: some documents
    are deleted, or one is inserted under the id [o] generated for it. *)
Definition ids_step (o : ObjectId) (l l' : list ObjectId) : Prop :=
  l' `sublist_of` l ∨ l' = l ++ [o].

Record ids_evolve (d d' : Store) : Prop := mk_ids_evolve {
  ie_conversations :
    ids_step (oid d) (Conversation._id <$> conversations d)
      (Conversation._id <$> conversations d');
  ie_messages :
    ids_step (oid d) (Message._id <$> messages d)
      (Message._id <$> messages d');
}.

(** ** A small deployment used in the examples *)

Definition alice : User.t := User.mk 1 "Alice" "alice@example.org" false 0.
Definition bob : User.t := User.mk 2 "Bob" "bob@example.org" false 0.
Definition carol : User.t := User.mk 3 "Carol" "carol@example.org" false 0.
Definition dave : User.t := User.mk 4 "Dave" "dave@example.org" false 0.

(** "hi" and "Trip" *)
Definition str_hi : JsString := [104; 105]%N.
Definition str_Trip : JsString := [84; 114; 105; 112]%N.

(** Alice and Bob have a personal conversation (100); Alice administers the
    group "Trip" (101) with Bob and Carol, in which Bob has said "hi";
    Dave is nobody's accepted friend. *)
Definition ex_db : Store :=
  {| users := [alice; bob; carol; dave];
     conversations :=
       [Conversation.mk 100 Conversation.personal [1; 2]%N None None None;
        Conversation.mk 101 Conversation.group [1; 2; 3]%N
          (Some str_Trip) (Some 1%N) None];
     messages := [Message.mk 150 101 2 str_hi [2%N] 10];
     friendships :=
       [Friendship.mk 1 2 Friendship.accepted;
        Friendship.mk 3 1 Friendship.accepted;
        Friendship.mk 1 4 Friendship.pending];
     oid := 200 |}.

Definition ex_server : Server :=
  {| db := ex_db; io := {| onlineUsers := ∅; sockets := ∅ |} |}.

(** Alice, Bob and Dave are connected, on sockets "sA", "sB" and "sD". *)
Definition ex_live : Server :=
  run [(20, Connect "sA" (Some 1%N));
       (21, Connect "sB" (Some 2%N));
       (22, Connect "sD" (Some 4%N))]%Z ex_server.

(** The store before anything was created. *)
Definition empty_db : Store :=
  {| users := []; conversations := []; messages := []; friendships := [];
     oid := 0 |}.

(** A group of two, Alice (admin) and Bob. *)
Definition str_Duo : JsString := [68; 117; 111]%N.

Definition ex_duo : Store :=
  {| users := [alice; bob];
     conversations :=
       [Conversation.mk 102 Conversation.group [1; 2]%N
          (Some str_Duo) (Some 1%N) None];
     messages := [];
     friendships := [Friendship.mk 1 2 Friendship.accepted];
     oid := 200 |}.

(** ** The gateway's exported helpers (server/config/socket.ts) *)

(** [isUserOnline(userId)]: [onlineUsers.has(userId)] *)
Definition isUserOnline (userId : ObjectId) (g : Gateway) : bool :=
  bool_decide (is_Some (onlineUsers g !! userId)).

(** [getSocketId(userId)]: [onlineUsers.get(userId)] *)
Definition getSocketId (userId : ObjectId) (g : Gateway) : option string :=
  onlineUsers g !! userId.

(** ** Predicates of the further properties *)

(** Every entry of the presence registry names a connected socket of that
    very user. *)
Definition registry_sound (g : Gateway) : Prop :=
  ∀ u sid, getSocketId u g = Some sid →
           data_userId <$> sockets g !! sid = Some u.

(** Along the trace, a connection is only ever opened under a socket id
    that is not in use at that moment. *)
Fixpoint connects_fresh (trace : list (Date * Request)) (s : Server) : Prop :=
  match trace with
  | [] => True
  | (now, r) :: rest =>
      match r with
      | Connect sid _ => sockets (io s) !! sid = None
      | _ => True
      end
      ∧ connects_fresh rest (step now r s).1
  end.

(** The durable online flag of every user document says what the presence
    registry says. *)
Definition presence_agrees (s : Server) : Prop :=
  ∀ u doc, User.findById u (users (db s)) = Some doc →
           User.isOnline doc = isUserOnline u (io s).

(** A request that neither opens nor closes the socket [sid] nor makes it
    leave the room of conversation [cid]. *)
Definition stays_in (sid : SocketId) (cid : ObjectId) (r : Date * Request)
  : Prop :=
  match r.2 with
  | Connect sid' _ => sid' ≠ sid
  | SocketEvent sid' disconnect => sid' ≠ sid
  | SocketEvent sid' (conversation_leave cid') => sid' ≠ sid ∨ cid' ≠ cid
  | _ => True
  end.

(** [u] is the admin of a stored group with id [cid]. *)
Definition is_admin_of (u cid : ObjectId) (d : Store) : Prop :=
  Exists (λ c, Conversation._id c = cid
               ∧ Conversation.type c = Conversation.group
               ∧ Conversation.admin c = Some u)
         (conversations d).

(** A conversation without its name. *)
Definition sans_name (c : Conversation.t)
  : ObjectId * Conversation.ConversationType * list ObjectId
    * option ObjectId * option Conversation.LastMessage :=
  (Conversation._id c, Conversation.type c, Conversation.participants c,
   Conversation.admin c, Conversation.lastMessage c).

(** The shape every stored conversation has: distinct participants; two of
    them in a personal conversation; in a group at most [MAX_GROUP_SIZE],
    one of which is its admin. *)
Definition conversation_shape (c : Conversation.t) : Prop :=
  NoDup (Conversation.participants c)
  ∧ match Conversation.type c with
    | Conversation.personal => length (Conversation.participants c) = 2
    | Conversation.group =>
        length (Conversation.participants c) ≤ Conversation.MAX_GROUP_SIZE
        ∧ ∃ a, Conversation.admin c = Some a
               ∧ a ∈ Conversation.participants c
    end.

Definition shapes_ok (d : Store) : Prop :=
  Forall conversation_shape (conversations d).

(** The conversation a request is about: the one it names, or, for a
    creation, the one that would get the next generated id. *)
Definition addressed (r : Request) (s : Server) : option ObjectId :=
  match r with
  | Connect _ _ => None
  | SocketEvent _ (message_send c _) | SocketEvent _ (messages_read c) =>
      Some c
  | SocketEvent _ _ => None
  | Rest _ (POST_conversations _ _ _) => Some (oid (db s))
  | Rest _ (GET_conversation _ _ _) | Rest _ (GET_messages _ _ _) => None
  | Rest _ (PUT_members c _ _) | Rest _ (PUT_name c _)
  | Rest _ (DELETE_conversation c) | Rest _ (POST_messages c _)
  | Rest _ (PUT_read c) => Some c
  end.

(** What is stored of conversation [cid]: its documents and its messages. *)
Definition stored_of (cid : ObjectId) (d : Store)
  : list Conversation.t * list Message.t :=
  (List.filter (λ c, (Conversation._id c =? cid)%N) (conversations d),
   List.filter (λ m, (Message.conversation m =? cid)%N) (messages d)).

(** The unread count that GET /api/conversations attaches to each
    conversation it lists (the listing itself, ordered by [updatedAt], is
    not modelled):
    [Message.countDocuments({ conversation: conv._id,
                              readBy: { $ne: userId } })]. *)
Definition unreadCount (userId : ObjectId) (conv : Conversation.t) (d : Store)
  : nat :=
  Message.countDocuments
    (Message.unreadBy (Conversation._id conv) userId) (messages d).

(** [a] comes before [b] in a newest-first listing. *)
Definition not_older (a b : Message.t) : Prop :=
  (Message.createdAt b ≤ Message.createdAt a)%Z.

(** ** The friends router (server/routes/friends.ts)

    The two routes that address a friendship by the other user's id.  The
    routes that address it by its own id (accept, decline, cancel) and the
    listing are not modelled. *)

Definition set_friendships (fs : list Friendship.t) (d : Store) : Store :=
  {| users := users d; conversations := conversations d;
     messages := messages d; friendships := fs; oid := oid d |}.

Module FriendsRouter.

Inductive Reply :=
| reply_error (error : string)                        (* { error } *)
| reply_message (message : string)                    (* { message } *)
| reply_sent (message : string) (friendship : Friendship.t).
                                                      (* { message, friendship } *)

Record Answer := answer {
  code : nat;
  reply : Reply;
}.

(** [{ $or: [{ requester: a, recipient: b },
             { requester: b, recipient: a }] }] *)
Definition between (a b : ObjectId) (f : Friendship.t) : bool :=
  (((Friendship.requester f =? a) && (Friendship.recipient f =? b))
   || ((Friendship.requester f =? b) && (Friendship.recipient f =? a)))%N.

(** [existing.save()], for the document [findOne(flt)] returned: that
    document, the first match, is replaced by its new state. *)
Fixpoint saveFound (flt : Friendship.t → bool) (doc : Friendship.t)
    (coll : list Friendship.t) : list Friendship.t :=
  match coll with
  | [] => []
  | f :: rest => if flt f then doc :: rest else f :: saveFound flt doc rest
  end.

(** [Friendship.findOneAndDelete(flt)]: the first match is removed and
    returned. *)
Fixpoint findOneAndDelete (flt : Friendship.t → bool)
    (coll : list Friendship.t) : list Friendship.t * option Friendship.t :=
  match coll with
  | [] => ([], None)
  | f :: rest =>
      if flt f then (rest, Some f)
      else let '(rest', r) := findOneAndDelete flt rest in (f :: rest', r)
  end.

(** The unique compound index of the Friendship schema,
    [index({ requester: 1, recipient: 1 }, { unique: true })]: writing [doc]
    beside [others] is refused when one of them has its requester and its
    recipient. *)
Definition duplicateKey (doc : Friendship.t) (others : list Friendship.t)
  : bool :=
  existsb (λ f, (Friendship.requester f =? Friendship.requester doc)%N
                && (Friendship.recipient f =? Friendship.recipient doc)%N)
          others.

(** POST /api/friends/request/:userId *)
Definition post_request (requesterId recipientId : ObjectId) (d : Store)
  : Store * Answer :=
  if (requesterId =? recipientId)%N then
    (d, answer 400 (reply_error "Cannot send friend request to yourself"))
  else
  (* Check if recipient exists *)
  match User.findById recipientId (users d) with
  | None => (d, answer 404 (reply_error "User not found"))
  | Some _ =>
    (* Check if friendship already exists *)
    match Friendship.findOne (between requesterId recipientId)
            (friendships d) with
    | Some existing =>
        match Friendship.status existing with
        | Friendship.accepted =>
            (d, answer 400 (reply_error "Already friends"))
        | Friendship.pending =>
            (d, answer 400 (reply_error "Friend request already pending"))
        | Friendship.blocked =>
            (d, answer 400 (reply_error "Cannot send request to this user"))
        | Friendship.declined =>
            (* If declined, allow re-request *)
            let existing' :=
              {| Friendship.requester := requesterId;
                 Friendship.recipient := recipientId;
                 Friendship.status := Friendship.pending |} in
            if duplicateKey existing'
                 (findOneAndDelete (between requesterId recipientId)
                    (friendships d)).1
            then (d, answer 500 (reply_error "Failed to send friend request"))
            else
            (set_friendships
               (saveFound (between requesterId recipientId) existing'
                  (friendships d)) d,
             answer 200 (reply_sent "Friend request sent" existing'))
        end
    | None =>
        let friendship :=
          {| Friendship.requester := requesterId;
             Friendship.recipient := recipientId;
             Friendship.status := Friendship.pending |} in
        if duplicateKey friendship (friendships d)
        then (d, answer 500 (reply_error "Failed to send friend request"))
        else
        (set_friendships (friendships d ++ [friendship]) d,
         answer 201 (reply_sent "Friend request sent" friendship))
    end
  end.

(** DELETE /api/friends/:userId *)
Definition delete (userId friendId : ObjectId) (d : Store) : Store * Answer :=
  match findOneAndDelete (Friendship.acceptedBetween userId friendId)
          (friendships d) with
  | (_, None) => (d, answer 404 (reply_error "Friendship not found"))
  | (fs, Some _) =>
      (set_friendships fs d, answer 200 (reply_message "Friend removed"))
  end.

End FriendsRouter.

(** At most one friendship document is stored for any two users, whichever
    of them sent the request. *)
Definition pair_unique (d : Store) : Prop :=
  ∀ a b, length (List.filter (FriendsRouter.between a b) (friendships d)) ≤ 1.

(** {x, y} = {a, b} *)
Definition same_pair (x y a b : ObjectId) : Prop :=
  (x = a ∧ y = b) ∨ (x = b ∧ y = a).

(** ** Stored documents and the schema *)

(** The stored conversation [cid] passes the validation of its schema,
    as every conversation does that was created and never renamed past 50
    code units. *)
Definition passes_schema (cid : ObjectId) (d : Store) : Prop :=
  ∀ c, c ∈ conversations d → Conversation._id c = cid →
       Conversation.validate c = None.

(** The length of a string counted in characters, a surrogate pair being
    one character, where [length] counts its two code units. *)
Fixpoint characters (s : JsString) : nat :=
  match s with
  | [] => 0
  | c :: s' =>
      match s' with
      | d :: s'' =>
          if Bson.isHighSurrogate c && Bson.isLowSurrogate d
          then S (characters s'')
          else S (characters s')
      | [] => 1
      end
  end.

(** 1999 letters and the character U+1F600: 2000 characters, 2001 code
    units. *)
Definition str_long : JsString := replicate 1999 97%N ++ [55357; 56832]%N.

(** 99 letters, the character U+1F600 and one more letter: the 100th
    code unit is the first half of the pair. *)
Definition str_cut : JsString :=
  replicate 99 97%N ++ [55357; 56832; 97]%N.

(** 51 letters. *)
Definition str_51 : JsString := replicate 51 97%N.

(** The live server after Alice, the admin of group 101, renamed it to 51
    letters: the rename is accepted, and the stored document no longer
    passes its schema. *)
Definition ex_renamed : Server :=
  run [(40, Rest 1 (PUT_name 101 (Some str_51)))]%Z ex_live.

(** * Properties *)

(** ** Lists, [find] and [filter] *)

Section find_filter.
Context {A : Type} (p : A → bool).

Lemma find_Some_elem (l : list A) x :
  List.find p l = Some x → x ∈ l ∧ p x = true.
Proof.
  intros H. apply List.find_some in H as [H1 H2].
  split; [by apply list_elem_of_In | done].
Qed.

Lemma find_None_elem (l : list A) :
  List.find p l = None ↔ ∀ x, x ∈ l → p x = false.
Proof.
  split.
  - intros H x Hx. apply (List.find_none p l H). by apply list_elem_of_In.
  - induction l as [|a l IH]; [done|]. intros H. simpl.
    rewrite (H a) by left. apply IH. intros x Hx. apply H. by right.
Qed.

Lemma find_is_Some (l : list A) x :
  x ∈ l → p x = true → is_Some (List.find p l).
Proof.
  intros Hx Hp. destruct (List.find p l) eqn:E; [by eexists|].
  rewrite (proj1 (find_None_elem l) E x Hx) in Hp. done.
Qed.

Lemma find_app_Some (l l' : list A) x :
  List.find p l = Some x → List.find p (l ++ l') = Some x.
Proof.
  induction l as [|a l IH]; [done|]. simpl. by destruct (p a).
Qed.

Lemma find_app_None (l l' : list A) :
  List.find p l = None → List.find p (l ++ l') = List.find p l'.
Proof.
  induction l as [|a l IH]; [done|]. simpl. by destruct (p a).
Qed.

Lemma elem_of_filter_bool (l : list A) x :
  x ∈ List.filter p l ↔ x ∈ l ∧ p x = true.
Proof. rewrite !list_elem_of_In. apply List.filter_In. Qed.

Lemma filter_bool_nil (l : list A) :
  List.find p l = None → List.filter p l = [].
Proof.
  induction l as [|a l IH]; [done|]. simpl. destruct (p a); [done|]. exact IH.
Qed.

Lemma filter_bool_sublist (l : list A) : List.filter p l `sublist_of` l.
Proof.
  induction l as [|a l IH]; [done|]. simpl.
  destruct (p a); by constructor.
Qed.
End find_filter.

Lemma includes_true `{EqDecision A} (l : list A) x :
  Js.includes l x = true ↔ x ∈ l.
Proof. unfold Js.includes. apply bool_decide_eq_true. Qed.

Lemma includes_false `{EqDecision A} (l : list A) x :
  Js.includes l x = false ↔ x ∉ l.
Proof. unfold Js.includes. apply bool_decide_eq_false. Qed.

(** ** [[...new Set(l)]] *)

Section spreadSet.
Context `{EqDecision A}.
Implicit Types l seen : list A.

Lemma elem_of_spreadSetFrom seen l x :
  x ∈ Js.spreadSetFrom seen l ↔ x ∈ l ∧ x ∉ seen.
Proof.
  revert seen. induction l as [|a l IH]; intros seen; simpl.
  - split; [by intros ?%elem_of_nil | by intros [?%elem_of_nil _]].
  - destruct (Js.includes seen a) eqn:E.
    + apply includes_true in E. rewrite IH, elem_of_cons.
      split; [tauto|]. intros [[->|?] ?]; done.
    + apply includes_false in E. rewrite !elem_of_cons, IH, elem_of_cons.
      split; [intros [->|[? ?]]; tauto|].
      intros [[->|?] ?]; [by left|].
      destruct (decide (x = a)) as [->|]; [by left | right; tauto].
Qed.

Lemma NoDup_spreadSetFrom seen l : NoDup (Js.spreadSetFrom seen l).
Proof.
  revert seen. induction l as [|a l IH]; intros seen; simpl.
  - constructor.
  - destruct (Js.includes seen a); [apply IH|].
    constructor; [|apply IH].
    rewrite elem_of_spreadSetFrom, elem_of_cons. tauto.
Qed.

Lemma length_spreadSetFrom seen l :
  length (Js.spreadSetFrom seen l) ≤ length l.
Proof.
  revert seen. induction l as [|a l IH]; intros seen; simpl; [lia|].
  destruct (Js.includes seen a); simpl.
  - specialize (IH seen). lia.
  - specialize (IH (a :: seen)). lia.
Qed.

Lemma elem_of_spreadSet l x : x ∈ Js.spreadSet l ↔ x ∈ l.
Proof.
  unfold Js.spreadSet. rewrite elem_of_spreadSetFrom.
  split; [tauto|]. intros ?. split; [done|]. apply not_elem_of_nil.
Qed.

Lemma NoDup_spreadSet l : NoDup (Js.spreadSet l).
Proof. apply NoDup_spreadSetFrom. Qed.

Lemma length_spreadSet l : length (Js.spreadSet l) ≤ length l.
Proof. apply length_spreadSetFrom. Qed.

(** A duplicate-free prefix is kept whole. *)
Lemma length_spreadSet_app l k :
  NoDup l → length l ≤ length (Js.spreadSet (l ++ k)).
Proof.
  intros Hl. apply submseteq_length, NoDup_submseteq; [done|].
  intros x Hx. apply elem_of_spreadSet, elem_of_app. by left.
Qed.

Lemma spreadSet_pair (a b : A) : a ≠ b → Js.spreadSet [a; b] = [a; b].
Proof.
  intros Hab. unfold Js.spreadSet. simpl.
  assert (Js.includes [a] b = false) as ->; [|done].
  apply includes_false. by intros ->%list_elem_of_singleton.
Qed.
End spreadSet.

(** ** [String.prototype.trim] *)

Lemma trimStart_idemp s : Js.trimStart (Js.trimStart s) = Js.trimStart s.
Proof.
  induction s as [|c s IH]; [done|]. simpl.
  destruct (Js.isWhiteSpace c) eqn:E; [done|]. simpl. by rewrite E.
Qed.

Lemma trimStart_snoc s c :
  Js.isWhiteSpace c = false → Js.trimStart (s ++ [c]) = Js.trimStart s ++ [c].
Proof.
  intros Hc. induction s as [|a s IH]; simpl.
  - by rewrite Hc.
  - by destruct (Js.isWhiteSpace a).
Qed.

Lemma trimStart_trimEnd s :
  Js.trimStart s = s → Js.trimStart (Js.trimEnd s) = Js.trimEnd s.
Proof.
  destruct s as [|c s]; [done|]. simpl.
  destruct (Js.isWhiteSpace c) eqn:E.
  - intros H. exfalso.
    assert (length (Js.trimStart s) ≤ length s) as Hlen.
    { clear. induction s as [|a s IH]; simpl; [lia|].
      destruct (Js.isWhiteSpace a); simpl; lia. }
    rewrite H in Hlen. simpl in Hlen. lia.
  - intros _. unfold Js.trimEnd. simpl.
    rewrite trimStart_snoc, rev_app_distr by done. simpl. by rewrite E.
Qed.

Lemma trimEnd_idemp s : Js.trimEnd (Js.trimEnd s) = Js.trimEnd s.
Proof. unfold Js.trimEnd. by rewrite rev_involutive, trimStart_idemp. Qed.

Lemma trim_idemp s : Js.trim (Js.trim s) = Js.trim s.
Proof.
  unfold Js.trim.
  rewrite (trimStart_trimEnd (Js.trimStart s)) by apply trimStart_idemp.
  apply trimEnd_idemp.
Qed.

Lemma substring_0 n s : Js.substring 0 n s = take n s.
Proof. unfold Js.substring. simpl. by rewrite Nat.sub_0_r. Qed.

(** ** Looking conversations up *)

Lemma NoDup_fmap_eq {A B} (f : A → B) (l : list A) x y :
  NoDup (f <$> l) → x ∈ l → y ∈ l → f x = f y → x = y.
Proof.
  induction l as [|a l IH]; [by intros _ ?%elem_of_nil|].
  rewrite fmap_cons, NoDup_cons, !elem_of_cons.
  intros [Ha Hl] [->|Hx] [->|Hy] Hf; [done| | |by apply IH].
  - destruct Ha. rewrite Hf. by apply list_elem_of_fmap_2.
  - destruct Ha. rewrite <- Hf. by apply list_elem_of_fmap_2.
Qed.

Lemma participates_iff userId cid d :
  participates userId cid d ↔
  ∃ c, c ∈ conversations d ∧ Conversation._id c = cid
       ∧ userId ∈ Conversation.participants c.
Proof. unfold participates. rewrite Exists_exists. naive_solver. Qed.

Lemma findOne_participant_None userId cid d :
  ¬ participates userId cid d →
  Conversation.findOne
    (λ c, (Conversation._id c =? cid)%N && hasParticipant userId c)
    (conversations d) = None.
Proof.
  intros Hn. apply find_None_elem. intros c Hc.
  apply not_true_is_false. intros [Hid Hp]%andb_true_iff.
  apply Hn, participates_iff. exists c.
  apply N.eqb_eq in Hid. apply includes_true in Hp. done.
Qed.

Lemma findOne_participant_Some userId cid d :
  participates userId cid d →
  ∃ c, Conversation.findOne
         (λ c, (Conversation._id c =? cid)%N && hasParticipant userId c)
         (conversations d) = Some c
       ∧ c ∈ conversations d ∧ Conversation._id c = cid
       ∧ userId ∈ Conversation.participants c.
Proof.
  intros (c & Hc & Hid & Hp)%participates_iff.
  destruct (find_is_Some
    (λ c, (Conversation._id c =? cid)%N && hasParticipant userId c)
    (conversations d) c Hc) as [c' Hc'].
  { apply andb_true_iff. split; [by apply N.eqb_eq | by apply includes_true]. }
  exists c'. split; [done|].
  apply find_Some_elem in Hc' as [? [Hid' Hp']%andb_true_iff].
  apply N.eqb_eq in Hid'. apply includes_true in Hp'. done.
Qed.

Lemma findById_unique cid c (coll : list Conversation.t) :
  NoDup (Conversation._id <$> coll) → c ∈ coll → Conversation._id c = cid →
  Conversation.findById cid coll = Some c.
Proof.
  intros Hnd Hc Hid.
  destruct (find_is_Some (λ c, (Conversation._id c =? cid)%N) coll c Hc)
    as [c' Hc']; [by apply N.eqb_eq|].
  unfold Conversation.findById, Conversation.findOne. rewrite Hc'. f_equal.
  apply find_Some_elem in Hc' as [Hin Hid']. apply N.eqb_eq in Hid'.
  apply (NoDup_fmap_eq Conversation._id coll); congruence.
Qed.

Lemma save_ids doc (coll : list Conversation.t) :
  Conversation._id <$> Conversation.updateOne doc coll = Conversation._id <$> coll.
Proof.
  unfold Conversation.updateOne. rewrite <- list_fmap_compose.
  apply list_fmap_ext. intros _ c _. simpl.
  destruct (N.eqb_spec (Conversation._id c) (Conversation._id doc)); done.
Qed.

Lemma findById_save doc (coll : list Conversation.t) :
  Conversation._id doc ∈ Conversation._id <$> coll →
  Conversation.findById (Conversation._id doc) (Conversation.updateOne doc coll)
  = Some doc.
Proof.
  unfold Conversation.findById, Conversation.findOne, Conversation.updateOne.
  induction coll as [|c coll IH]; [by intros ?%elem_of_nil|].
  rewrite !fmap_cons, elem_of_cons. simpl. intros H.
  destruct (N.eqb_spec (Conversation._id c) (Conversation._id doc)) as [E|E].
  - by rewrite N.eqb_refl.
  - apply N.eqb_neq in E as E'. rewrite E'. apply IH.
    destruct H as [H|H]; [congruence | done].
Qed.

Lemma elem_of_save doc (coll : list Conversation.t) c :
  c ∈ Conversation.updateOne doc coll →
  c ∈ coll ∨ (c = doc ∧ Conversation._id doc ∈ Conversation._id <$> coll).
Proof.
  unfold Conversation.updateOne. intros (c0 & -> & Hc0)%list_elem_of_fmap_1.
  destruct (N.eqb_spec (Conversation._id c0) (Conversation._id doc)) as [E|E].
  - right. split; [done|]. rewrite <- E. by apply list_elem_of_fmap_2.
  - by left.
Qed.

(** ** Delivery *)

Lemma elem_of_joined g r sid :
  sid ∈ joined g r ↔ ∃ k, sockets g !! sid = Some k ∧ r ∈ rooms k.
Proof.
  unfold joined. rewrite elem_of_dom. unfold is_Some.
  setoid_rewrite map_lookup_filter_Some. simpl. naive_solver.
Qed.

Lemma save_inr doc (coll : list Conversation.t) :
  Conversation.validate doc = None →
  Conversation.save doc coll = inr (Conversation.updateOne doc coll).
Proof. unfold Conversation.save. by intros ->. Qed.

Lemma save_inl doc e (coll : list Conversation.t) :
  Conversation.validate doc = Some e → Conversation.save doc coll = inl e.
Proof. unfold Conversation.save. by intros ->. Qed.

Lemma save_inv doc (coll convs : list Conversation.t) :
  Conversation.save doc coll = inr convs →
  Conversation.validate doc = None ∧ convs = Conversation.updateOne doc coll.
Proof.
  unfold Conversation.save. destruct (Conversation.validate doc); [done|].
  by intros [= <-].
Qed.

(** The two outcomes of a [save]: refused, which the first tactic given
    handles, or the write of the document. *)
Tactic Notation "save_cases" "by" tactic(tac) :=
  let Es := fresh "Es" in
  destruct (Conversation.save _ _) as [?|?] eqn:Es;
    [tac | apply save_inv in Es as [_ ->]; simpl].

(** A successful [save] is the write of the document. *)
Ltac save_writes :=
  repeat match goal with
         | H : Conversation.save _ _ = inr _ |- _ =>
             apply save_inv in H as [? ->]
         end.

Lemma validate_set_lastMessage lm c :
  Conversation.validate (Conversation.set_lastMessage lm c)
  = Conversation.validate c.
Proof. done. Qed.

Lemma validate_set_participants ps c :
  Conversation.validate (Conversation.set_participants ps c)
  = Conversation.validate c.
Proof. done. Qed.

Lemma castString_valid content :
  valid_content content →
  Message.castString Message.contentSchema "content" (Js.trim content)
  = inr (Js.trim content).
Proof.
  intros [Hne Hlen]. unfold Message.castString. simpl.
  rewrite trim_idemp.
  destruct (Js.trim content) as [|c t] eqn:E; [done|]. simpl.
  destruct (2000 <? S (length t)) eqn:E2; [|done].
  apply Nat.ltb_lt in E2. simpl in Hlen. lia.
Qed.

Lemma castString_invalid content :
  ¬ valid_content content →
  ∃ kind, Message.castString Message.contentSchema "content" (Js.trim content)
          = inl (ValidationError "content" kind).
Proof.
  intros Hn. unfold Message.castString. simpl. rewrite trim_idemp.
  destruct (Js.trim content) as [|c t] eqn:E; [by eexists|]. simpl.
  destruct (2000 <? S (length t)) eqn:E2; [by eexists|].
  apply Nat.ltb_ge in E2. destruct Hn. unfold valid_content.
  rewrite E. simpl. split; [done | lia].
Qed.

(** ** Sending a message *)

Lemma socket_on_lookup sid u now ev s :
  data_userId <$> sockets (io s) !! sid = Some u →
  socket_on sid now ev s =
  match ev with
  | conversation_join c => on_conversation_join sid c s
  | conversation_leave c => on_conversation_leave sid c s
  | message_send c content => on_message_send sid u now c content s
  | typing_start c => on_typing_start sid u c s
  | typing_stop c => on_typing_stop sid u c s
  | messages_read c => on_messages_read u c s
  | disconnect => on_disconnect sid u now s
  end.
Proof.
  unfold socket_on. destruct (sockets (io s) !! sid) as [k|]; [|done].
  simpl. by intros [= ->].
Qed.

(** C1.  A [message:send] by a connected user who is not a participant of
    the conversation (or against an id no conversation has) leaves the
    server exactly as it was, so no Message is created and no lastMessage
    is updated, and emits one event only: the error "Conversation not
    found", to the sender's own socket and to nobody else. *)
Theorem C1_send_by_non_participant_not_found sid u now cid content s :
  data_userId <$> sockets (io s) !! sid = Some u →
  ¬ participates u cid (db s) →
  step now (SocketEvent sid (message_send cid content)) s
  = (s, Emitted [emit (socket_emit sid) (error "Conversation not found")])
  ∧ recipients (io s) (socket_emit sid) = {[sid]}.
Proof.
  intros Hsid Hnot. split; [|done].
  unfold step. rewrite (socket_on_lookup sid u) by done.
  unfold on_message_send, on_message_send_with.
  by rewrite findOne_participant_None.
Qed.

Lemma C1_witness :
  data_userId <$> sockets (io ex_live) !! "sD" = Some 4%N
  ∧ ¬ participates 4 101 (db ex_live)
  ∧ step 50 (SocketEvent "sD" (message_send 101 str_hi)) ex_live
    = (ex_live,
       Emitted [emit (socket_emit "sD") (error "Conversation not found")])
  ∧ recipients (io ex_live) (socket_emit "sD") = {["sD"]}.
Proof.
  assert (data_userId <$> sockets (io ex_live) !! "sD" = Some 4%N) as H1
    by (vm_compute; reflexivity).
  assert (¬ participates 4 101 (db ex_live)) as H2 by compute_done.
  split; [exact H1|]. split; [exact H2|].
  exact (C1_send_by_non_participant_not_found "sD" 4%N 50 101 str_hi
           ex_live H1 H2).
Defined.

(** C2, as stated, fails, because the code counts UTF-16 code units where
    the claim counts characters.  Alice, a participant of conversation
    101, sends 1999 letters followed by the character U+1F600: content of
    2000 characters.  The schema counts the 2001 code units of it,
    [Message.create] refuses the write, and the handler answers the sender
    alone with "Failed to send message": no Message is appended and
    nothing is broadcast.  And when she sends 99 letters, U+1F600 and one
    more letter, content valid however it is counted, the cut after 100
    code units falls inside the character: what lastMessage holds
    afterwards, 99 letters and U+FFFD, is not the beginning of the content
    she sent. *)
Lemma C2_counterexample :
  data_userId <$> sockets (io ex_live) !! "sA" = Some 1%N
  ∧ participates 1 101 (db ex_live)
  ∧ (Js.trim str_long ≠ []
     ∧ characters (Js.trim str_long) = 2000
     ∧ step 50 (SocketEvent "sA" (message_send 101 str_long)) ex_live
       = (ex_live,
          Emitted [emit (socket_emit "sA") (error "Failed to send message")]))
  ∧ (valid_content str_cut
     ∧ characters (Js.trim str_cut) = 101
     ∧ (Conversation.lastMessage
          <$> Conversation.findById 101
                (conversations
                   (db (step 50 (SocketEvent "sA" (message_send 101 str_cut))
                          ex_live).1)))
       = Some (Some (Conversation.mkLast (replicate 99 97%N ++ [65533%N])
                       1 50))
     ∧ ¬ (replicate 99 97%N ++ [65533%N]) `prefix_of` Js.trim str_cut).
Proof.
  split; [by vm_compute|]. split; [compute_done|]. split.
  - split; [by vm_compute|]. split; by vm_compute.
  - split; [split; [by vm_compute | vm_compute; lia]|].
    split; [by vm_compute|]. split; [by vm_compute|].
    intros [k Hk]. apply (f_equal (λ l, l !! 99)) in Hk.
    by vm_compute in Hk.
Qed.

(** C2, amended.  A [message:send] by a connected participant of a
    conversation whose stored document passes its schema, with content
    that is valid as the schema counts (after trimming, not empty and at
    most 2000 code units), appends exactly one Message, which holds the
    trimmed content as the driver stores it and whose readBy is the sender
    alone; sets the conversation's lastMessage to the first 100 code units
    of the trimmed content as the driver stores them, the sender and the
    current time, leaving every other field and every other conversation
    as it was; and emits one event, the populated message, to the
    conversation's room, which reaches exactly the sockets joined to that
    room, the sender's own socket among them when it is joined. *)
Theorem C2_valid_send_appends_and_broadcasts sid u now cid content s :
  data_userId <$> sockets (io s) !! sid = Some u →
  wf (db s) →
  participates u cid (db s) →
  passes_schema cid (db s) →
  valid_content content →
  ∃ c,
    Conversation.findById cid (conversations (db s)) = Some c ∧
    let m := Message.mk (oid (db s)) cid u (Bson.asStored (Js.trim content))
               [u] now in
    let c' := Conversation.mk cid (Conversation.type c)
                (Conversation.participants c) (Conversation.name c)
                (Conversation.admin c)
                (Some (Conversation.mkLast
                         (Bson.asStored (take 100 (Js.trim content)))
                         u now)) in
    let d' := (step now (SocketEvent sid (message_send cid content)) s).1 in
    step now (SocketEvent sid (message_send cid content)) s
    = (d',
       Emitted [emit (io_to (ConversationRoom cid))
                     (message_receive (Some (populate_sender (db d') m)) cid)])
    ∧ io d' = io s
    ∧ users (db d') = users (db s)
    ∧ friendships (db d') = friendships (db s)
    ∧ oid (db d') = (oid (db s) + 1)%N
    ∧ messages (db d') = messages (db s) ++ [m]
    ∧ Conversation.findById cid (conversations (db d')) = Some c'
    ∧ length (conversations (db d')) = length (conversations (db s))
    ∧ (∀ c0, Conversation._id c0 ≠ cid →
             (c0 ∈ conversations (db d') ↔ c0 ∈ conversations (db s)))
    ∧ (∀ sid', sid' ∈ recipients (io s) (io_to (ConversationRoom cid)) ↔
               ∃ k, sockets (io s) !! sid' = Some k
                    ∧ ConversationRoom cid ∈ rooms k)
    ∧ ((∃ k, sockets (io s) !! sid = Some k ∧ ConversationRoom cid ∈ rooms k) →
       sid ∈ recipients (io s) (io_to (ConversationRoom cid))).
Proof.
  intros Hsid Hwf Hpart Hschema Hvalid.
  destruct (findOne_participant_Some u cid (db s) Hpart)
    as (c & Hfind & Hc & Hid & Hu).
  exists c. split; [by apply findById_unique; [apply Hwf|..]|].
  intros m c'.
  set (lm := Conversation.mkLast
               (Bson.asStored (take 100 (Js.trim content))) u now).
  assert (Conversation.set_lastMessage lm c = c') as Hc'.
  { unfold c', lm, Conversation.set_lastMessage. by rewrite Hid. }
  assert (Conversation._id c' = cid) as Hid' by done.
  assert (Message.findById (oid (db s)) (messages (db s) ++ [m]) = Some m)
    as Hm.
  { unfold Message.findById. rewrite find_app_None.
    - simpl. by rewrite N.eqb_refl.
    - apply find_None_elem. intros m0 Hm0. apply N.eqb_neq.
      pose proof (wf_message_old _ Hwf) as Hold.
      rewrite Forall_forall in Hold. specialize (Hold m0 Hm0). lia. }
  assert (step now (SocketEvent sid (message_send cid content)) s
          = (with_db
               {| users := users (db s);
                  conversations :=
                    Conversation.updateOne c' (conversations (db s));
                  messages := messages (db s) ++ [m];
                  friendships := friendships (db s);
                  oid := (oid (db s) + 1)%N |} s,
             Emitted
               [emit (io_to (ConversationRoom cid))
                     (message_receive
                        (Some (populate_sender
                                 {| users := users (db s);
                                    conversations :=
                                      Conversation.updateOne c'
                                        (conversations (db s));
                                    messages := messages (db s) ++ [m];
                                    friendships := friendships (db s);
                                    oid := (oid (db s) + 1)%N |} m)) cid)]))
    as Hstep.
  { unfold step. rewrite (socket_on_lookup sid u) by done.
    unfold on_message_send, on_message_send_with. rewrite Hfind.
    unfold Message.createWith. rewrite castString_valid by done.
    cbn [Message._id messages conversations set_conversations set_messages
         next_oid].
    rewrite substring_0. fold lm. rewrite Hc'.
    rewrite save_inr
      by (rewrite <- Hc', validate_set_lastMessage; by apply Hschema).
    cbn [Message._id messages conversations set_conversations set_messages
         next_oid].
    fold m. rewrite Hm. reflexivity. }
  intros d'. subst d'. rewrite Hstep.
  cbn [fst db io with_db users friendships oid messages conversations].
  split; [done|]. split; [done|]. split; [done|]. split; [done|].
  split; [done|]. split; [done|].
  split.
  { rewrite <- Hid'. apply findById_save.
    rewrite Hid', <- Hid. by apply list_elem_of_fmap_2. }
  split; [unfold Conversation.updateOne; by rewrite length_fmap|].
  split.
  { intros c0 Hne. split.
    - intros [?|[-> _]]%elem_of_save; [done | by destruct Hne].
    - intros Hc0. unfold Conversation.updateOne.
      apply list_elem_of_fmap. exists c0. split; [|done].
      rewrite Hid'. apply N.eqb_neq in Hne. by rewrite Hne. }
  split.
  - intros sid'. apply elem_of_joined.
  - intros H. by apply elem_of_joined.
Qed.

Lemma C2_witness :
  data_userId <$> sockets (io ex_live) !! "sA" = Some 1%N
  ∧ wf (db ex_live)
  ∧ participates 1 101 (db ex_live)
  ∧ passes_schema 101 (db ex_live)
  ∧ valid_content str_cut
  ∧ messages (db (step 50 (SocketEvent "sA" (message_send 101 str_cut))
                    ex_live).1)
    = messages (db ex_live) ++ [Message.mk 200 101 1 str_cut [1%N] 50]
  ∧ Conversation.findById 101
      (conversations
         (db (step 50 (SocketEvent "sA" (message_send 101 str_cut))
                ex_live).1))
    = Some (Conversation.mk 101 Conversation.group [1; 2; 3]%N
              (Some str_Trip) (Some 1%N)
              (Some (Conversation.mkLast (replicate 99 97%N ++ [65533%N])
                       1 50))).
Proof.
  assert (data_userId <$> sockets (io ex_live) !! "sA" = Some 1%N) as H1
    by (vm_compute; reflexivity).
  assert (wf (db ex_live)) as H2 by (split; compute_done).
  assert (participates 1 101 (db ex_live)) as H3 by compute_done.
  assert (passes_schema 101 (db ex_live)) as H4.
  { intros c Hc _. revert c Hc. apply Forall_forall.
    repeat constructor. }
  assert (valid_content str_cut) as H5
    by (split; [by vm_compute | vm_compute; lia]).
  repeat (split; [assumption|]).
  destruct (C2_valid_send_appends_and_broadcasts "sA" 1%N 50 101
              str_cut ex_live H1 H2 H3 H4 H5)
    as (c & Hc & _ & _ & _ & _ & _ & Hm & Hlast & _).
  split; [rewrite Hm; reflexivity|].
  rewrite Hlast. vm_compute in Hc. injection Hc as <-. reflexivity.
Defined.

(** ** Invalid content *)

(** C3, as stated, fails.  Alice, a participant of conversation 101,
    sends the empty string.  The handler has no check of its own: over a
    schema that rejects nothing it appends the empty Message; over the
    repository's schema the write is refused inside [Message.create] and
    surfaces through the handler's [catch] as the generic "Failed to send
    message", not as an invalid-input error of the Gateway. *)
Lemma C3_counterexample :
  participates 1 101 (db ex_live)
  ∧ Js.trim [] = []
  ∧ messages (db (on_message_send_with laxSchema "sA" 1 50 101 [] ex_live).1)
    = messages (db ex_live) ++ [Message.mk 200 101 1 [] [1%N] 50]
  ∧ Message.create 200 50 101 1 (Js.trim []) [1%N] (messages (db ex_live))
    = inl (ValidationError "content" "required")
  ∧ (on_message_send "sA" 1 50 101 [] ex_live).2
    = [emit (socket_emit "sA") (error "Failed to send message")].
Proof.
  split; [compute_done|]. split; [done|].
  split; [by vm_compute|]. split; by vm_compute.
Qed.

Lemma gateway_relies_on_schema : ¬ gateway_enforces_content_bound.
Proof.
  intros H.
  specialize (H laxSchema "sA" 1%N 50%Z 101%N [] ex_live).
  assert (messages (db (on_message_send_with laxSchema "sA" 1 50 101 []
                          ex_live).1) = messages (db ex_live)) as Hm.
  { rewrite H; [done | compute_done |]. by intros [Hne _]. }
  vm_compute in Hm. discriminate Hm.
Qed.

(** C3, amended.  A [message:send] by a connected participant whose
    content, after trimming, is empty or longer than 2000 code units is
    refused by the schema validation inside [Message.create], before
    anything is written; the handler reports it through its [catch], as
    the error "Failed to send message" on the sender's own socket only,
    and the server is left exactly as it was. *)
Theorem C3_invalid_content_refused_by_schema sid u now cid content s :
  data_userId <$> sockets (io s) !! sid = Some u →
  participates u cid (db s) →
  Js.trim content = [] ∨ 2000 < length (Js.trim content) →
  (∃ kind,
     Message.create (oid (db s)) now cid u (Js.trim content) [u]
       (messages (db s))
     = inl (ValidationError "content" kind))
  ∧ step now (SocketEvent sid (message_send cid content)) s
    = (s, Emitted [emit (socket_emit sid) (error "Failed to send message")])
  ∧ recipients (io s) (socket_emit sid) = {[sid]}.
Proof.
  intros Hsid Hpart Hbad.
  assert (¬ valid_content content) as Hinv.
  { intros [Hne Hlen]. destruct Hbad; [done | lia]. }
  destruct (castString_invalid content Hinv) as [kind Hcast].
  destruct (findOne_participant_Some u cid (db s) Hpart) as (c & Hfind & _).
  split; [|split; [|done]].
  - exists kind. unfold Message.create, Message.createWith. by rewrite Hcast.
  - unfold step. rewrite (socket_on_lookup sid u) by done.
    unfold on_message_send, on_message_send_with. rewrite Hfind.
    unfold Message.createWith. by rewrite Hcast.
Qed.

Lemma C3_witness :
  data_userId <$> sockets (io ex_live) !! "sA" = Some 1%N
  ∧ participates 1 101 (db ex_live)
  ∧ 2000 < length (Js.trim (replicate 2001 97%N))
  ∧ step 50 (SocketEvent "sA" (message_send 101 (replicate 2001 97%N)))
      ex_live
    = (ex_live,
       Emitted [emit (socket_emit "sA") (error "Failed to send message")]).
Proof.
  assert (data_userId <$> sockets (io ex_live) !! "sA" = Some 1%N) as H1
    by (vm_compute; reflexivity).
  assert (participates 1 101 (db ex_live)) as H2 by compute_done.
  assert (2000 < length (Js.trim (replicate 2001 97%N))) as H3
    by (vm_compute; lia).
  repeat (split; [assumption|]).
  exact (proj1 (proj2 (C3_invalid_content_refused_by_schema "sA" 1%N 50 101
                         (replicate 2001 97%N) ex_live H1 H2
                         (or_intror H3)))).
Defined.

(** ** How the store evolves *)

Lemma evolves_refl d : evolves d d.
Proof.
  split; [lia | done | |].
  - intros c Hc. left. by exists c.
  - intros m Hm. left. by exists m.
Qed.

Lemma evolves_trans d1 d2 d3 : evolves d1 d2 → evolves d2 d3 → evolves d1 d3.
Proof.
  intros [Ho1 Hu1 Hc1 Hm1] [Ho2 Hu2 Hc2 Hm2]. split.
  - lia.
  - congruence.
  - intros c3 Hc3. destruct (Hc2 c3 Hc3) as [(c2 & Hin2 & Hid2)|?]; [|right; lia].
    destruct (Hc1 c2 Hin2) as [(c1 & Hin1 & Hid1)|?]; [|right; lia].
    left. exists c1. split; [done | congruence].
  - intros m3 Hin3.
    destruct (Hm2 m3 Hin3) as [(m2 & Hin2 & E2 & ?&?&?&?& Hr2)|?]; [|right; lia].
    destruct (Hm1 m2 Hin2) as [(m1 & Hin1 & E1 & ?&?&?&?& Hr1)|?]; [|right; lia].
    left. exists m1. repeat split; try congruence.
    intros x Hx. by apply Hr2, Hr1.
Qed.

Lemma findByIdAndUpdate_ids id f (us : list User.t) :
  (∀ u, User._id (f u) = User._id u) →
  User._id <$> User.findByIdAndUpdate id f us = User._id <$> us.
Proof.
  intros Hf. induction us as [|u us IH]; [done|]. simpl.
  destruct (User._id u =? id)%N; rewrite !fmap_cons; [by rewrite Hf|].
  by rewrite IH.
Qed.

Lemma evolves_set_users d us :
  User._id <$> us = User._id <$> users d → evolves d (set_users us d).
Proof.
  intros Hus. split; simpl; [lia | done | |].
  - intros c Hc. left. by exists c.
  - intros m Hm. left. by exists m.
Qed.

Lemma elem_of_updateMany_read cid u (ms : list Message.t) m' :
  m' ∈ Message.updateMany (Message.unreadBy cid u)
         (Message.addToSet_readBy u) ms →
  ∃ m, m ∈ ms ∧ Message._id m = Message._id m'
       ∧ Message.conversation m = Message.conversation m'
       ∧ Message.sender m = Message.sender m'
       ∧ Message.content m = Message.content m'
       ∧ Message.createdAt m = Message.createdAt m'
       ∧ Message.readBy m ⊆ Message.readBy m'.
Proof.
  unfold Message.updateMany. intros (m & -> & Hm)%list_elem_of_fmap_1.
  exists m. destruct (Message.unreadBy cid u m); [|done].
  repeat split; try done. simpl.
  destruct (Js.includes (Message.readBy m) u); [done|].
  intros x Hx. apply elem_of_app. by left.
Qed.

Lemma evolves_mark_read cid u d :
  evolves d (set_messages
               (Message.updateMany (Message.unreadBy cid u)
                  (Message.addToSet_readBy u) (messages d)) d).
Proof.
  split; simpl; [lia | done | |].
  - intros c Hc. left. by exists c.
  - intros m' Hm'. left. by apply (elem_of_updateMany_read cid u).
Qed.

Lemma elem_of_findByIdAndDelete id (coll : list Conversation.t) c :
  c ∈ Conversation.findByIdAndDelete id coll → c ∈ coll.
Proof.
  induction coll as [|a coll IH]; [done|]. simpl.
  destruct (Conversation._id a =? id)%N.
  - by right.
  - rewrite !elem_of_cons. intros [->|?]; [by left | right; by apply IH].
Qed.

Lemma elem_of_findOneAndUpdate flt upd (coll : list Conversation.t) c' :
  (∀ c, Conversation._id (upd c) = Conversation._id c) →
  c' ∈ (Conversation.findOneAndUpdate flt upd coll).1 →
  ∃ c, c ∈ coll ∧ Conversation._id c = Conversation._id c'.
Proof.
  intros Hupd. induction coll as [|a coll IH]; [by intros ?%elem_of_nil|].
  simpl. destruct (flt a).
  - simpl. rewrite elem_of_cons. intros [->|H].
    + exists a. split; [by left | by rewrite Hupd].
    + exists c'. split; [by right | done].
  - destruct (Conversation.findOneAndUpdate flt upd coll) as [rest r].
    simpl in *. rewrite elem_of_cons. intros [->|H].
    + exists a. split; [by left | done].
    + destruct (IH H) as (c & ? & ?). exists c. split; [by right | done].
Qed.

Lemma evolves_save d doc :
  evolves d (set_conversations (Conversation.updateOne doc (conversations d)) d).
Proof.
  split; simpl; [lia | done | |].
  - intros c' Hc'. left.
    assert (Conversation._id c' ∈ Conversation._id <$> conversations d) as H.
    { rewrite <- (save_ids doc). by apply list_elem_of_fmap_2. }
    apply list_elem_of_fmap_1 in H as (c & ? & ?). by exists c.
  - intros m Hm. left. by exists m.
Qed.

Lemma evolves_append_message d m :
  Message._id m = oid d →
  evolves d (next_oid (set_messages (messages d ++ [m]) d)).
Proof.
  intros Hid. split; simpl; [lia | done | |].
  - intros c Hc. left. by exists c.
  - intros m' [Hm'| ->%list_elem_of_singleton]%elem_of_app.
    + left. by exists m'.
    + right. lia.
Qed.

Lemma evolves_append_conversation d c :
  Conversation._id c = oid d →
  evolves d (next_oid (set_conversations (conversations d ++ [c]) d)).
Proof.
  intros Hid. split; simpl; [lia | done | |].
  - intros c' [Hc'| ->%list_elem_of_singleton]%elem_of_app.
    + left. by exists c'.
    + right. lia.
  - intros m Hm. left. by exists m.
Qed.

Lemma evolves_remove d cid :
  evolves d
    (set_conversations
       (Conversation.findByIdAndDelete cid (conversations d))
       (set_messages
          (Message.deleteMany (λ m, (Message.conversation m =? cid)%N)
             (messages d)) d)).
Proof.
  split; simpl; [lia | done | |].
  - intros c Hc%elem_of_findByIdAndDelete. left. by exists c.
  - intros m [Hm _]%elem_of_filter_bool. left. by exists m.
Qed.

Lemma createWith_inr schema o now cid u text rb ms ms' m :
  Message.createWith schema o now cid u text rb ms = inr (ms', m) →
  ms' = ms ++ [m] ∧ Message._id m = o ∧ Message.readBy m = rb
  ∧ Message.sender m = u ∧ Message.conversation m = cid.
Proof.
  unfold Message.createWith.
  destruct (Message.castString schema "content" text); [done|].
  by intros [= <- <-].
Qed.

Lemma create_inr o ty ps nm adm coll coll' c :
  Conversation.create o ty ps nm adm coll = inr (coll', c) →
  coll' = coll ++ [c] ∧ Conversation._id c = o ∧ Conversation.type c = ty
  ∧ Conversation.participants c = ps.
Proof.
  unfold Conversation.create.
  destruct (Conversation.validate _); [done|]. by intros [= <- <-].
Qed.

Lemma send_evolves schema o now cid u content conversation d ms m :
  Message.createWith schema (oid d) now cid u (Js.trim content) [u]
    (messages d) = inr (ms, m) →
  evolves d
    (set_conversations
       (Conversation.updateOne
          (Conversation.set_lastMessage o conversation)
          (conversations (next_oid (set_messages ms d))))
       (next_oid (set_messages ms d))).
Proof.
  intros (-> & Hid & _)%createWith_inr.
  eapply evolves_trans; [by apply evolves_append_message|].
  apply evolves_save.
Qed.

Lemma on_message_send_with_evolves schema sid u now cid content s :
  evolves (db s) (db (on_message_send_with schema sid u now cid content s).1).
Proof.
  unfold on_message_send_with.
  destruct (Conversation.findOne _ _) as [c|]; [|apply evolves_refl].
  destruct (Message.createWith _ _ _ _ _ _ _ _) as [e|[ms m]] eqn:E;
    [apply evolves_refl|].
  simpl. destruct (Conversation.save _ _) as [e'|convs] eqn:Es.
  - apply createWith_inr in E as (-> & Hid & _).
    by apply evolves_append_message.
  - apply save_inv in Es as [_ ->]. by eapply send_evolves.
Qed.

Lemma socket_on_evolves sid now ev s :
  evolves (db s) (db (socket_on sid now ev s).1).
Proof.
  unfold socket_on. destruct (sockets (io s) !! sid) as [k|];
    [|apply evolves_refl].
  destruct ev; simpl; try apply evolves_refl.
  - apply on_message_send_with_evolves.
  - apply evolves_mark_read.
  - apply evolves_set_users. by apply findByIdAndUpdate_ids.
Qed.

Lemma connect_evolves sid token s : evolves (db s) (db (connect sid token s).1).
Proof.
  destruct token as [u|]; simpl; [|apply evolves_refl].
  apply evolves_set_users. by apply findByIdAndUpdate_ids.
Qed.

Ltac store_cases :=
  repeat case_match; simplify_eq/=; save_writes; try apply evolves_refl.

Lemma conversations_post_evolves u ty ps nm d :
  evolves d (ConversationsRouter.post u ty ps nm d).1.
Proof.
  unfold ConversationsRouter.post. store_cases.
  all: match goal with
       | H : Conversation.create _ _ _ _ _ _ = inr _ |- _ =>
           apply create_inr in H as (-> & ? & _)
       end; by apply evolves_append_conversation.
Qed.

Lemma members_put_evolves u cid action ms d :
  evolves d (ConversationsRouter.put_members u cid action ms d).1.
Proof.
  unfold ConversationsRouter.put_members. store_cases; apply evolves_save.
Qed.

Lemma name_put_evolves u cid nm d :
  evolves d (ConversationsRouter.put_name u cid nm d).1.
Proof.
  unfold ConversationsRouter.put_name. store_cases.
  split; simpl; [lia | done | |].
  - intros c' Hc'. left.
    match goal with
    | H : Conversation.findOneAndUpdate ?f ?g ?l = _ |- _ =>
        apply (elem_of_findOneAndUpdate f g l); [done | by rewrite H]
    end.
  - intros m Hm. left. by exists m.
Qed.

Lemma conversation_delete_evolves u cid d :
  evolves d (ConversationsRouter.delete u cid d).1.
Proof.
  unfold ConversationsRouter.delete. store_cases;
    first [apply evolves_remove | apply evolves_save].
Qed.

Lemma messages_post_evolves u now cid content d :
  evolves d (MessagesRouter.post u now cid content d).1.
Proof.
  unfold MessagesRouter.post, Message.create. store_cases.
  - match goal with
    | H : Message.createWith _ _ _ _ _ _ _ _ = inr _ |- _ =>
        apply createWith_inr in H as (-> & ? & _)
    end.
    by apply evolves_append_message.
  - by eapply send_evolves.
Qed.

Lemma read_put_evolves u cid d : evolves d (MessagesRouter.put_read u cid d).1.
Proof.
  unfold MessagesRouter.put_read. store_cases. apply evolves_mark_read.
Qed.

Lemma rest_evolves u now call d : evolves d (rest u now call d).1.
Proof.
  destruct call; simpl; try apply evolves_refl.
  - apply conversations_post_evolves.
  - apply members_put_evolves.
  - apply name_put_evolves.
  - apply conversation_delete_evolves.
  - apply messages_post_evolves.
  - apply read_put_evolves.
Qed.

Lemma step_evolves now r s : evolves (db s) (db (step now r s).1).
Proof.
  destruct r as [sid token|sid ev|u call]; simpl.
  - pose proof (connect_evolves sid token s).
    by destruct (connect sid token s).
  - pose proof (socket_on_evolves sid now ev s).
    by destruct (socket_on sid now ev s).
  - pose proof (rest_evolves u now call (db s)).
    by destruct (rest u now call (db s)).
Qed.

Lemma run_evolves trace s : evolves (db s) (db (run trace s)).
Proof.
  revert s. induction trace as [|[now r] trace IH]; intros s; simpl.
  - apply evolves_refl.
  - eapply evolves_trans; [apply step_evolves | apply IH].
Qed.

(** ** Read receipts *)

Lemma updateMany_read_idemp cid u (ms : list Message.t) :
  Message.updateMany (Message.unreadBy cid u) (Message.addToSet_readBy u)
    (Message.updateMany (Message.unreadBy cid u) (Message.addToSet_readBy u)
       ms)
  = Message.updateMany (Message.unreadBy cid u) (Message.addToSet_readBy u)
      ms.
Proof.
  unfold Message.updateMany. rewrite <- list_fmap_compose.
  apply list_fmap_ext. intros _ m _. simpl.
  destruct (Message.unreadBy cid u m) eqn:E; [|by rewrite E].
  unfold Message.unreadBy in *. simpl.
  apply andb_true_iff in E as [-> Hn]. apply negb_true_iff in Hn.
  rewrite Hn. simpl.
  assert (Js.includes (Message.readBy m ++ [u]) u = true) as ->; [|done].
  apply includes_true, elem_of_app. right. by left.
Qed.

Lemma read_marks_all cid u (ms : list Message.t) m :
  m ∈ Message.updateMany (Message.unreadBy cid u)
        (Message.addToSet_readBy u) ms →
  Message.conversation m = cid → u ∈ Message.readBy m.
Proof.
  unfold Message.updateMany. intros (m0 & -> & _)%list_elem_of_fmap_1.
  unfold Message.unreadBy.
  destruct (Js.includes (Message.readBy m0) u) eqn:E.
  - rewrite andb_false_r. intros _. by apply includes_true.
  - destruct (N.eqb_spec (Message.conversation m0) cid); simpl.
    + rewrite E. intros _. apply elem_of_app. right. by left.
    + done.
Qed.

(** C4.  Marking a conversation as read a second time, over the socket or
    over REST, leaves the server as the first time left it; and along any
    sequence of requests whatever, a message that is still stored has every
    reader it had before. *)
Theorem C4_read_receipts_idempotent_and_additive :
  (∀ now now' sid cid s,
     (step now' (SocketEvent sid (messages_read cid))
        (step now (SocketEvent sid (messages_read cid)) s).1).1
     = (step now (SocketEvent sid (messages_read cid)) s).1)
  ∧ (∀ now now' u cid s,
       (step now' (Rest u (PUT_read cid))
          (step now (Rest u (PUT_read cid)) s).1).1
       = (step now (Rest u (PUT_read cid)) s).1)
  ∧ (∀ trace s m m',
       wf (db s) →
       m ∈ messages (db s) → m' ∈ messages (db (run trace s)) →
       Message._id m = Message._id m' →
       Message.readBy m ⊆ Message.readBy m').
Proof.
  split; [|split].
  - intros now now' sid cid s. simpl. unfold socket_on.
    destruct (sockets (io s) !! sid) as [k|] eqn:E; simpl; rewrite E; [|done].
    simpl. unfold on_messages_read, with_db, set_messages. simpl.
    by rewrite updateMany_read_idemp.
  - intros now now' u cid s. simpl. unfold MessagesRouter.put_read.
    destruct (Conversation.findOne _ (conversations (db s))) as [c|] eqn:E;
      simpl; rewrite E; [|done].
    simpl. unfold with_db, set_messages. simpl.
    by rewrite updateMany_read_idemp.
  - intros trace s m m' Hwf Hm Hm' Hid.
    destruct (ev_messages _ _ (run_evolves trace s) m' Hm')
      as [(m0 & Hm0 & Hid0 & _ & _ & _ & _ & Hsub)|Hnew].
    + assert (m0 = m) as ->; [|done].
      apply (NoDup_fmap_eq Message._id (messages (db s)));
        [apply Hwf | done | done | congruence].
    + pose proof (wf_message_old _ Hwf) as Hold.
      rewrite Forall_forall in Hold. specialize (Hold m Hm). lia.
Qed.

Lemma C4_witness :
  wf (db ex_live)
  ∧ Message.mk 150 101 2 str_hi [2%N] 10 ∈ messages (db ex_live)
  ∧ Message.mk 150 101 2 str_hi [2; 1]%N 10
    ∈ messages (db (run [(50, SocketEvent "sA" (messages_read 101))]%Z
                      ex_live))
  ∧ [2%N] ⊆ [2; 1]%N.
Proof.
  assert (wf (db ex_live)) as H1 by (split; compute_done).
  assert (Message.mk 150 101 2 str_hi [2%N] 10 ∈ messages (db ex_live))
    as H2 by (vm_compute; left).
  assert (Message.mk 150 101 2 str_hi [2; 1]%N 10
          ∈ messages (db (run [(50, SocketEvent "sA" (messages_read 101))]%Z
                            ex_live))) as H3 by (vm_compute; left).
  repeat (split; [assumption|]).
  exact (proj2 (proj2 C4_read_receipts_idempotent_and_additive)
           [(50, SocketEvent "sA" (messages_read 101))]%Z ex_live
           _ _ H1 H2 H3 eq_refl).
Defined.

(** ** Group membership *)

Lemma findOne_admin u cid c d :
  NoDup (Conversation._id <$> conversations d) →
  administers u cid c d →
  Conversation.findOne
    (λ c, (Conversation._id c =? cid)%N
          && Conversation.ConversationType_eqb
               (Conversation.type c) Conversation.group
          && bool_decide (Conversation.admin c = Some u))
    (conversations d) = Some c.
Proof.
  intros Hnd (Hc & Hid & Hty & Hadm).
  destruct (find_is_Some
    (λ c, (Conversation._id c =? cid)%N
          && Conversation.ConversationType_eqb
               (Conversation.type c) Conversation.group
          && bool_decide (Conversation.admin c = Some u))
    (conversations d) c Hc) as [c' Hc'].
  { rewrite Hty, (bool_decide_eq_true_2 _ Hadm), andb_true_r. simpl.
    rewrite andb_true_r. by apply N.eqb_eq. }
  unfold Conversation.findOne. rewrite Hc'. f_equal.
  apply find_Some_elem in Hc' as [Hin [[Hid' _]%andb_true_iff _]%andb_true_iff].
  apply N.eqb_eq in Hid'.
  apply (NoDup_fmap_eq Conversation._id (conversations d)); congruence.
Qed.

Lemma groups_ok_save doc d :
  groups_ok d → group_ok doc →
  groups_ok (set_conversations (Conversation.updateOne doc (conversations d)) d).
Proof.
  unfold groups_ok. rewrite !Forall_forall. simpl.
  intros Hd Hdoc c [Hc|[-> _]]%elem_of_save; [by apply Hd | done].
Qed.

Lemma group_ok_add c ms :
  group_ok c → Conversation.type c = Conversation.group →
  length (Conversation.participants c) + length ms
    ≤ Conversation.MAX_GROUP_SIZE →
  group_ok (Conversation.set_participants
              (Js.spreadSet (Conversation.participants c ++ ms)) c).
Proof.
  intros Hok Hty Hsize _. destruct (Hok Hty) as [Hnd [Hlo Hhi]]. simpl.
  split; [apply NoDup_spreadSet|]. split.
  - pose proof (length_spreadSet_app (Conversation.participants c) ms Hnd).
    lia.
  - pose proof (length_spreadSet (Conversation.participants c ++ ms)) as H.
    rewrite length_app in H. lia.
Qed.

Lemma group_ok_remove c (keep : ObjectId → bool) :
  group_ok c → Conversation.type c = Conversation.group →
  2 ≤ length (List.filter keep (Conversation.participants c)) →
  group_ok (Conversation.set_participants
              (List.filter keep (Conversation.participants c)) c).
Proof.
  intros Hok Hty Hsize _. destruct (Hok Hty) as [Hnd [Hlo Hhi]]. simpl.
  pose proof (filter_bool_sublist keep (Conversation.participants c)) as Hsub.
  split; [by eapply sublist_NoDup|]. split; [done|].
  apply sublist_length in Hsub. lia.
Qed.

Lemma put_members_ok u cid action memberIds d :
  groups_ok d →
  groups_ok (ConversationsRouter.put_members u cid action memberIds d).1
  ∧ (status (ConversationsRouter.put_members u cid action memberIds d).2 = 200
     ∨ (ConversationsRouter.put_members u cid action memberIds d).1 = d).
Proof.
  intros Hd. unfold ConversationsRouter.put_members.
  destruct memberIds as [ms|]; [|by auto].
  destruct (String.eqb action ""); [by auto|].
  destruct (Conversation.findOne _ _) as [c|] eqn:Hfind; [|by auto].
  apply find_Some_elem in Hfind
    as [Hc [[_ Hty]%andb_true_iff _]%andb_true_iff].
  assert (Conversation.type c = Conversation.group) as Hgroup
    by (by destruct (Conversation.type c)).
  assert (group_ok c) as Hok.
  { unfold groups_ok in Hd. rewrite Forall_forall in Hd. by apply Hd. }
  destruct (String.eqb action "add").
  { destruct (Conversation.MAX_GROUP_SIZE <? _) eqn:Hmax; [by auto|].
    apply Nat.ltb_ge in Hmax.
    destruct (forallb _ ms); simpl; [|by auto].
    destruct (Conversation.save _ _) as [e|convs] eqn:Es; [by auto|].
    apply save_inv in Es as [_ ->]. simpl.
    split; [|by left]. apply groups_ok_save; [done|].
    by apply group_ok_add. }
  destruct (String.eqb action "remove"); [|by auto].
  destruct (Js.includes ms u); [by auto|].
  destruct (length _ <? 2) eqn:Hmin; [by auto|].
  apply Nat.ltb_ge in Hmin. simpl.
  destruct (Conversation.save _ _) as [e|convs] eqn:Es; [by auto|].
  apply save_inv in Es as [_ ->]. simpl.
  split; [|by left]. apply groups_ok_save; [done|].
  by apply group_ok_remove.
Qed.

(** C5.  Starting from groups within bounds, every group still has between
    2 and 20 (distinct) participants after any sequence of member add and
    remove operations; each such operation either succeeds within the
    bounds or leaves the store as it was; and an add that would make the
    group larger than 20, or a remove that would leave fewer than 2, is
    answered 400 and changes nothing. *)
Theorem C5_group_size_within_bounds :
  (∀ trace s,
     Forall is_member_op trace → groups_ok (db s) →
     groups_ok (db (run trace s)))
  ∧ (∀ u cid action memberIds d,
       groups_ok d →
       groups_ok (ConversationsRouter.put_members u cid action memberIds d).1
       ∧ (status (ConversationsRouter.put_members u cid action memberIds d).2
          = 200
          ∨ (ConversationsRouter.put_members u cid action memberIds d).1 = d))
  ∧ (∀ u cid c ms d,
       wf d → administers u cid c d →
       Conversation.MAX_GROUP_SIZE
         < length (Js.spreadSet (Conversation.participants c ++ ms)) →
       ConversationsRouter.put_members u cid "add" (Some ms) d
       = (d, respond 400 (json_error "Group cannot exceed 20 members")))
  ∧ (∀ u cid c ms d,
       wf d → administers u cid c d →
       length (List.filter (λ p, negb (Js.includes ms p))
                 (Conversation.participants c)) < 2 →
       ∃ why, ConversationsRouter.put_members u cid "remove" (Some ms) d
              = (d, respond 400 (json_error why))).
Proof.
  split; [|split; [|split]].
  - intros trace. induction trace as [|[now r] trace IH]; intros s Hops Hd;
      [done|].
    apply Forall_cons in Hops as [Hop Hops]. simpl. apply IH; [done|].
    destruct r as [| |u [| |cid action ms| | | | |]]; try done. simpl.
    pose proof (put_members_ok u cid action ms (db s) Hd) as [H _].
    by destruct (ConversationsRouter.put_members u cid action ms (db s)).
  - intros. by apply put_members_ok.
  - intros u cid c ms d Hwf Hadm Hbig.
    unfold ConversationsRouter.put_members. simpl.
    rewrite (findOne_admin u cid c d) by (done || apply Hwf). simpl.
    pose proof (length_spreadSet (Conversation.participants c ++ ms)) as H.
    rewrite length_app in H.
    destruct (Conversation.MAX_GROUP_SIZE <? _) eqn:Hmax; [done|].
    apply Nat.ltb_ge in Hmax. lia.
  - intros u cid c ms d Hwf Hadm Hsmall.
    unfold ConversationsRouter.put_members. simpl.
    rewrite (findOne_admin u cid c d) by (done || apply Hwf). simpl.
    destruct (Js.includes ms u); [by eexists|].
    destruct (length _ <? 2) eqn:Hmin; [by eexists|].
    apply Nat.ltb_ge in Hmin. lia.
Qed.

Lemma C5_witness :
  Forall is_member_op
    [(30, Rest 1 (PUT_members 101 "remove" (Some [3%N])));
     (31, Rest 1 (PUT_members 101 "remove" (Some [2%N])));
     (32, Rest 1 (PUT_members 101 "add" (Some [3%N])))]%Z
  ∧ groups_ok (db ex_server)
  ∧ groups_ok
      (db (run [(30, Rest 1 (PUT_members 101 "remove" (Some [3%N])));
                (31, Rest 1 (PUT_members 101 "remove" (Some [2%N])));
                (32, Rest 1 (PUT_members 101 "add" (Some [3%N])))]%Z
             ex_server)).
Proof.
  assert (Forall is_member_op
    [(30, Rest 1 (PUT_members 101 "remove" (Some [3%N])));
     (31, Rest 1 (PUT_members 101 "remove" (Some [2%N])));
     (32, Rest 1 (PUT_members 101 "add" (Some [3%N])))]%Z) as H1
    by (repeat constructor).
  assert (groups_ok (db ex_server)) as H2 by compute_done.
  repeat (split; [assumption|]).
  exact (proj1 C5_group_size_within_bounds _ ex_server H1 H2).
Defined.

(** ** Leaving a group *)

(** A member who is not the admin can always leave a group whose document
    passes its schema, and the group is kept with the remaining
    participants, however few. *)
Lemma member_leave_keeps_group u cid c d :
  wf d → c ∈ conversations d → Conversation._id c = cid →
  Conversation.type c = Conversation.group →
  Conversation.validate c = None →
  u ∈ Conversation.participants c → Conversation.admin c ≠ Some u →
  ConversationsRouter.delete u cid d
  = (set_conversations
       (Conversation.updateOne
          (Conversation.set_participants
             (List.filter (λ p, negb (p =? u)%N) (Conversation.participants c))
             c)
          (conversations d)) d,
     respond 200 (json_message "Left group")).
Proof.
  intros Hwf Hc Hid Hty Hval Hu Hadm. unfold ConversationsRouter.delete.
  destruct (findOne_participant_Some u cid d) as (c' & Hfind & Hc' & Hid' & _).
  { apply participates_iff. by exists c. }
  assert (c' = c) as ->.
  { apply (NoDup_fmap_eq Conversation._id (conversations d));
      [apply Hwf | done | done | congruence]. }
  rewrite Hfind, Hty. rewrite bool_decide_eq_false_2 by done.
  by rewrite save_inr by (by rewrite validate_set_participants).
Qed.

(** C6, on the code.  Bob, who is not the admin, leaves the two-member
    group 102: the request is answered "Left group" and the group stays
    stored, with Alice as its only participant; it is not deleted, and the
    store no longer satisfies the size invariant of groups. *)
Theorem C6_leave_at_minimum_size_keeps_group :
  groups_ok ex_duo
  ∧ ConversationsRouter.delete 2 102 ex_duo
    = (set_conversations
         [Conversation.mk 102 Conversation.group [1%N]
            (Some str_Duo) (Some 1%N) None] ex_duo,
       respond 200 (json_message "Left group"))
  ∧ ¬ groups_ok (ConversationsRouter.delete 2 102 ex_duo).1
  ∧ (ConversationsRouter.get 1 102 0 0
       (ConversationsRouter.delete 2 102 ex_duo).1).(status) = 200.
Proof.
  split; [compute_done|]. split; [by vm_compute|].
  split; [compute_done | by vm_compute].
Qed.

(** ** Personal conversations *)

Lemma find_ext {A} (p q : A → bool) (l : list A) :
  (∀ x, p x = q x) → List.find p l = List.find q l.
Proof.
  intros H. induction l as [|a l IH]; [done|]. simpl. by rewrite H, IH.
Qed.

Lemma areFriends_spec d a b : areFriends d a b = true ↔ friends a b d.
Proof.
  unfold areFriends, friends. rewrite bool_decide_eq_true, Exists_exists.
  split.
  - intros [f Hf]. apply find_Some_elem in Hf as [Hin Hf]. exists f.
    split; [done|]. unfold Friendship.acceptedBetween in Hf.
    apply andb_true_iff in Hf as [Hpair Hst].
    split; [by destruct (Friendship.status f)|].
    apply orb_true_iff in Hpair as [[?%N.eqb_eq ?%N.eqb_eq]%andb_true_iff
                                   |[?%N.eqb_eq ?%N.eqb_eq]%andb_true_iff];
      auto.
  - intros (f & Hin & Hst & Hpair).
    apply (find_is_Some _ _ f Hin). unfold Friendship.acceptedBetween.
    rewrite Hst. simpl. rewrite andb_true_r.
    destruct Hpair as [[-> ->]|[-> ->]]; rewrite !N.eqb_refl; simpl;
      [done | by rewrite orb_true_r].
Qed.

Lemma friends_sym a b d : friends a b d → friends b a d.
Proof.
  unfold friends. rewrite !Exists_exists.
  intros (f & ? & ? & Hpair). exists f. repeat split; try done. tauto.
Qed.

(** The query [{ type: "personal", participants: { $all: [a, b], $size: 2 } }]
    selects the personal conversations between [a] and [b]. *)
Lemma pair_query_spec a b x y c :
  a ≠ b → (x = a ∧ y = b) ∨ (x = b ∧ y = a) →
  Conversation.ConversationType_eqb (Conversation.type c) Conversation.personal
  && forallb (Js.includes (Conversation.participants c)) [x; y]
  && (length (Conversation.participants c) =? 2)
  = bool_decide (personal_between a b c).
Proof.
  intros Hab Hxy.
  destruct (bool_decide (personal_between a b c)) eqn:E.
  - apply bool_decide_eq_true in E as [-> Hps]. simpl.
    destruct Hxy as [[-> ->]|[-> ->]], Hps as [-> | ->]; simpl;
      rewrite !andb_true_r; apply andb_true_iff;
      split; apply includes_true; set_solver.
  - apply bool_decide_eq_false in E. apply not_true_is_false. intros H.
    apply andb_true_iff in H as [[Hty Hall]%andb_true_iff Hlen].
    apply E. split; [by destruct (Conversation.type c)|].
    apply Nat.eqb_eq in Hlen. simpl in Hall.
    rewrite andb_true_r in Hall.
    apply andb_true_iff in Hall as [Hx%includes_true Hy%includes_true].
    destruct (Conversation.participants c) as [|p [|q [|]]]; try done.
    assert (a ∈ [p; q] ∧ b ∈ [p; q]) as [Ha Hb]
      by (destruct Hxy as [[-> ->]|[-> ->]]; done).
    apply elem_of_cons in Ha as [Ha|Ha%list_elem_of_singleton];
      apply elem_of_cons in Hb as [Hb|Hb%list_elem_of_singleton];
      subst; auto; done.
Qed.

(** C7.  For two distinct users who are accepted friends, the first
    create-personal-conversation call answers with a personal conversation
    between them; a second call, by either of the two, answers with that
    same conversation and changes nothing; and the number of personal
    conversations between them afterwards is one if there was none, and
    what it was otherwise, so never two where there was at most one. *)
Theorem C7_personal_conversation_created_once a b nm d :
  a ≠ b → wf d → friends a b d →
  ∃ c code,
    let d1 := (ConversationsRouter.post a "personal" (Some [b]) nm d).1 in
    personal_between a b c
    ∧ c ∈ conversations d1
    ∧ (code = 200 ∨ code = 201)
    ∧ (ConversationsRouter.post a "personal" (Some [b]) nm d).2
      = respond code (json_conversation (Some (populate_participants d1 c)))
    ∧ (∀ nm',
         ConversationsRouter.post a "personal" (Some [b]) nm' d1
         = (d1, respond 200
                  (json_conversation (Some (populate_participants d1 c))))
         ∧ ConversationsRouter.post b "personal" (Some [a]) nm' d1
           = (d1, respond 200
                    (json_conversation (Some (populate_participants d1 c)))))
    ∧ count_personal a b d1 = Nat.max 1 (count_personal a b d).
Proof.
  intros Hab Hwf Hfr.
  assert (∀ d', friendships d' = friendships d →
                areFriends d' a b = true ∧ areFriends d' b a = true) as Hfriends.
  { intros d' Hd'. unfold areFriends. rewrite Hd'.
    split; apply areFriends_spec; [done | by apply friends_sym]. }
  assert (∀ d' e,
    List.find (λ c, bool_decide (personal_between a b c)) (conversations d')
    = Some e → friendships d' = friendships d →
    ∀ nm',
      ConversationsRouter.post a "personal" (Some [b]) nm' d'
      = (d', respond 200
               (json_conversation (Some (populate_participants d' e))))
      ∧ ConversationsRouter.post b "personal" (Some [a]) nm' d'
        = (d', respond 200
                 (json_conversation (Some (populate_participants d' e)))))
    as Hexisting.
  { intros d' e He Hd' nm'. destruct (Hfriends d' Hd') as [Hf1 Hf2].
    unfold ConversationsRouter.post, Conversation.findOne. simpl String.eqb.
    cbv iota. rewrite !spreadSet_pair by done. simpl length. simpl negb.
    rewrite Hf1, Hf2. simpl negb. cbv iota.
    rewrite (find_ext _ (λ c, bool_decide (personal_between a b c)))
      by (intros; apply pair_query_spec; auto).
    rewrite (find_ext (λ c, _ && forallb _ [b; a] && _)
               (λ c, bool_decide (personal_between a b c)))
      by (intros; apply pair_query_spec; auto).
    by rewrite He. }
  destruct (List.find (λ c, bool_decide (personal_between a b c))
              (conversations d)) as [e|] eqn:He.
  - (* the conversation exists already *)
    destruct (Hexisting d e He eq_refl nm) as [H1 _].
    exists e, 200. rewrite H1. simpl.
    apply find_Some_elem in He as He'. destruct He' as [Hin HP].
    apply bool_decide_eq_true in HP.
    split; [done|]. split; [done|]. split; [by left|]. split; [done|].
    split; [by apply Hexisting|].
    unfold count_personal.
    assert (e ∈ List.filter (λ c, bool_decide (personal_between a b c))
                  (conversations d)) as Hf
      by (apply elem_of_filter_bool; by rewrite bool_decide_eq_true).
    destruct (List.filter _ (conversations d)); [by apply elem_of_nil in Hf|].
    simpl. lia.
  - (* it is created by the first call *)
    set (c := Conversation.mk (oid d) Conversation.personal [a; b]
                None None None).
    set (d1 := next_oid (set_conversations (conversations d ++ [c]) d)).
    assert (ConversationsRouter.post a "personal" (Some [b]) nm d
            = (d1, respond 201
                     (json_conversation (Some (populate_participants d1 c)))))
      as H1.
    { destruct (Hfriends d eq_refl) as [Hf1 _].
      unfold ConversationsRouter.post, Conversation.findOne. simpl String.eqb.
      cbv iota. rewrite !spreadSet_pair by done. simpl length. simpl negb.
      rewrite Hf1. simpl negb. cbv iota.
      rewrite (find_ext _ (λ c, bool_decide (personal_between a b c)))
        by (intros; apply pair_query_spec; auto).
      rewrite He. unfold Conversation.create. simpl. fold c. fold d1.
      unfold Conversation.findById, Conversation.findOne.
      rewrite find_app_None; [simpl; by rewrite N.eqb_refl|].
      apply find_None_elem. intros c0 Hc0. apply N.eqb_neq.
      pose proof (wf_conversation_old _ Hwf) as Hold.
      rewrite Forall_forall in Hold. specialize (Hold c0 Hc0). lia. }
    assert (personal_between a b c) as Hc by (split; [done | by left]).
    assert (List.find (λ c, bool_decide (personal_between a b c))
              (conversations d1) = Some c) as He1.
    { simpl. rewrite find_app_None by done. simpl.
      by rewrite bool_decide_eq_true_2. }
    exists c, 201. rewrite H1. simpl.
    split; [done|]. split; [apply elem_of_app; right; by left|].
    split; [by right|]. split; [done|]. split; [by apply Hexisting|].
    unfold count_personal. simpl. rewrite List.filter_app, length_app.
    rewrite (filter_bool_nil _ _ He). simpl.
    by rewrite bool_decide_eq_true_2.
Qed.

Lemma C7_witness :
  (1 ≠ 3)%N ∧ wf ex_db ∧ friends 1 3 ex_db
  ∧ count_personal 1 3
      (ConversationsRouter.post 3 "personal" (Some [1%N]) None
         (ConversationsRouter.post 1 "personal" (Some [3%N]) None ex_db).1).1
    = 1.
Proof.
  assert ((1 ≠ 3)%N) as H1 by done.
  assert (wf ex_db) as H2 by (split; compute_done).
  assert (friends 1 3 ex_db) as H3 by compute_done.
  repeat (split; [assumption|]).
  destruct (C7_personal_conversation_created_once 1%N 3%N None ex_db H1 H2 H3)
    as (c & code & _ & _ & _ & _ & Hagain & Hcount).
  rewrite (proj2 (Hagain None)). cbn [fst]. rewrite Hcount. by vm_compute.
Defined.

(** ** Deleting a group *)

Lemma findByIdAndDelete_gone cid (coll : list Conversation.t) c :
  NoDup (Conversation._id <$> coll) →
  c ∈ Conversation.findByIdAndDelete cid coll → Conversation._id c ≠ cid.
Proof.
  induction coll as [|a coll IH]; [by intros _ ?%elem_of_nil|].
  rewrite fmap_cons, NoDup_cons. intros [Ha Hnd]. simpl.
  destruct (N.eqb_spec (Conversation._id a) cid) as [E|E].
  - intros Hc Hcid. apply Ha. rewrite E, <- Hcid. by apply list_elem_of_fmap_2.
  - rewrite elem_of_cons. intros [->|Hc]; [done | by apply IH].
Qed.

Lemma get_not_found v cid page limit d :
  (∀ c, c ∈ conversations d → Conversation._id c ≠ cid) →
  ConversationsRouter.get v cid page limit d
  = respond 404 (json_error "Conversation not found").
Proof.
  intros Hgone. unfold ConversationsRouter.get.
  rewrite findOne_participant_None; [done|].
  intros (c & Hc & Hid & _)%participates_iff. by apply (Hgone c).
Qed.

(** C8.  When the admin of a group leaves, the request is answered "Group
    deleted"; no conversation with that id and no message of that
    conversation remains stored; and whatever requests follow, a fetch of
    that conversation by anybody, its former participants included, is
    answered 404 "Conversation not found". *)
Theorem C8_admin_leave_deletes_group_and_messages u cid c s :
  wf (db s) → administers u cid c (db s) →
  u ∈ Conversation.participants c →
  (ConversationsRouter.delete u cid (db s)).2
  = respond 200 (json_message "Group deleted")
  ∧ (∀ c', c' ∈ conversations (ConversationsRouter.delete u cid (db s)).1 →
           Conversation._id c' ≠ cid)
  ∧ (∀ m, m ∈ messages (ConversationsRouter.delete u cid (db s)).1 →
          Message.conversation m ≠ cid)
  ∧ (∀ trace v page limit,
       ConversationsRouter.get v cid page limit
         (db (run trace
                (with_db (ConversationsRouter.delete u cid (db s)).1 s)))
       = respond 404 (json_error "Conversation not found")).
Proof.
  intros Hwf (Hc & Hid & Hty & Hadm) Hu.
  destruct (findOne_participant_Some u cid (db s)) as (c' & Hfind & Hc' & Hid' & _).
  { apply participates_iff. by exists c. }
  assert (c' = c) as ->.
  { apply (NoDup_fmap_eq Conversation._id (conversations (db s)));
      [apply Hwf | done | done | congruence]. }
  unfold ConversationsRouter.delete. rewrite Hfind, Hty.
  rewrite (bool_decide_eq_true_2 _ Hadm). cbn [fst snd].
  assert (∀ c', c' ∈ Conversation.findByIdAndDelete cid (conversations (db s))
                → Conversation._id c' ≠ cid) as Hgone.
  { intros c'. apply findByIdAndDelete_gone, Hwf. }
  split; [done|]. split; [done|]. split.
  - simpl. intros m [_ Hm]%elem_of_filter_bool.
    apply negb_true_iff in Hm. by apply N.eqb_neq.
  - intros trace v page limit. apply get_not_found. intros c'' Hc''.
    match goal with
    | H : c'' ∈ conversations (db (run trace ?s1)) |- _ =>
        destruct (ev_conversations _ _ (run_evolves trace s1) c'' Hc'')
          as [(c0 & Hc0 & E0)|Hnew]
    end.
    + rewrite <- E0. by apply Hgone.
    + simpl in Hnew. pose proof (wf_conversation_old _ Hwf) as Hold.
      rewrite Forall_forall in Hold. specialize (Hold c Hc). lia.
Qed.

Lemma C8_witness :
  wf (db ex_live)
  ∧ administers 1 101
      (Conversation.mk 101 Conversation.group [1; 2; 3]%N
         (Some str_Trip) (Some 1%N) None) (db ex_live)
  ∧ ConversationsRouter.get 2 101 0 0
      (db (run [(60, SocketEvent "sB" (message_send 101 str_hi));
                (61, Rest 2 (POST_conversations "personal" (Some [1%N]) None))]%Z
             (with_db (ConversationsRouter.delete 1 101 (db ex_live)).1
                ex_live)))
    = respond 404 (json_error "Conversation not found").
Proof.
  assert (wf (db ex_live)) as H1 by (split; compute_done).
  assert (administers 1 101
            (Conversation.mk 101 Conversation.group [1; 2; 3]%N
               (Some str_Trip) (Some 1%N) None) (db ex_live)) as H2.
  { split; [vm_compute; right; left | done]. }
  repeat (split; [assumption|]).
  apply (C8_admin_leave_deletes_group_and_messages 1%N 101%N _ ex_live H1 H2).
  vm_compute. left.
Defined.

(** ** Presence *)

Lemma findById_is_Some u (us : list User.t) :
  u ∈ User._id <$> us → is_Some (User.findById u us).
Proof.
  intros (doc & -> & Hdoc)%list_elem_of_fmap_1.
  apply (find_is_Some _ _ doc Hdoc), N.eqb_refl.
Qed.

Lemma findById_update u f (us : list User.t) doc :
  (∀ x, User._id (f x) = User._id x) →
  User.findById u us = Some doc →
  User.findById u (User.findByIdAndUpdate u f us) = Some (f doc).
Proof.
  intros Hf. unfold User.findById.
  induction us as [|x us IH]; [done|]. simpl.
  destruct (N.eqb_spec (User._id x) u) as [E|E].
  - intros [= ->]. simpl. by rewrite Hf, E, N.eqb_refl.
  - simpl. apply N.eqb_neq in E. by rewrite E.
Qed.

Lemma step_keeps_socket sid r s :
  keeps_open sid r →
  data_userId <$> sockets (io (step r.1 r.2 s).1) !! sid
  = data_userId <$> sockets (io s) !! sid.
Proof.
  destruct r as [now [sid' [u|]|sid' ev|u call]]; unfold keeps_open; simpl;
    intros Hopen; try done.
  - by rewrite lookup_insert_ne.
  - unfold socket_on. destruct (sockets (io s) !! sid') as [k|]; [|done].
    destruct ev; simpl; try done.
    + rewrite lookup_alter. case_decide; [subst|done].
      by destruct (sockets (io s) !! sid).
    + rewrite lookup_alter. case_decide; [subst|done].
      by destruct (sockets (io s) !! sid).
    + unfold on_message_send, on_message_send_with.
      destruct (Conversation.findOne _ _); [|done].
      destruct (Message.createWith _ _ _ _ _ _ _ _) as [|[]]; [done|].
      simpl. by destruct (Conversation.save _ _).
    + by rewrite lookup_delete_ne.
  - by destruct (rest u now call (db s)).
Qed.

Lemma run_keeps_socket sid trace s :
  Forall (keeps_open sid) trace →
  data_userId <$> sockets (io (run trace s)) !! sid
  = data_userId <$> sockets (io s) !! sid.
Proof.
  revert s. induction trace as [|[now r] trace IH]; intros s Hopen; [done|].
  apply Forall_cons in Hopen as [Hr Hopen]. simpl.
  rewrite IH by done. apply (step_keeps_socket sid (now, r) s Hr).
Qed.

(** C9.  Once a user who has a User document connects on socket [sid],
    the presence registry maps the user to [sid], and to the newer socket
    after a later connect, and the document says online.  When that socket
    disconnects, whatever happened on other sockets and over REST in
    between, the registry entry and the socket are gone, the document says
    offline with lastSeen the time of the disconnect, which is not before
    the connect, and the one event emitted, [user:offline], goes to every
    other connection and not to the socket itself. *)
Theorem C9_presence_follows_connection sid u t1 t2 mid s :
  u ∈ User._id <$> users (db s) →
  Forall (keeps_open sid) mid →
  (t1 ≤ t2)%Z →
  let s1 := (step t1 (Connect sid (Some u)) s).1 in
  let s2 := run mid s1 in
  let s3 := (step t2 (SocketEvent sid disconnect) s2).1 in
  onlineUsers (io s1) !! u = Some sid
  ∧ (∃ doc, User.findById u (users (db s1)) = Some doc
            ∧ User.isOnline doc = true)
  ∧ (∀ t sid',
       onlineUsers (io (step t (Connect sid' (Some u)) s1).1) !! u = Some sid')
  ∧ onlineUsers (io s3) !! u = None
  ∧ sockets (io s3) !! sid = None
  ∧ (∃ doc, User.findById u (users (db s3)) = Some doc
            ∧ User.isOnline doc = false
            ∧ User.lastSeen doc = t2 ∧ (t1 ≤ User.lastSeen doc)%Z)
  ∧ (step t2 (SocketEvent sid disconnect) s2).2
    = Emitted [emit (socket_broadcast sid) (user_offline u)]
  ∧ recipients (io s3) (socket_broadcast sid) = dom (sockets (io s2)) ∖ {[sid]}
  ∧ sid ∉ recipients (io s3) (socket_broadcast sid).
Proof.
  intros Hu Hmid Ht s1 s2 s3.
  assert (data_userId <$> sockets (io s2) !! sid = Some u) as Hsock.
  { subst s2. rewrite run_keeps_socket by done.
    subst s1. simpl. by rewrite lookup_insert_eq. }
  assert (step t2 (SocketEvent sid disconnect) s2
          = ((on_disconnect sid u t2 s2).1,
             Emitted (on_disconnect sid u t2 s2).2)) as Hstep.
  { unfold step. by rewrite (socket_on_lookup sid u). }
  assert (u ∈ User._id <$> users (db s2)) as Hu2.
  { subst s2. rewrite (ev_users _ _ (run_evolves mid s1)).
    subst s1. simpl. by rewrite findByIdAndUpdate_ids. }
  subst s3. rewrite Hstep. cbn [fst snd].
  split; [apply lookup_insert_eq|]. split.
  { destruct (findById_is_Some u _ Hu) as [doc Hdoc].
    exists (set_isOnline true doc). split; [|done].
    subst s1. simpl. by apply findById_update. }
  split; [intros; apply lookup_insert_eq|].
  split; [apply lookup_delete_eq|]. split; [apply lookup_delete_eq|]. split.
  { destruct (findById_is_Some u _ Hu2) as [doc Hdoc].
    exists (set_offline t2 doc). split; [|done].
    simpl. by apply findById_update. }
  split; [done|]. simpl. rewrite dom_delete_L. split.
  - apply set_eq. intros x. rewrite !elem_of_difference. tauto.
  - rewrite !elem_of_difference, elem_of_singleton. tauto.
Qed.

Lemma C9_witness :
  1%N ∈ User._id <$> users (db ex_server)
  ∧ Forall (keeps_open "sA")
      [(30, Connect "sB" (Some 2%N));
       (40, SocketEvent "sA" (messages_read 101))]%Z
  ∧ (20 ≤ 90)%Z
  ∧ onlineUsers
      (io (step 90 (SocketEvent "sA" disconnect)
             (run [(30, Connect "sB" (Some 2%N));
                   (40, SocketEvent "sA" (messages_read 101))]%Z
                (step 20 (Connect "sA" (Some 1%N)) ex_server).1)).1) !! 1%N
    = None.
Proof.
  assert (1%N ∈ User._id <$> users (db ex_server)) as H1 by compute_done.
  assert (Forall (keeps_open "sA")
            [(30, Connect "sB" (Some 2%N));
             (40, SocketEvent "sA" (messages_read 101))]%Z) as H2
    by (repeat constructor; done).
  assert ((20 ≤ 90)%Z) as H3 by lia.
  repeat (split; [assumption|]).
  exact (proj1 (proj2 (proj2 (proj2
           (C9_presence_follows_connection "sA" 1%N 20 90 _ ex_server
              H1 H2 H3))))).
Defined.

(** ** The two mark-as-read paths *)

(** C10.  The [messages:read] listener checks nothing about the
    conversation: for any connected user and any conversation id, every
    stored message of that conversation has the user in its readBy
    afterwards and [messages:read:update] is emitted to the conversation's
    room.  The REST path, for a caller who is not a participant, answers
    404 "Conversation not found" and leaves the server as it was. *)
Theorem C10_socket_read_has_no_participant_check :
  (∀ now sid u cid s,
     data_userId <$> sockets (io s) !! sid = Some u →
     (∀ m, m ∈ messages
                 (db (step now (SocketEvent sid (messages_read cid)) s).1) →
           Message.conversation m = cid → u ∈ Message.readBy m)
     ∧ (step now (SocketEvent sid (messages_read cid)) s).2
       = Emitted [emit (io_to (ConversationRoom cid))
                       (messages_read_update cid u)])
  ∧ (∀ now u cid s,
       ¬ participates u cid (db s) →
       step now (Rest u (PUT_read cid)) s
       = (s, Responded
               (respond 404 (json_error "Conversation not found")))).
Proof.
  split.
  - intros now sid u cid s Hsid. unfold step.
    rewrite (socket_on_lookup sid u) by done. simpl.
    split; [|done]. intros m. apply read_marks_all.
  - intros now u cid s Hnot. unfold step. simpl.
    unfold MessagesRouter.put_read.
    rewrite findOne_participant_None by done. by destruct s.
Qed.

Lemma C10_witness :
  data_userId <$> sockets (io ex_live) !! "sD" = Some 4%N
  ∧ ¬ participates 4 101 (db ex_live)
  ∧ messages (db (step 50 (SocketEvent "sD" (messages_read 101)) ex_live).1)
    = [Message.mk 150 101 2 str_hi [2; 4]%N 10]
  ∧ step 50 (Rest 4 (PUT_read 101)) ex_live
    = (ex_live,
       Responded (respond 404 (json_error "Conversation not found"))).
Proof.
  assert (data_userId <$> sockets (io ex_live) !! "sD" = Some 4%N) as H1
    by (vm_compute; reflexivity).
  assert (¬ participates 4 101 (db ex_live)) as H2 by compute_done.
  repeat (split; [assumption|]).
  split; [by vm_compute|].
  exact (proj2 C10_socket_read_has_no_participant_check 50%Z 4%N 101%N
           ex_live H2).
Defined.

(** ** Well-formedness is an invariant *)

Lemma ids_step_refl o l : ids_step o l l.
Proof. by left. Qed.

Lemma ids_evolve_refl d : ids_evolve d d.
Proof. split; apply ids_step_refl. Qed.

Lemma updateMany_read_ids cid u (ms : list Message.t) :
  Message._id <$> Message.updateMany (Message.unreadBy cid u)
                    (Message.addToSet_readBy u) ms
  = Message._id <$> ms.
Proof.
  unfold Message.updateMany. rewrite <- list_fmap_compose.
  apply list_fmap_ext. intros _ m _. simpl.
  by destruct (Message.unreadBy cid u m).
Qed.

Lemma findByIdAndDelete_sublist cid (coll : list Conversation.t) :
  Conversation.findByIdAndDelete cid coll `sublist_of` coll.
Proof.
  induction coll as [|a coll IH]; [done|]. simpl.
  destruct (Conversation._id a =? cid)%N; by constructor.
Qed.

Lemma findOneAndUpdate_ids flt upd (coll : list Conversation.t) :
  (∀ c, Conversation._id (upd c) = Conversation._id c) →
  Conversation._id <$> (Conversation.findOneAndUpdate flt upd coll).1
  = Conversation._id <$> coll.
Proof.
  intros Hupd. induction coll as [|a coll IH]; [done|]. simpl.
  destruct (flt a); cbn [fst]; [by rewrite !fmap_cons, Hupd|].
  destruct (Conversation.findOneAndUpdate flt upd coll) as [rest r].
  cbn [fst] in *. rewrite !fmap_cons. by f_equal.
Qed.

Lemma ids_evolve_save d doc :
  ids_evolve d (set_conversations (Conversation.updateOne doc (conversations d)) d).
Proof. split; simpl; [rewrite save_ids|]; apply ids_step_refl. Qed.

Lemma ids_evolve_mark_read cid u d :
  ids_evolve d (set_messages
                  (Message.updateMany (Message.unreadBy cid u)
                     (Message.addToSet_readBy u) (messages d)) d).
Proof. split; simpl; [|rewrite updateMany_read_ids]; apply ids_step_refl. Qed.

Lemma ids_evolve_send schema lm now cid u content conversation d ms m :
  Message.createWith schema (oid d) now cid u (Js.trim content) [u]
    (messages d) = inr (ms, m) →
  ids_evolve d
    (set_conversations
       (Conversation.updateOne
          (Conversation.set_lastMessage lm conversation)
          (conversations (next_oid (set_messages ms d))))
       (next_oid (set_messages ms d))).
Proof.
  intros (-> & Hid & _)%createWith_inr. split; simpl.
  - rewrite save_ids. apply ids_step_refl.
  - right. by rewrite fmap_app, <- Hid.
Qed.

Lemma ids_evolve_append_message schema now cid u content d ms m :
  Message.createWith schema (oid d) now cid u (Js.trim content) [u]
    (messages d) = inr (ms, m) →
  ids_evolve d (next_oid (set_messages ms d)).
Proof.
  intros (-> & Hid & _)%createWith_inr. split; simpl.
  - apply ids_step_refl.
  - right. by rewrite fmap_app, <- Hid.
Qed.

Lemma ids_evolve_remove d cid :
  ids_evolve d
    (set_conversations
       (Conversation.findByIdAndDelete cid (conversations d))
       (set_messages
          (Message.deleteMany (λ m, (Message.conversation m =? cid)%N)
             (messages d)) d)).
Proof.
  split; simpl; left; apply fmap_sublist.
  - apply findByIdAndDelete_sublist.
  - apply filter_bool_sublist.
Qed.

Lemma ids_evolve_set_users d us : ids_evolve d (set_users us d).
Proof. split; apply ids_step_refl. Qed.

Lemma rest_ids_evolve u now call d : ids_evolve d (rest u now call d).1.
Proof.
  destruct call; simpl; try apply ids_evolve_refl.
  - unfold ConversationsRouter.post.
    repeat case_match; simplify_eq/=; try apply ids_evolve_refl.
    all: match goal with
         | H : Conversation.create _ _ _ _ _ _ = inr _ |- _ =>
             apply create_inr in H as (-> & Hid & _)
         end.
    all: split; simpl; [right; by rewrite fmap_app, <- Hid | apply ids_step_refl].
  - unfold ConversationsRouter.put_members.
    repeat case_match; simplify_eq/=; save_writes;
      first [apply ids_evolve_refl | apply ids_evolve_save].
  - unfold ConversationsRouter.put_name.
    repeat case_match; simplify_eq/=; try apply ids_evolve_refl.
    split; simpl; [|apply ids_step_refl].
    match goal with
    | H : Conversation.findOneAndUpdate ?f ?g ?l = (?l', _) |- _ =>
        change l' with (l', @None Conversation.t).1;
        replace (l', @None Conversation.t).1
          with (Conversation.findOneAndUpdate f g l).1 by (by rewrite H);
        rewrite findOneAndUpdate_ids by done
    end.
    apply ids_step_refl.
  - unfold ConversationsRouter.delete.
    repeat case_match; simplify_eq/=; save_writes;
      first [apply ids_evolve_refl | apply ids_evolve_remove
            | apply ids_evolve_save].
  - unfold MessagesRouter.post, Message.create.
    repeat case_match; simplify_eq/=; save_writes;
      try apply ids_evolve_refl;
      first [by eapply ids_evolve_append_message | by eapply ids_evolve_send].
  - unfold MessagesRouter.put_read.
    repeat case_match; simplify_eq/=;
      first [apply ids_evolve_refl | apply ids_evolve_mark_read].
Qed.

Lemma step_ids_evolve now r s : ids_evolve (db s) (db (step now r s).1).
Proof.
  destruct r as [sid [u|]|sid ev|u call]; simpl; try apply ids_evolve_refl.
  - apply ids_evolve_set_users.
  - unfold socket_on. destruct (sockets (io s) !! sid) as [k|];
      [|apply ids_evolve_refl].
    destruct ev; simpl;
      first [apply ids_evolve_refl | apply ids_evolve_set_users | idtac].
    + unfold on_message_send, on_message_send_with.
      destruct (Conversation.findOne _ _); [|apply ids_evolve_refl].
      destruct (Message.createWith _ _ _ _ _ _ _ _) as [|[ms m]] eqn:E;
        [apply ids_evolve_refl|].
      simpl. destruct (Conversation.save _ _) as [e'|convs] eqn:Es.
      * by eapply ids_evolve_append_message.
      * apply save_inv in Es as [_ ->]. by eapply ids_evolve_send.
    + apply ids_evolve_mark_read.
  - pose proof (rest_ids_evolve u now call (db s)).
    by destruct (rest u now call (db s)).
Qed.

Lemma NoDup_ids_step (o : ObjectId) (l l' : list ObjectId) :
  NoDup l → Forall (λ x, (x < o)%N) l → ids_step o l l' → NoDup l'.
Proof.
  intros Hnd Hold [Hsub| ->]; [by eapply sublist_NoDup|].
  apply NoDup_app. split; [done|]. split; [|apply NoDup_singleton].
  intros x Hx ->%list_elem_of_singleton.
  rewrite Forall_forall in Hold. specialize (Hold _ Hx). lia.
Qed.

(** Every request keeps the store well formed, and the empty store is. *)
Lemma step_wf now r s : wf (db s) → wf (db (step now r s).1).
Proof.
  intros [Hc Hm Hco Hmo].
  pose proof (step_evolves now r s) as [Ho _ Hce Hme].
  pose proof (step_ids_evolve now r s) as [Hci Hmi].
  split.
  - eapply NoDup_ids_step; [exact Hc | | exact Hci].
    by apply Forall_fmap.
  - eapply NoDup_ids_step; [exact Hm | | exact Hmi].
    by apply Forall_fmap.
  - apply Forall_forall. intros c' Hc'.
    destruct (Hce c' Hc') as [(c & Hin & <-)|?]; [|lia].
    rewrite Forall_forall in Hco. specialize (Hco c Hin). simpl in Hco. lia.
  - apply Forall_forall. intros m' Hm'.
    destruct (Hme m' Hm') as [(m & Hin & <- & _)|?]; [|lia].
    rewrite Forall_forall in Hmo. specialize (Hmo m Hin). simpl in Hmo. lia.
Qed.

Lemma run_wf trace s : wf (db s) → wf (db (run trace s)).
Proof.
  revert s. induction trace as [|[now r] trace IH]; intros s Hwf; [done|].
  simpl. by apply IH, step_wf.
Qed.

Lemma empty_db_wf : wf empty_db.
Proof. split; simpl; constructor. Qed.

(** Creating conversations keeps every group within bounds. *)
Lemma post_groups_ok u ty ps nm d :
  groups_ok d → groups_ok (ConversationsRouter.post u ty ps nm d).1.
Proof.
  intros Hd. unfold ConversationsRouter.post.
  repeat case_match; simplify_eq/=; try done.
  all: match goal with
       | H : Conversation.create _ _ _ _ _ _ = inr _ |- _ =>
           apply create_inr in H as (-> & _ & Hty & Hps)
       end.
  all: apply Forall_app; split; [done|]; apply Forall_singleton.
  all: intros Hgroup; rewrite Hty in Hgroup; try done.
  rewrite Hps. split; [apply NoDup_spreadSet|].
  repeat match goal with
         | H : (_ <? _) = false |- _ => apply Nat.ltb_ge in H
         end.
  change (Js.spreadSet (u :: l)) with (u :: Js.spreadSetFrom [u] l).
  simpl length. lia.
Qed.

(** * Further properties of the gateway *)

(** ** Rooms *)

(** X1.  A socket that connects for user [u] is joined to exactly its own
    room, the user's room, and the room of every conversation [u]
    participates in at that moment, and to no other room. *)
Theorem X1_connection_joins_rooms now sid u s :
  ∃ k, sockets (io (step now (Connect sid (Some u)) s).1) !! sid = Some k
       ∧ data_userId k = u
       ∧ ∀ r, r ∈ rooms k ↔
              r = SocketRoom sid ∨ r = UserRoom u
              ∨ ∃ cid, r = ConversationRoom cid ∧ participates u cid (db s).
Proof.
  simpl. eexists. split; [apply lookup_insert_eq|]. split; [done|].
  intros r. simpl.
  rewrite !elem_of_union, !elem_of_singleton, elem_of_list_to_set,
    list_elem_of_fmap.
  split.
  - intros [[->| ->]|(c & -> & Hc)]; [by left | by right; left |].
    right; right. exists (Conversation._id c). split; [done|].
    apply elem_of_filter_bool in Hc as [Hc Hp]. apply includes_true in Hp.
    apply participates_iff. by exists c.
  - intros [->|[->|(cid & -> & Hp)]]; [by left; left | by left; right |].
    right. apply participates_iff in Hp as (c & Hc & <- & Hu).
    exists c. split; [done|]. apply elem_of_filter_bool. split; [done|].
    by apply includes_true.
Qed.

Lemma joined_alter g sid (f : gset Room → gset Room) r sid' :
  sid' ∈ joined {| onlineUsers := onlineUsers g;
                   sockets := alter (λ k, {| data_userId := data_userId k;
                                             rooms := f (rooms k) |})
                                sid (sockets g) |} r
  ↔ ∃ k, sockets g !! sid' = Some k
         ∧ r ∈ (if decide (sid = sid') then f (rooms k) else rooms k).
Proof.
  rewrite elem_of_joined. simpl. rewrite lookup_alter.
  destruct (decide (sid = sid')) as [->|Hne].
  - destruct (sockets g !! sid') as [k|]; simpl.
    + split.
      * intros (k0 & [= <-] & Hr). exists k. split; [done | exact Hr].
      * intros (k0 & [= <-] & Hr). eexists. split; [done | exact Hr].
    + split; intros (? & ? & _); done.
  - done.
Qed.

Lemma alter_rooms_id sid (f : gset Room → gset Room) (m : gmap string Socket) :
  (∀ k, m !! sid = Some k → f (rooms k) = rooms k) →
  alter (λ k, {| data_userId := data_userId k; rooms := f (rooms k) |}) sid m
  = m.
Proof.
  intros Hf. apply map_eq. intros i. rewrite lookup_alter.
  destruct (decide (sid = i)) as [->|]; [|done].
  destruct (m !! i) as [k|] eqn:E; [|done]. simpl.
  rewrite (Hf k eq_refl). by destruct k.
Qed.

Lemma alter_rooms_compose sid (f g : gset Room → gset Room)
    (m : gmap string Socket) :
  alter (λ k, {| data_userId := data_userId k; rooms := f (rooms k) |}) sid
    (alter (λ k, {| data_userId := data_userId k; rooms := g (rooms k) |})
       sid m)
  = alter (λ k, {| data_userId := data_userId k; rooms := f (g (rooms k)) |})
      sid m.
Proof.
  apply map_eq. intros i. rewrite !lookup_alter.
  destruct (decide (sid = i)) as [->|]; [|done].
  rewrite decide_True by done. by destruct (m !! i).
Qed.

(** X2.  [conversation:join] and [conversation:leave] ask nothing about
    the conversation: for any connected socket and any id, joining puts
    the socket in the room and leaving takes it out, without touching the
    store, emitting anything, or changing any other socket or room.
    Joining twice is joining once, and leaving a room the socket is not
    in, or joining and then leaving it, gives back the server as it was. *)
Theorem X2_join_and_leave_rooms sid u cid now s :
  data_userId <$> sockets (io s) !! sid = Some u →
  let join := step now (SocketEvent sid (conversation_join cid)) in
  let leave := step now (SocketEvent sid (conversation_leave cid)) in
  db (join s).1 = db s ∧ (join s).2 = Emitted []
  ∧ sid ∈ joined (io (join s).1) (ConversationRoom cid)
  ∧ (join (join s).1).1 = (join s).1
  ∧ db (leave s).1 = db s ∧ (leave s).2 = Emitted []
  ∧ (sid ∉ joined (io (leave s).1) (ConversationRoom cid))
  ∧ (sid ∉ joined (io s) (ConversationRoom cid) →
     (leave s).1 = s ∧ (leave (join s).1).1 = s)
  ∧ (∀ sid' r, sid' ≠ sid ∨ r ≠ ConversationRoom cid →
       (sid' ∈ joined (io (join s).1) r ↔ sid' ∈ joined (io s) r)
       ∧ (sid' ∈ joined (io (leave s).1) r ↔ sid' ∈ joined (io s) r)).
Proof.
  intros Hsid join leave.
  assert (∀ s0, data_userId <$> sockets (io s0) !! sid = Some u →
    join s0 = (with_io (socket_join sid (ConversationRoom cid) (io s0)) s0,
               Emitted [])
    ∧ leave s0 = (with_io (socket_leave sid (ConversationRoom cid) (io s0)) s0,
                  Emitted [])) as Hstep.
  { intros s0 H0. subst join leave. unfold step.
    by rewrite !(socket_on_lookup sid u) by done. }
  destruct (Hstep s Hsid) as [Hj Hl]. rewrite Hj, Hl. cbn [fst snd].
  destruct (sockets (io s) !! sid) as [k|] eqn:Hk; [|done].
  assert (data_userId <$>
            sockets (io (with_io (socket_join sid (ConversationRoom cid)
                                    (io s)) s)) !! sid = Some u) as Hsid'.
  { simpl. rewrite lookup_alter. rewrite decide_True by done.
    by rewrite Hk. }
  destruct (Hstep _ Hsid') as [Hjj Hlj]. rewrite Hjj, Hlj. cbn [fst snd].
  clear Hstep Hj Hl Hjj Hlj Hsid'.
  unfold with_io, socket_join, socket_leave. cbn [io db onlineUsers sockets].
  split; [done|]. split; [done|]. split.
  { apply (joined_alter (io s) sid (λ rs, {[ConversationRoom cid]} ∪ rs)).
    exists k. split; [done|].
    rewrite decide_True by done. apply elem_of_union. left.
    by apply elem_of_singleton. }
  split.
  { f_equal. f_equal.
    rewrite (alter_rooms_compose sid (λ rs, {[ConversationRoom cid]} ∪ rs)
               (λ rs, {[ConversationRoom cid]} ∪ rs)). apply map_eq. intros i.
    rewrite !lookup_alter. destruct (decide (sid = i)) as [<-|]; [|done].
    rewrite ?decide_True by done. rewrite Hk. simpl. do 2 f_equal.
    apply set_eq. intros x. rewrite !elem_of_union. tauto. }
  split; [done|]. split; [done|]. split.
  { intros Hin.
    apply (joined_alter (io s) sid (λ rs, rs ∖ {[ConversationRoom cid]}))
      in Hin as (k' & Hk' & Hin).
    rewrite decide_True in Hin by done.
    apply elem_of_difference in Hin as [_ Hin]. apply Hin.
    by apply elem_of_singleton. }
  split.
  { intros Hnot.
    assert (ConversationRoom cid ∉ rooms k) as Hk'.
    { intros Hin. apply Hnot, elem_of_joined. by exists k. }
    destruct s as [d g]. destruct g as [on socks].
    cbn [io db onlineUsers sockets] in *. split.
    - do 2 f_equal.
      apply (alter_rooms_id sid (λ rs, rs ∖ {[ConversationRoom cid]})).
      intros k0. rewrite Hk.
      intros [= <-]. apply set_eq. intros x.
      rewrite elem_of_difference, elem_of_singleton.
      split; [tauto|]. intros Hx. split; [done|]. by intros ->.
    - do 2 f_equal.
      rewrite (alter_rooms_compose sid (λ rs, rs ∖ {[ConversationRoom cid]})
                 (λ rs, {[ConversationRoom cid]} ∪ rs)).
      apply (alter_rooms_id sid
               (λ rs, ({[ConversationRoom cid]} ∪ rs)
                      ∖ {[ConversationRoom cid]})).
      intros k0. rewrite Hk. intros [= <-].
      apply set_eq. intros x.
      rewrite elem_of_difference, elem_of_union, !elem_of_singleton.
      split; [tauto|]. intros Hx. split; [by right|]. by intros ->. }
  intros sid' r Hother. split.
  - rewrite (joined_alter (io s) sid (λ rs, {[ConversationRoom cid]} ∪ rs)),
      elem_of_joined.
    destruct (decide (sid = sid')) as [<-|]; [|done].
    destruct Hother as [|Hr]; [done|].
    split; intros (k' & Hk' & Hin); exists k'; split; try done.
    + apply elem_of_union in Hin as [Hin%elem_of_singleton|]; done.
    + apply elem_of_union. by right.
  - rewrite (joined_alter (io s) sid (λ rs, rs ∖ {[ConversationRoom cid]})),
      elem_of_joined.
    destruct (decide (sid = sid')) as [<-|]; [|done].
    destruct Hother as [|Hr]; [done|].
    split; intros (k' & Hk' & Hin); exists k'; split; try done.
    + by apply elem_of_difference in Hin as [? _].
    + apply elem_of_difference. split; [done|].
      by intros ->%elem_of_singleton.
Qed.

Lemma X2_witness :
  data_userId <$> sockets (io ex_live) !! "sD" = Some 4%N
  ∧ "sD" ∈ joined
      (io (step 50 (SocketEvent "sD" (conversation_join 101)) ex_live).1)
      (ConversationRoom 101).
Proof.
  assert (data_userId <$> sockets (io ex_live) !! "sD" = Some 4%N) as H1
    by (vm_compute; reflexivity).
  split; [exact H1|].
  exact (proj1 (proj2 (proj2
           (X2_join_and_leave_rooms "sD" 4%N 101%N 50%Z ex_live H1)))).
Defined.

Lemma send_valid_emits sid u now cid content s :
  participates u cid (db s) → passes_schema cid (db s) →
  valid_content content →
  ∃ pm, (on_message_send sid u now cid content s).2
        = [emit (io_to (ConversationRoom cid)) (message_receive pm cid)].
Proof.
  intros Hpart Hschema Hvalid.
  destruct (findOne_participant_Some u cid (db s) Hpart)
    as (c & Hfind & Hc & Hid & _).
  unfold on_message_send, on_message_send_with. rewrite Hfind.
  unfold Message.createWith. rewrite castString_valid by done.
  cbn [messages conversations set_conversations set_messages next_oid].
  rewrite save_inr by (rewrite validate_set_lastMessage; by apply Hschema).
  by eexists.
Qed.

Lemma send_keeps_io schema sid u now cid content s :
  io (on_message_send_with schema sid u now cid content s).1 = io s.
Proof.
  unfold on_message_send_with.
  destruct (Conversation.findOne _ _); [|done].
  destruct (Message.createWith _ _ _ _ _ _ _ _) as [|[]]; [done|].
  simpl. by destruct (Conversation.save _ _).
Qed.

(** X3.  Because joining a room is not checked against the conversation's
    participants, any connected socket that has asked to join the room of
    a conversation, whether or not its user participates in it, is
    among the connections the next valid message of a participant is
    delivered to, when the conversation's stored document passes its
    schema (so that the handler's [save] goes through). *)
Theorem X3_joined_socket_receives_messages
    sid v sid' u cid content t1 t2 s :
  data_userId <$> sockets (io s) !! sid = Some v →
  data_userId <$> sockets (io s) !! sid' = Some u →
  participates u cid (db s) → passes_schema cid (db s) →
  valid_content content →
  let s1 := (step t1 (SocketEvent sid (conversation_join cid)) s).1 in
  ∃ pm,
    (step t2 (SocketEvent sid' (message_send cid content)) s1).2
    = Emitted [emit (io_to (ConversationRoom cid)) (message_receive pm cid)]
    ∧ sid ∈ recipients
              (io (step t2 (SocketEvent sid' (message_send cid content)) s1).1)
              (io_to (ConversationRoom cid)).
Proof.
  intros Hsid Hsid' Hpart Hschema Hvalid s1.
  assert (s1 = with_io (socket_join sid (ConversationRoom cid) (io s)) s)
    as Hs1.
  { subst s1. unfold step. by rewrite (socket_on_lookup sid v). }
  assert (data_userId <$> sockets (io s1) !! sid' = Some u) as Hsid1.
  { rewrite <- Hsid'.
    apply (step_keeps_socket sid' (t1, SocketEvent sid (conversation_join cid))
             s). done. }
  destruct (send_valid_emits sid' u t2 cid content s1) as [pm Hpm];
    [by rewrite Hs1 | by rewrite Hs1 | done |].
  exists pm. unfold step. rewrite (socket_on_lookup sid' u) by done.
  destruct (on_message_send sid' u t2 cid content s1) as [s2 es] eqn:E.
  cbn [fst snd] in *. split; [by rewrite Hpm|].
  assert (io s2 = io s1) as ->.
  { pose proof (send_keeps_io Message.contentSchema sid' u t2 cid content s1)
      as H.
    unfold on_message_send in E. by rewrite E in H. }
  rewrite Hs1. simpl.
  destruct (sockets (io s) !! sid) as [k|] eqn:Hk; [|done].
  apply (joined_alter (io s) sid (λ rs, {[ConversationRoom cid]} ∪ rs)).
  exists k. split; [done|]. rewrite decide_True by done.
  apply elem_of_union. left. by apply elem_of_singleton.
Qed.

Lemma X3_witness :
  data_userId <$> sockets (io ex_live) !! "sD" = Some 4%N
  ∧ data_userId <$> sockets (io ex_live) !! "sA" = Some 1%N
  ∧ ¬ participates 4 101 (db ex_live)
  ∧ participates 1 101 (db ex_live)
  ∧ passes_schema 101 (db ex_live)
  ∧ valid_content str_hi
  ∧ "sD" ∈ recipients
      (io (step 51 (SocketEvent "sA" (message_send 101 str_hi))
             (step 50 (SocketEvent "sD" (conversation_join 101)) ex_live).1).1)
      (io_to (ConversationRoom 101)).
Proof.
  assert (data_userId <$> sockets (io ex_live) !! "sD" = Some 4%N) as H1
    by (vm_compute; reflexivity).
  assert (data_userId <$> sockets (io ex_live) !! "sA" = Some 1%N) as H2
    by (vm_compute; reflexivity).
  assert (¬ participates 4 101 (db ex_live)) as H0 by compute_done.
  assert (participates 1 101 (db ex_live)) as H3 by compute_done.
  assert (passes_schema 101 (db ex_live)) as H5.
  { intros c Hc _. revert c Hc. apply Forall_forall. repeat constructor. }
  assert (valid_content str_hi) as H4
    by (split; [by vm_compute | vm_compute; lia]).
  repeat (split; [assumption|]).
  destruct (X3_joined_socket_receives_messages "sD" 4%N "sA" 1%N 101%N str_hi
              50%Z 51%Z ex_live H1 H2 H3 H5 H4) as (pm & _ & Hin).
  exact Hin.
Defined.

Lemma step_stays_joined sid cid r s :
  stays_in sid cid r →
  sid ∈ joined (io s) (ConversationRoom cid) →
  sid ∈ joined (io (step r.1 r.2 s).1) (ConversationRoom cid).
Proof.
  destruct r as [now [sid' [u|]|sid' ev|u call]]; unfold stays_in; simpl;
    intros Hstay Hin; try done.
  - apply elem_of_joined in Hin as (k & Hk & Hr). apply elem_of_joined.
    exists k. simpl. by rewrite lookup_insert_ne.
  - unfold socket_on. destruct (sockets (io s) !! sid') as [k'|]; [|done].
    apply elem_of_joined in Hin as (k & Hk & Hr).
    destruct ev; [simpl | simpl | | simpl | simpl | simpl | simpl].
    + apply (joined_alter (io s) sid'
               (λ rs, {[ConversationRoom conversationId]} ∪ rs)).
      exists k. split; [done|]. case_decide; [|done].
      apply elem_of_union. by right.
    + apply (joined_alter (io s) sid'
               (λ rs, rs ∖ {[ConversationRoom conversationId]})).
      exists k. split; [done|]. case_decide; [|done].
      apply elem_of_difference. split; [done|].
      intros [= ->]%elem_of_singleton. by destruct Hstay.
    + pose proof (send_keeps_io Message.contentSchema sid' (data_userId k')
                    now conversationId content s) as Hio.
      unfold on_message_send.
      destruct (on_message_send_with _ _ _ _ _ _ _) as [s' es].
      cbn [fst] in *. rewrite Hio. apply elem_of_joined. by exists k.
    + apply elem_of_joined. by exists k.
    + apply elem_of_joined. by exists k.
    + apply elem_of_joined. by exists k.
    + apply elem_of_joined. exists k. simpl. by rewrite lookup_delete_ne.
  - by destruct (rest u now call (db s)).
Qed.

(** X4.  A socket stays in the room of a conversation until it leaves the
    room or disconnects.  Nothing else takes it out: not the removal of
    its user from the group, not the user's own leaving of the group, not
    the deletion of the conversation, all of which are REST calls that
    never reach the rooms. *)
Theorem X4_room_membership_outlives_participation sid cid trace s :
  Forall (stays_in sid cid) trace →
  sid ∈ joined (io s) (ConversationRoom cid) →
  sid ∈ joined (io (run trace s)) (ConversationRoom cid).
Proof.
  revert s. induction trace as [|[now r] trace IH]; intros s Hall Hin; [done|].
  apply Forall_cons in Hall as [Hr Hall]. simpl. apply IH; [done|].
  by apply (step_stays_joined sid cid (now, r) s).
Qed.

Lemma X4_witness :
  Forall (stays_in "sB" 101)
    [(30, Rest 1 (PUT_members 101 "remove" (Some [2%N])));
     (31, SocketEvent "sA" (message_send 101 str_hi));
     (32, Rest 1 (DELETE_conversation 101))]%Z
  ∧ "sB" ∈ joined (io ex_live) (ConversationRoom 101)
  ∧ ¬ participates 2 101
        (db (run [(30, Rest 1 (PUT_members 101 "remove" (Some [2%N])))]%Z
               ex_live))
  ∧ "sB" ∈ joined
      (io (run [(30, Rest 1 (PUT_members 101 "remove" (Some [2%N])));
                (31, SocketEvent "sA" (message_send 101 str_hi));
                (32, Rest 1 (DELETE_conversation 101))]%Z ex_live))
      (ConversationRoom 101).
Proof.
  assert (Forall (stays_in "sB" 101)
    [(30, Rest 1 (PUT_members 101 "remove" (Some [2%N])));
     (31, SocketEvent "sA" (message_send 101 str_hi));
     (32, Rest 1 (DELETE_conversation 101))]%Z) as H1
    by (repeat constructor).
  assert ("sB" ∈ joined (io ex_live) (ConversationRoom 101)) as H2
    by compute_done.
  split; [exact H1|]. split; [exact H2|]. split; [compute_done|].
  exact (X4_room_membership_outlives_participation "sB" 101%N _ ex_live H1 H2).
Defined.

(** X5.  [typing:start] and [typing:stop] are a pure relay: for any
    connected socket and any conversation id the server is left as it
    was, and the one [typing:update] emitted, carrying the socket's user
    and the flag, reaches the sockets joined to the conversation's room
    other than the sender, which never gets its own indicator back. *)
Theorem X5_typing_is_relayed_to_the_others sid u cid now (isTyping : bool) s :
  data_userId <$> sockets (io s) !! sid = Some u →
  step now (SocketEvent sid (if isTyping then typing_start cid
                             else typing_stop cid)) s
  = (s, Emitted [emit (socket_to sid (ConversationRoom cid))
                      (typing_update u cid isTyping)])
  ∧ (sid ∉ recipients (io s) (socket_to sid (ConversationRoom cid)))
  ∧ (∀ sid', sid' ≠ sid →
       (sid' ∈ recipients (io s) (socket_to sid (ConversationRoom cid))
        ↔ ∃ k, sockets (io s) !! sid' = Some k
               ∧ ConversationRoom cid ∈ rooms k)).
Proof.
  intros Hsid. split; [|split].
  - unfold step. destruct isTyping; by rewrite (socket_on_lookup sid u).
  - simpl. rewrite elem_of_difference, elem_of_singleton. tauto.
  - intros sid' Hne. simpl.
    rewrite elem_of_difference, elem_of_singleton, elem_of_joined. tauto.
Qed.

Lemma X5_witness :
  data_userId <$> sockets (io ex_live) !! "sA" = Some 1%N
  ∧ step 50 (SocketEvent "sA" (typing_start 101)) ex_live
    = (ex_live,
       Emitted [emit (socket_to "sA" (ConversationRoom 101))
                     (typing_update 1 101 true)]).
Proof.
  assert (data_userId <$> sockets (io ex_live) !! "sA" = Some 1%N) as H1
    by (vm_compute; reflexivity).
  split; [exact H1|].
  exact (proj1 (X5_typing_is_relayed_to_the_others "sA" 1%N 101%N 50%Z true
                  ex_live H1)).
Defined.

(** ** The presence registry *)

Lemma findById_update_ne u u' f (us : list User.t) :
  (∀ x, User._id (f x) = User._id x) → u' ≠ u →
  User.findById u' (User.findByIdAndUpdate u f us) = User.findById u' us.
Proof.
  intros Hf Hne. unfold User.findById.
  induction us as [|x us IH]; [done|]. simpl.
  destruct (N.eqb_spec (User._id x) u) as [E|E]; simpl.
  - rewrite Hf.
    destruct (N.eqb_spec (User._id x) u') as [E'|E']; [congruence | done].
  - by rewrite IH.
Qed.

Lemma findById_update_inv u f (us : list User.t) doc' :
  (∀ x, User._id (f x) = User._id x) →
  User.findById u (User.findByIdAndUpdate u f us) = Some doc' →
  ∃ doc, User.findById u us = Some doc ∧ doc' = f doc.
Proof.
  intros Hf. destruct (User.findById u us) as [doc|] eqn:E.
  - rewrite (findById_update u f us doc Hf E). intros [= <-]. by exists doc.
  - assert (User.findByIdAndUpdate u f us = us) as ->; [|by rewrite E].
    unfold User.findById in E. induction us as [|x us IH]; [done|].
    simpl in *. destruct (User._id x =? u)%N; [done|]. by rewrite IH.
Qed.

Lemma rest_keeps_users u now call d : users (rest u now call d).1 = users d.
Proof.
  destruct call; simpl; try done.
  - unfold ConversationsRouter.post. by repeat case_match; simplify_eq/=.
  - unfold ConversationsRouter.put_members.
    by repeat case_match; simplify_eq/=.
  - unfold ConversationsRouter.put_name. by repeat case_match; simplify_eq/=.
  - unfold ConversationsRouter.delete. by repeat case_match; simplify_eq/=.
  - unfold MessagesRouter.post. by repeat case_match; simplify_eq/=.
  - unfold MessagesRouter.put_read. by repeat case_match; simplify_eq/=.
Qed.

Lemma send_keeps_users schema sid u now cid content s :
  users (db (on_message_send_with schema sid u now cid content s).1)
  = users (db s).
Proof.
  unfold on_message_send_with.
  destruct (Conversation.findOne _ _); [|done].
  destruct (Message.createWith _ _ _ _ _ _ _ _) as [|[]]; [done|].
  simpl. by destruct (Conversation.save _ _).
Qed.

(** What a request does to the user documents and to the registry: a
    connection sets the user online in both, a disconnect sets the user
    offline in both, and nothing else touches either. *)
Lemma step_presence now r s :
  (users (db (step now r s).1) = users (db s)
   ∧ onlineUsers (io (step now r s).1) = onlineUsers (io s))
  ∨ (∃ u sid,
       users (db (step now r s).1)
       = User.findByIdAndUpdate u (set_isOnline true) (users (db s))
       ∧ onlineUsers (io (step now r s).1) = <[u:=sid]> (onlineUsers (io s)))
  ∨ (∃ u,
       users (db (step now r s).1)
       = User.findByIdAndUpdate u (set_offline now) (users (db s))
       ∧ onlineUsers (io (step now r s).1) = delete u (onlineUsers (io s))).
Proof.
  destruct r as [sid [u|]|sid ev|u call]; simpl.
  - right; left. by exists u, sid.
  - by left.
  - unfold socket_on. destruct (sockets (io s) !! sid) as [k|]; [|by left].
    destruct ev; [by left | by left | | by left | by left | by left |].
    + left. unfold on_message_send.
      pose proof (send_keeps_users Message.contentSchema sid (data_userId k)
                    now conversationId content s) as Hu.
      pose proof (send_keeps_io Message.contentSchema sid (data_userId k)
                    now conversationId content s) as Hio.
      destruct (on_message_send_with _ _ _ _ _ _ _) as [s' es].
      cbn [fst] in *. by rewrite Hu, Hio.
    + right; right. by exists (data_userId k).
  - left. pose proof (rest_keeps_users u now call (db s)) as Hu.
    by destruct (rest u now call (db s)).
Qed.

(** X6.  The durable online flag follows the presence registry: if every
    user document says online exactly when the registry has an entry for
    that user, it still does after any sequence of requests. *)
Theorem X6_online_flag_agrees_with_registry trace s :
  presence_agrees s → presence_agrees (run trace s).
Proof.
  revert s. induction trace as [|[now r] trace IH]; intros s Hs; [done|].
  simpl. apply IH. clear IH. intros u0 doc Hdoc. unfold isUserOnline.
  destruct (step_presence now r s)
    as [[Hu Ho]|[(u & sid & Hu & Ho)|(u & Hu & Ho)]];
    rewrite Hu in Hdoc; rewrite Ho.
  - by apply Hs.
  - destruct (decide (u0 = u)) as [->|Hne].
    + apply findById_update_inv in Hdoc as (doc0 & _ & ->); [|done].
      by rewrite lookup_insert_eq.
    + rewrite findById_update_ne in Hdoc by done.
      rewrite lookup_insert_ne by done. by apply Hs.
  - destruct (decide (u0 = u)) as [->|Hne].
    + apply findById_update_inv in Hdoc as (doc0 & _ & ->); [|done].
      by rewrite lookup_delete_eq.
    + rewrite findById_update_ne in Hdoc by done.
      rewrite lookup_delete_ne by done. by apply Hs.
Qed.

Lemma X6_witness :
  presence_agrees ex_server
  ∧ presence_agrees
      (run [(20, Connect "sA" (Some 1%N));
            (30, Rest 1 (PUT_read 101));
            (40, SocketEvent "sA" disconnect)]%Z ex_server).
Proof.
  assert (presence_agrees ex_server) as H1.
  { intros u doc [Hin _]%find_Some_elem.
    unfold isUserOnline. simpl. rewrite lookup_empty.
    repeat (apply elem_of_cons in Hin as [->|Hin]; [by vm_compute|]).
    by apply elem_of_nil in Hin. }
  split; [exact H1|].
  exact (X6_online_flag_agrees_with_registry _ ex_server H1).
Defined.

Lemma step_registry_sound now r s :
  match r with
  | Connect sid _ => sockets (io s) !! sid = None
  | _ => True
  end →
  registry_sound (io s) → registry_sound (io (step now r s).1).
Proof.
  unfold registry_sound, getSocketId.
  destruct r as [sid [u|]|sid ev|u call]; simpl; intros Hfresh Hs; try done.
  - intros u0 sid0. destruct (decide (u0 = u)) as [->|Hne].
    + rewrite lookup_insert_eq. intros [= <-]. by rewrite lookup_insert_eq.
    + rewrite lookup_insert_ne by done. intros H0.
      pose proof (Hs u0 sid0 H0) as Hlive.
      rewrite lookup_insert_ne; [done|]. intros ->.
      by rewrite Hfresh in Hlive.
  - unfold socket_on. destruct (sockets (io s) !! sid) as [k|] eqn:Hk; [|done].
    destruct ev; [simpl | simpl | | simpl | simpl | simpl | simpl]; try done.
    + intros u0 sid0 H0. rewrite lookup_alter. specialize (Hs u0 sid0 H0).
      case_decide; [subst|done]. by destruct (sockets (io s) !! sid0).
    + intros u0 sid0 H0. rewrite lookup_alter. specialize (Hs u0 sid0 H0).
      case_decide; [subst|done]. by destruct (sockets (io s) !! sid0).
    + pose proof (send_keeps_io Message.contentSchema sid (data_userId k)
                    now conversationId content s) as Hio.
      unfold on_message_send.
      destruct (on_message_send_with _ _ _ _ _ _ _) as [s' es].
      cbn [fst] in *. by rewrite Hio.
    + intros u0 sid0. destruct (decide (u0 = data_userId k)) as [->|Hne].
      * by rewrite lookup_delete_eq.
      * rewrite lookup_delete_ne by done. intros H0.
        pose proof (Hs u0 sid0 H0) as Hlive.
        rewrite lookup_delete_ne; [done|]. intros ->.
        rewrite Hk in Hlive. simpl in Hlive. congruence.
  - by destruct (rest u now call (db s)).
Qed.

(** X7.  As long as connections are opened under socket ids not in use,
    every entry of the presence registry names a socket that is connected
    and belongs to that user: whenever [getSocketId] answers, the socket
    it names can be pushed to, and [isUserOnline] is never true of a user
    without a connection. *)
Theorem X7_registry_names_live_sockets trace s :
  registry_sound (io s) → connects_fresh trace s →
  registry_sound (io (run trace s))
  ∧ (∀ u, isUserOnline u (io (run trace s)) = true →
          ∃ sid k, getSocketId u (io (run trace s)) = Some sid
                   ∧ sockets (io (run trace s)) !! sid = Some k
                   ∧ data_userId k = u).
Proof.
  intros Hs Hfresh.
  assert (registry_sound (io (run trace s))) as Hsound.
  { revert s Hs Hfresh.
    induction trace as [|[now r] trace IH]; intros s Hs Hfresh; [done|].
    destruct Hfresh as [Hr Hfresh].
    simpl. apply IH; [|done]. by apply step_registry_sound. }
  split; [done|]. intros u Hon. unfold isUserOnline in Hon.
  apply bool_decide_eq_true in Hon as [sid Hsid].
  specialize (Hsound u sid Hsid).
  destruct (sockets (io (run trace s)) !! sid) as [k|] eqn:Hk; [|done].
  exists sid, k. simpl in Hsound. by simplify_eq.
Qed.

Lemma X7_witness :
  registry_sound (io ex_server)
  ∧ connects_fresh
      [(20, Connect "sA" (Some 1%N));
       (21, Connect "sB" (Some 1%N));
       (40, SocketEvent "sA" disconnect)]%Z ex_server
  ∧ registry_sound
      (io (run [(20, Connect "sA" (Some 1%N));
                (21, Connect "sB" (Some 1%N));
                (40, SocketEvent "sA" disconnect)]%Z ex_server)).
Proof.
  assert (registry_sound (io ex_server)) as H1.
  { intros u sid H. unfold getSocketId in H. simpl in H.
    by rewrite lookup_empty in H. }
  assert (connects_fresh
            [(20, Connect "sA" (Some 1%N));
             (21, Connect "sB" (Some 1%N));
             (40, SocketEvent "sA" disconnect)]%Z ex_server) as H2
    by (repeat split; by vm_compute).
  split; [exact H1|]. split; [exact H2|].
  exact (proj1 (X7_registry_names_live_sockets _ ex_server H1 H2)).
Defined.

(** X8.  The registry keeps one socket per user.  When a user connects on
    a second socket and the first one then closes, the user's entry is
    deleted and the document is set offline, although the second socket
    is still connected for that user. *)
Theorem X8_closing_older_socket_sets_user_offline sid1 sid2 u t1 t2 t3 s :
  sid1 ≠ sid2 →
  let s3 := run [(t1, Connect sid1 (Some u));
                 (t2, Connect sid2 (Some u));
                 (t3, SocketEvent sid1 disconnect)] s in
  data_userId <$> sockets (io s3) !! sid2 = Some u
  ∧ isUserOnline u (io s3) = false
  ∧ getSocketId u (io s3) = None
  ∧ (∀ doc, User.findById u (users (db s3)) = Some doc →
            User.isOnline doc = false ∧ User.lastSeen doc = t3).
Proof.
  intros Hne s3. subst s3. cbn [run fst snd step connect].
  set (s1 := (on_connection sid1 u s).1).
  set (s2 := (on_connection sid2 u s1).1).
  assert (data_userId <$> sockets (io s2) !! sid1 = Some u) as H1.
  { subst s2 s1. simpl. rewrite lookup_insert_ne by done.
    by rewrite lookup_insert_eq. }
  destruct (on_connection sid1 u s) as [s1' e1] eqn:E1.
  destruct (on_connection sid2 u s1') as [s2' e2] eqn:E2.
  subst s1 s2. cbn [fst] in *.
  rewrite (socket_on_lookup sid1 u) by done. simpl.
  split; [|split; [|split]].
  - rewrite lookup_delete_ne by done.
    injection E2 as <- _. simpl. by rewrite lookup_insert_eq.
  - unfold isUserOnline. simpl. rewrite lookup_delete_eq.
    apply bool_decide_eq_false_2. by intros [? ?].
  - unfold getSocketId. simpl. apply lookup_delete_eq.
  - intros doc Hdoc.
    apply findById_update_inv in Hdoc as (doc0 & _ & ->); done.
Qed.

Lemma X8_witness :
  "sA" ≠ "sA2"
  ∧ isUserOnline 1
      (io (run [(20, Connect "sA" (Some 1%N));
                (21, Connect "sA2" (Some 1%N));
                (40, SocketEvent "sA" disconnect)]%Z ex_server))
    = false.
Proof.
  assert ("sA" ≠ "sA2") as H1 by done.
  split; [exact H1|].
  exact (proj1 (proj2 (X8_closing_older_socket_sets_user_offline
                         "sA" "sA2" 1%N 20 21 40 ex_server H1))).
Defined.

(** * Further properties of the REST handlers *)

(** ** Sending over REST *)

Lemma rest_guard content :
  (length content =? 0) || (length (Js.trim content) =? 0) = true
  ↔ Js.trim content = [].
Proof.
  rewrite orb_true_iff, !Nat.eqb_eq. split.
  - intros [H|H].
    + by destruct content.
    + by destruct (Js.trim content).
  - intros ->. by right.
Qed.

(** X9.  The REST fallback for sending writes to the store exactly what
    the gateway's [message:send] writes, for every caller, conversation
    and content.  Its answer is 400 when the trimmed content is empty
    (before the conversation is even looked up); 404 for a caller who is
    not a participant; 500, with nothing written, when the schema refuses
    content longer than 2000 code units; 201 for a participant, valid
    content and a conversation whose stored document passes its schema;
    and 500 again when that document does not pass its schema (a group
    renamed past 50 code units): then [save] is refused after the message
    was written, so the message is stored all the same while the
    conversation keeps its old lastMessage. *)
Theorem X9_rest_send_writes_what_the_gateway_writes sid u now cid content s :
  (MessagesRouter.post u now cid content (db s)).1
  = db (on_message_send sid u now cid content s).1
  ∧ (Js.trim content = [] →
     (MessagesRouter.post u now cid content (db s)).2
     = respond 400 (json_error "Conversation ID and content are required"))
  ∧ (Js.trim content ≠ [] → ¬ participates u cid (db s) →
     (MessagesRouter.post u now cid content (db s)).2
     = respond 404 (json_error "Conversation not found"))
  ∧ (participates u cid (db s) → 2000 < length (Js.trim content) →
     MessagesRouter.post u now cid content (db s)
     = (db s, respond 500 (json_error "Failed to send message")))
  ∧ (participates u cid (db s) → passes_schema cid (db s) →
     valid_content content →
     status (MessagesRouter.post u now cid content (db s)).2 = 201)
  ∧ (∀ c, wf (db s) → c ∈ conversations (db s) →
          Conversation._id c = cid → u ∈ Conversation.participants c →
          Conversation.validate c ≠ None → valid_content content →
          (MessagesRouter.post u now cid content (db s)).2
          = respond 500 (json_error "Failed to send message")
          ∧ messages (MessagesRouter.post u now cid content (db s)).1
            = messages (db s)
              ++ [Message.mk (oid (db s)) cid u
                    (Bson.asStored (Js.trim content)) [u] now]
          ∧ conversations (MessagesRouter.post u now cid content (db s)).1
            = conversations (db s)).
Proof.
  unfold MessagesRouter.post, on_message_send, on_message_send_with,
    Message.create.
  destruct ((length content =? 0) || (length (Js.trim content) =? 0)) eqn:G.
  - apply rest_guard in G as Hempty.
    split; [|split; [done|split; [done|split; [|split]]]].
    + destruct (Conversation.findOne _ _); [|done].
      unfold Message.createWith. rewrite Hempty. done.
    + rewrite Hempty. simpl. lia.
    + intros _ _ [Hne _]. done.
    + intros c _ _ _ _ _ [Hne _]. done.
  - assert (Js.trim content ≠ []) as Hne.
    { intros H. apply rest_guard in H. congruence. }
    split; [|split; [done|split; [|split; [|split]]]].
    + destruct (Conversation.findOne _ _); [|done].
      destruct (Message.createWith _ _ _ _ _ _ _ _) as [|[]]; [done|].
      simpl. by destruct (Conversation.save _ _).
    + intros _ Hnot. by rewrite findOne_participant_None.
    + intros Hpart Hlong.
      destruct (findOne_participant_Some u cid (db s) Hpart) as (c & -> & _).
      destruct (castString_invalid content) as [kind Hcast].
      { intros [_ Hlen]. lia. }
      unfold Message.createWith. by rewrite Hcast.
    + intros Hpart Hschema Hvalid.
      destruct (findOne_participant_Some u cid (db s) Hpart)
        as (c & -> & Hc & Hid & _).
      unfold Message.createWith. rewrite castString_valid by done.
      cbn [messages conversations set_conversations set_messages next_oid].
      by rewrite save_inr
        by (rewrite validate_set_lastMessage; by apply Hschema).
    + intros c Hwf Hc Hid Hu Hbad Hvalid.
      destruct (findOne_participant_Some u cid (db s))
        as (c' & -> & Hc' & Hid' & _).
      { apply participates_iff. by exists c. }
      assert (c' = c) as ->.
      { apply (NoDup_fmap_eq Conversation._id (conversations (db s)));
          [apply Hwf | done | done | congruence]. }
      unfold Message.createWith. rewrite castString_valid by done.
      cbn [messages conversations set_conversations set_messages next_oid].
      destruct (Conversation.validate c) as [e|] eqn:Ev; [|done].
      by rewrite (save_inl _ e)
        by (by rewrite validate_set_lastMessage).
Qed.

Lemma X9_witness :
  (participates 1 101 (db ex_live) ∧ passes_schema 101 (db ex_live)
   ∧ valid_content str_hi
   ∧ status (MessagesRouter.post 1 50 101 str_hi (db ex_live)).2 = 201)
  ∧ (wf (db ex_renamed)
     ∧ Conversation.mk 101 Conversation.group [1; 2; 3]%N (Some str_51)
         (Some 1%N) None ∈ conversations (db ex_renamed)
     ∧ MessagesRouter.post 2 50 101 str_hi (db ex_renamed)
       = (next_oid
            (set_messages
               (messages (db ex_renamed)
                ++ [Message.mk 200 101 2 str_hi [2%N] 50]) (db ex_renamed)),
          respond 500 (json_error "Failed to send message"))).
Proof.
  assert (participates 1 101 (db ex_live)) as H1 by compute_done.
  assert (passes_schema 101 (db ex_live)) as H3.
  { intros c Hc _. revert c Hc. apply Forall_forall. repeat constructor. }
  assert (valid_content str_hi) as H2
    by (split; [by vm_compute | vm_compute; lia]).
  split.
  - repeat (split; [assumption|]).
    exact (proj1 (proj2 (proj2 (proj2 (proj2
             (X9_rest_send_writes_what_the_gateway_writes "sA" 1%N 50%Z 101%N
                str_hi ex_live))))) H1 H3 H2).
  - assert (wf (db ex_renamed)) as H4 by (split; compute_done).
    assert (Conversation.mk 101 Conversation.group [1; 2; 3]%N (Some str_51)
              (Some 1%N) None ∈ conversations (db ex_renamed)) as H5
      by (vm_compute; right; left).
    repeat (split; [assumption|]).
    destruct (proj2 (proj2 (proj2 (proj2 (proj2
                (X9_rest_send_writes_what_the_gateway_writes "sB" 2%N 50%Z
                   101%N str_hi ex_renamed))))) _ H4 H5 eq_refl
                ltac:(vm_compute; right; left) ltac:(by vm_compute) H2)
      as (Hr & Hm & Hc).
    by vm_compute.
Defined.

(** ** Who may do what *)

(** X10.  A caller who is not a participant of the conversation is
    answered 404 "Conversation not found" when fetching it, when listing
    its messages and when trying to leave or delete it, and the store is
    left as it was. *)
Theorem X10_rest_refuses_non_participants u cid d :
  ¬ participates u cid d →
  (∀ page limit,
     ConversationsRouter.get u cid page limit d
     = respond 404 (json_error "Conversation not found"))
  ∧ (∀ page limit,
       MessagesRouter.get u cid page limit d
       = respond 404 (json_error "Conversation not found"))
  ∧ ConversationsRouter.delete u cid d
    = (d, respond 404 (json_error "Conversation not found")).
Proof.
  intros Hnot. split; [|split].
  - intros. unfold ConversationsRouter.get.
    by rewrite findOne_participant_None.
  - intros. unfold MessagesRouter.get. by rewrite findOne_participant_None.
  - unfold ConversationsRouter.delete. by rewrite findOne_participant_None.
Qed.

Lemma X10_witness :
  ¬ participates 4 101 ex_db
  ∧ ConversationsRouter.delete 4 101 ex_db
    = (ex_db, respond 404 (json_error "Conversation not found")).
Proof.
  assert (¬ participates 4 101 ex_db) as H1 by compute_done.
  split; [exact H1|].
  exact (proj2 (proj2 (X10_rest_refuses_non_participants 4%N 101%N ex_db H1))).
Defined.

Lemma findOne_admin_None u cid d :
  ¬ is_admin_of u cid d →
  ∀ c, c ∈ conversations d →
    (Conversation._id c =? cid)%N
    && Conversation.ConversationType_eqb
         (Conversation.type c) Conversation.group
    && bool_decide (Conversation.admin c = Some u) = false.
Proof.
  intros Hnot c Hc. apply not_true_is_false.
  intros [[Hid Hty]%andb_true_iff Hadm]%andb_true_iff.
  apply Hnot. unfold is_admin_of. apply Exists_exists. exists c.
  split; [done|]. apply N.eqb_eq in Hid. apply bool_decide_eq_true in Hadm.
  split; [done|]. split; [|done]. by destruct (Conversation.type c).
Qed.

Lemma findOneAndUpdate_None flt upd (coll : list Conversation.t) :
  (∀ c, c ∈ coll → flt c = false) →
  Conversation.findOneAndUpdate flt upd coll = (coll, None).
Proof.
  induction coll as [|a coll IH]; [done|]. intros H. simpl.
  rewrite (H a) by left. rewrite IH; [done|]. intros c Hc. apply H. by right.
Qed.

(** X11.  Only the admin of a group can change its members or its name:
    for anybody else, a participant or not, both calls leave the store as
    it was, and a well-formed request is answered 404 "Group not found or
    not admin". *)
Theorem X11_only_the_admin_changes_a_group u cid d :
  ¬ is_admin_of u cid d →
  (∀ action ms,
     (ConversationsRouter.put_members u cid action ms d).1 = d
     ∧ (action ≠ "" → is_Some ms →
        (ConversationsRouter.put_members u cid action ms d).2
        = respond 404 (json_error "Group not found or not admin")))
  ∧ (∀ nm,
       (ConversationsRouter.put_name u cid nm d).1 = d
       ∧ (∀ name, nm = Some name → Js.trim name ≠ [] →
          (ConversationsRouter.put_name u cid nm d).2
          = respond 404 (json_error "Group not found or not admin"))).
Proof.
  intros Hnot. pose proof (findOne_admin_None u cid d Hnot) as Hnone. split.
  - intros action ms. unfold ConversationsRouter.put_members.
    destruct ms as [ms|]; [|split; [done | by intros _ [? ?]]].
    destruct (String.eqb_spec action "") as [->|Hne]; [done|].
    unfold Conversation.findOne.
    by rewrite (proj2 (find_None_elem _ _) Hnone).
  - intros nm. unfold ConversationsRouter.put_name.
    destruct nm as [name|]; [|done].
    destruct (length (Js.trim name) =? 0) eqn:E.
    + apply Nat.eqb_eq in E. split; [done|]. intros ? [= <-] Hne.
      by destruct (Js.trim name).
    + by rewrite findOneAndUpdate_None.
Qed.

Lemma X11_witness :
  ¬ is_admin_of 2 101 ex_db
  ∧ participates 2 101 ex_db
  ∧ ConversationsRouter.put_members 2 101 "remove" (Some [3%N]) ex_db
    = (ex_db, respond 404 (json_error "Group not found or not admin")).
Proof.
  assert (¬ is_admin_of 2 101 ex_db) as H1 by compute_done.
  split; [exact H1|]. split; [compute_done|].
  destruct (proj1 (X11_only_the_admin_changes_a_group 2%N 101%N ex_db H1)
              "remove" (Some [3%N])) as [Hd Hr].
  rewrite (surjective_pairing (ConversationsRouter.put_members _ _ _ _ _)).
  rewrite Hd, Hr; [done | done | by eexists].
Defined.

(** ** Renaming a group *)

Lemma findOneAndUpdate_sans_name flt n (coll : list Conversation.t) :
  sans_name <$> (Conversation.findOneAndUpdate flt
                   (Conversation.set_name n) coll).1
  = sans_name <$> coll.
Proof.
  induction coll as [|a coll IH]; [done|]. simpl.
  destruct (flt a); [done|].
  destruct (Conversation.findOneAndUpdate _ _ coll) as [rest r].
  cbn [fst] in *. rewrite !fmap_cons. by f_equal.
Qed.

Lemma findOneAndUpdate_found flt upd (coll : list Conversation.t) c :
  (∀ c, Conversation._id (upd c) = Conversation._id c) →
  NoDup (Conversation._id <$> coll) →
  List.find flt coll = Some c →
  ∃ coll', Conversation.findOneAndUpdate flt upd coll = (coll', Some (upd c))
           ∧ Conversation.findById (Conversation._id c) coll' = Some (upd c).
Proof.
  intros Hupd. unfold Conversation.findById, Conversation.findOne.
  induction coll as [|a coll IH]; [done|].
  rewrite fmap_cons, NoDup_cons. intros [Ha Hnd]. simpl.
  destruct (flt a) eqn:E.
  - intros [= ->]. eexists. split; [done|]. simpl.
    by rewrite Hupd, N.eqb_refl.
  - intros Hc. destruct (IH Hnd Hc) as (coll' & -> & Hfind).
    eexists. split; [done|]. simpl.
    destruct (N.eqb_spec (Conversation._id a) (Conversation._id c)) as [E'|];
      [|done].
    destruct Ha. rewrite E'. apply list_elem_of_fmap_2.
    by apply find_Some_elem in Hc as [? _].
Qed.

(** X12.  Renaming a group changes nothing but names: users, messages,
    friendships and the id generator are as before, and so is every
    conversation's id, type, participants, admin and lastMessage, in the
    same order.  For the group's admin and a name that is not blank, the
    call is answered 200 and the group carries the trimmed name, of
    whatever length. *)
Theorem X12_rename_changes_only_the_name u cid nm d :
  users (ConversationsRouter.put_name u cid nm d).1 = users d
  ∧ messages (ConversationsRouter.put_name u cid nm d).1 = messages d
  ∧ friendships (ConversationsRouter.put_name u cid nm d).1 = friendships d
  ∧ oid (ConversationsRouter.put_name u cid nm d).1 = oid d
  ∧ sans_name <$> conversations (ConversationsRouter.put_name u cid nm d).1
    = sans_name <$> conversations d
  ∧ (∀ c name,
       wf d → administers u cid c d → nm = Some name → Js.trim name ≠ [] →
       status (ConversationsRouter.put_name u cid nm d).2 = 200
       ∧ Conversation.findById cid
           (conversations (ConversationsRouter.put_name u cid nm d).1)
         = Some (Conversation.set_name (Js.trim name) c)).
Proof.
  unfold ConversationsRouter.put_name.
  destruct nm as [name|]; [|by repeat split].
  destruct (length (Js.trim name) =? 0) eqn:E.
  { do 5 (split; [done|]). intros c name' _ _ [= <-] Hne.
    apply Nat.eqb_eq in E. by destruct (Js.trim name). }
  pose proof (findOneAndUpdate_sans_name
    (λ c, (Conversation._id c =? cid)%N
          && Conversation.ConversationType_eqb
               (Conversation.type c) Conversation.group
          && bool_decide (Conversation.admin c = Some u))
    (Js.trim name) (conversations d)) as Hsans.
  split; [by repeat case_match|]. split; [by repeat case_match|].
  split; [by repeat case_match|]. split; [by repeat case_match|].
  split.
  { destruct (Conversation.findOneAndUpdate _ _ _) as [convs [c|]]; done. }
  intros c name' Hwf Hadm [= <-] Hne.
  pose proof (findOne_admin u cid c d (wf_conversation_ids _ Hwf) Hadm)
    as Hfind.
  destruct (findOneAndUpdate_found _ (Conversation.set_name (Js.trim name))
              _ c (λ _, eq_refl) (wf_conversation_ids _ Hwf) Hfind)
    as (coll' & -> & Hby).
  destruct Hadm as (_ & <- & _). done.
Qed.

Lemma X12_witness :
  wf ex_db
  ∧ administers 1 101
      (Conversation.mk 101 Conversation.group [1; 2; 3]%N
         (Some str_Trip) (Some 1%N) None) ex_db
  ∧ Js.trim str_Duo ≠ []
  ∧ Conversation.findById 101
      (conversations (ConversationsRouter.put_name 1 101 (Some str_Duo)
                        ex_db).1)
    = Some (Conversation.mk 101 Conversation.group [1; 2; 3]%N
              (Some str_Duo) (Some 1%N) None).
Proof.
  assert (wf ex_db) as H1 by (split; compute_done).
  assert (administers 1 101
            (Conversation.mk 101 Conversation.group [1; 2; 3]%N
               (Some str_Trip) (Some 1%N) None) ex_db) as H2.
  { split; [vm_compute; right; left | done]. }
  assert (Js.trim str_Duo ≠ []) as H3 by (by vm_compute).
  repeat (split; [assumption|]).
  exact (proj2 (proj2 (proj2 (proj2 (proj2 (proj2
           (X12_rename_changes_only_the_name 1%N 101%N (Some str_Duo) ex_db)))))
           _ str_Duo H1 H2 eq_refl H3)).
Defined.

(** ** Creating a group *)

Lemma forallb_areFriends d u ps :
  forallb (areFriends d u) ps = true ↔ Forall (λ p, friends u p d) ps.
Proof.
  rewrite forallb_forall, Forall_forall.
  split; intros H p Hp.
  - apply areFriends_spec, H. by apply list_elem_of_In.
  - apply areFriends_spec, H. by apply list_elem_of_In.
Qed.

(** X13.  A group is created (201) exactly when the name, trimmed, is
    neither empty nor longer than 50, the creator together with the
    distinct named users number between 2 and 20, and every named user is
    an accepted friend of the creator.  Then one conversation is appended:
    a group under a fresh id whose participants are the creator followed
    by the distinct named users, whose admin is the creator and which has
    no lastMessage.  In every other case the store is left as it was. *)
Theorem X13_group_creation u ps nm d :
  (status (ConversationsRouter.post u "group" (Some ps) nm d).2 = 201
   ↔ (∃ name, nm = Some name ∧ Js.trim name ≠ []
              ∧ length (Js.trim name) ≤ 50)
     ∧ 2 ≤ length (Js.spreadSet (u :: ps)) ≤ Conversation.MAX_GROUP_SIZE
     ∧ Forall (λ p, friends u p d) ps)
  ∧ (status (ConversationsRouter.post u "group" (Some ps) nm d).2 = 201 →
     ∃ name, nm = Some name
       ∧ (ConversationsRouter.post u "group" (Some ps) nm d).1
         = next_oid
             (set_conversations
                (conversations d
                 ++ [Conversation.mk (oid d) Conversation.group
                       (Js.spreadSet (u :: ps)) (Some (Js.trim name))
                       (Some u) None]) d))
  ∧ (status (ConversationsRouter.post u "group" (Some ps) nm d).2 ≠ 201 →
     (ConversationsRouter.post u "group" (Some ps) nm d).1 = d).
Proof.
  unfold ConversationsRouter.post.
  change (String.eqb "group" "") with false.
  change (String.eqb "group" "personal") with false.
  change (String.eqb "group" "group") with true. cbv iota.
  destruct nm as [name|].
  2:{ split; [|done]. split; [done|]. by intros [(? & ? & _) _]. }
  destruct (length (Js.trim name) =? 0) eqn:E0.
  { apply Nat.eqb_eq in E0. split; [|done]. split; [done|].
    intros [(? & [= <-] & Hne & _) _]. by destruct (Js.trim name). }
  apply Nat.eqb_neq in E0.
  destruct (Conversation.MAX_GROUP_SIZE <? _) eqn:E1.
  { apply Nat.ltb_lt in E1. split; [|done]. split; [done|].
    intros (_ & [_ Hhi] & _). lia. }
  apply Nat.ltb_ge in E1.
  destruct (_ <? 2) eqn:E2.
  { apply Nat.ltb_lt in E2. split; [|done]. split; [done|].
    intros (_ & [Hlo _] & _). lia. }
  apply Nat.ltb_ge in E2.
  destruct (forallb (areFriends d u) ps) eqn:E3.
  2:{ split; [|done]. split; [done|]. intros (_ & _ & Hfr).
      apply forallb_areFriends in Hfr. simpl in *. congruence. }
  apply forallb_areFriends in E3. cbn [negb]. cbv iota.
  unfold Conversation.create, Conversation.validate.
  cbn [Conversation.name fmap option_fmap option_map]. rewrite trim_idemp.
  destruct (50 <? length (Js.trim name)) eqn:E4.
  { apply Nat.ltb_lt in E4. split; [|done]. split; [done|].
    intros [(? & [= <-] & _ & Hlen) _]. lia. }
  apply Nat.ltb_ge in E4. cbn [fst snd status].
  split; [|split; [|done]].
  - split; [intros _|done]. split; [|done].
    exists name. split; [done|]. split; [|done]. by destruct (Js.trim name).
  - intros _. by exists name.
Qed.

Lemma X13_witness :
  status (ConversationsRouter.post 1 "group" (Some [2; 3]%N) (Some str_Duo)
            ex_db).2 = 201
  ∧ length (conversations
              (ConversationsRouter.post 1 "group" (Some [2; 3]%N)
                 (Some str_Duo) ex_db).1) = 3.
Proof.
  assert (status (ConversationsRouter.post 1 "group" (Some [2; 3]%N)
                    (Some str_Duo) ex_db).2 = 201) as H1 by (by vm_compute).
  split; [exact H1|].
  destruct (proj1 (proj2 (X13_group_creation 1%N [2; 3]%N (Some str_Duo)
                            ex_db)) H1) as (name & _ & ->).
  reflexivity.
Defined.

(** ** The shape of conversations *)

Lemma Forall_save (P : Conversation.t → Prop) doc coll :
  Forall P coll → P doc → Forall P (Conversation.updateOne doc coll).
Proof.
  rewrite !Forall_forall. intros Hc Hd c [?|[-> _]]%elem_of_save; auto.
Qed.

Lemma Forall_findOneAndUpdate (P : Conversation.t → Prop) flt upd coll :
  (∀ c, P c → P (upd c)) →
  Forall P coll → Forall P (Conversation.findOneAndUpdate flt upd coll).1.
Proof.
  intros Hupd. induction coll as [|a coll IH]; [done|].
  intros [Ha Hcoll]%Forall_cons. simpl. destruct (flt a); simpl.
  - constructor; auto.
  - destruct (Conversation.findOneAndUpdate flt upd coll) as [rest r].
    constructor; auto.
Qed.

Lemma Forall_findByIdAndDelete (P : Conversation.t → Prop) cid coll :
  Forall P coll → Forall P (Conversation.findByIdAndDelete cid coll).
Proof.
  rewrite !Forall_forall. intros H c Hc%elem_of_findByIdAndDelete. auto.
Qed.

Lemma shape_set_lastMessage lm c :
  conversation_shape c → conversation_shape (Conversation.set_lastMessage lm c).
Proof. done. Qed.

Lemma shape_set_name n c :
  conversation_shape c → conversation_shape (Conversation.set_name n c).
Proof. done. Qed.

Lemma shape_keep (keep : ObjectId → bool) c a :
  conversation_shape c → Conversation.type c = Conversation.group →
  Conversation.admin c = Some a → keep a = true →
  conversation_shape
    (Conversation.set_participants
       (List.filter keep (Conversation.participants c)) c).
Proof.
  intros [Hnd Hshape] Hty Hadm Hkeep. rewrite Hty in Hshape.
  destruct Hshape as [Hlen (a' & Ha' & Hin)].
  pose proof (filter_bool_sublist keep (Conversation.participants c)) as Hsub.
  split; simpl; [by eapply sublist_NoDup|]. rewrite Hty. split.
  - apply sublist_length in Hsub. lia.
  - exists a. split; [done|]. apply elem_of_filter_bool.
    split; [congruence | done].
Qed.

Lemma shape_add c ms :
  conversation_shape c → Conversation.type c = Conversation.group →
  length (Conversation.participants c) + length ms
    ≤ Conversation.MAX_GROUP_SIZE →
  conversation_shape
    (Conversation.set_participants
       (Js.spreadSet (Conversation.participants c ++ ms)) c).
Proof.
  intros [Hnd Hshape] Hty Hsize. rewrite Hty in Hshape.
  destruct Hshape as [Hlen (a & Ha & Hin)].
  split; simpl; [apply NoDup_spreadSet|]. rewrite Hty. split.
  - pose proof (length_spreadSet (Conversation.participants c ++ ms)) as H.
    rewrite length_app in H. lia.
  - exists a. split; [done|]. apply elem_of_spreadSet, elem_of_app. by left.
Qed.

Lemma send_shapes schema sid u now cid content s :
  shapes_ok (db s) →
  shapes_ok (db (on_message_send_with schema sid u now cid content s).1).
Proof.
  intros Hs. unfold on_message_send_with.
  destruct (Conversation.findOne _ _) as [c|] eqn:Hfind; [|done].
  destruct (Message.createWith _ _ _ _ _ _ _ _) as [|[ms m]]; [done|].
  apply find_Some_elem in Hfind as [Hc _].
  unfold shapes_ok in *. simpl. save_cases by done.
  apply Forall_save; [done|].
  apply shape_set_lastMessage. rewrite Forall_forall in Hs. by apply Hs.
Qed.

Lemma rest_shapes u now call d : shapes_ok d → shapes_ok (rest u now call d).1.
Proof.
  intros Hd. pose proof Hd as Hall. unfold shapes_ok in Hall.
  rewrite Forall_forall in Hall.
  destruct call; simpl; try done.
  - (* POST /api/conversations *)
    unfold ConversationsRouter.post.
    destruct participantIds as [ps|]; [|done].
    destruct (String.eqb type ""); [done|].
    set (all := Js.spreadSet (u :: ps)).
    destruct (String.eqb type "personal").
    { destruct ps as [|p0 ps']; [done|].
      destruct (negb (length all =? 2)) eqn:E2; [done|].
      destruct (negb (areFriends d u p0)); [done|].
      destruct (Conversation.findOne _ _); [done|].
      unfold Conversation.create. simpl.
      apply Forall_app. split; [done|]. apply Forall_singleton.
      split; [apply NoDup_spreadSet|]. simpl.
      by apply negb_false_iff, Nat.eqb_eq in E2. }
    destruct (String.eqb type "group"); [|done].
    destruct name as [name|]; [|done].
    destruct (length (Js.trim name) =? 0); [done|].
    destruct (Conversation.MAX_GROUP_SIZE <? length all) eqn:E1; [done|].
    destruct (length all <? 2); [done|].
    destruct (negb (forallb _ ps)); [done|].
    unfold Conversation.create.
    destruct (Conversation.validate _); [done|]. simpl.
    apply Forall_app. split; [done|]. apply Forall_singleton.
    split; [apply NoDup_spreadSet|]. simpl.
    apply Nat.ltb_ge in E1. split; [done|].
    exists u. split; [done|]. apply elem_of_spreadSet. by left.
  - (* PUT /:id/members *)
    unfold ConversationsRouter.put_members.
    destruct memberIds as [ms|]; [|done].
    destruct (String.eqb action ""); [done|].
    destruct (Conversation.findOne _ _) as [c|] eqn:Hfind; [|done].
    apply find_Some_elem in Hfind
      as [Hc [[_ Hty]%andb_true_iff Hadm%bool_decide_eq_true]%andb_true_iff].
    assert (Conversation.type c = Conversation.group) as Hgroup
      by (by destruct (Conversation.type c)).
    destruct (String.eqb action "add").
    { destruct (Conversation.MAX_GROUP_SIZE <? _) eqn:Hmax; [done|].
      apply Nat.ltb_ge in Hmax.
      destruct (forallb _ ms); simpl; [|done].
      save_cases by done.
      apply Forall_save; [done|]. apply shape_add; auto. }
    destruct (String.eqb action "remove"); [|done].
    destruct (Js.includes ms u) eqn:Hinc; [done|].
    destruct (length _ <? 2); [done|]. simpl.
    save_cases by done.
    apply Forall_save; [done|]. apply (shape_keep _ c u); auto.
    by rewrite Hinc.
  - (* PUT /:id/name *)
    unfold ConversationsRouter.put_name.
    destruct name as [name|]; [|done].
    destruct (length (Js.trim name) =? 0); [done|].
    pose proof (Forall_findOneAndUpdate conversation_shape
      (λ c, (Conversation._id c =? conversationId)%N
            && Conversation.ConversationType_eqb
                 (Conversation.type c) Conversation.group
            && bool_decide (Conversation.admin c = Some u))
      (Conversation.set_name (Js.trim name)) (conversations d)
      (shape_set_name _) Hd) as H.
    by destruct (Conversation.findOneAndUpdate _ _ _) as [convs [c|]].
  - (* DELETE /:id *)
    unfold ConversationsRouter.delete.
    destruct (Conversation.findOne _ _) as [c|] eqn:Hfind; [|done].
    apply find_Some_elem in Hfind as [Hc _].
    destruct (Conversation.type c) eqn:Hty;
      [by apply Forall_findByIdAndDelete|].
    destruct (bool_decide _) eqn:Hadm; [by apply Forall_findByIdAndDelete|].
    apply bool_decide_eq_false in Hadm. simpl.
    save_cases by done.
    apply Forall_save; [done|].
    destruct (Hall c Hc) as [_ Hshape]. rewrite Hty in Hshape.
    destruct Hshape as [_ (a & Ha & _)].
    apply (shape_keep _ c a); auto.
    apply negb_true_iff, N.eqb_neq. intros ->. by rewrite Ha in Hadm.
  - (* POST /api/messages *)
    unfold MessagesRouter.post.
    destruct (_ || _); [done|].
    destruct (Conversation.findOne _ _) as [c|] eqn:Hfind; [|done].
    destruct (Message.create _ _ _ _ _ _ _) as [|[ms m]]; [done|].
    apply find_Some_elem in Hfind as [Hc _]. simpl.
    save_cases by done.
    apply Forall_save; [done|]. by apply shape_set_lastMessage, Hall.
  - (* PUT /read/:conversationId *)
    unfold MessagesRouter.put_read. by destruct (Conversation.findOne _ _).
Qed.

(** X14.  Whatever requests are handled, every stored conversation keeps
    its shape: its participants are pairwise distinct; a personal
    conversation has exactly two of them; a group has at most 20 and its
    admin is always one of them. *)
Theorem X14_conversations_keep_their_shape trace s :
  shapes_ok (db s) → shapes_ok (db (run trace s)).
Proof.
  revert s. induction trace as [|[now r] trace IH]; intros s Hs; [done|].
  simpl. apply IH. clear IH.
  destruct r as [sid [u|]|sid ev|u call]; simpl; try done.
  - unfold socket_on. destruct (sockets (io s) !! sid) as [k|]; [|done].
    destruct ev; try done.
    pose proof (send_shapes Message.contentSchema sid (data_userId k) now
                  conversationId content s Hs) as H.
    unfold on_message_send.
    by destruct (on_message_send_with _ _ _ _ _ _ _).
  - pose proof (rest_shapes u now call (db s) Hs) as H.
    by destruct (rest u now call (db s)).
Qed.

Lemma X14_witness :
  shapes_ok (db ex_live)
  ∧ shapes_ok
      (db (run [(30, Rest 1 (PUT_members 101 "remove" (Some [3%N])));
                (31, Rest 2 (DELETE_conversation 101));
                (32, Rest 4 (POST_conversations "group" (Some [1%N])
                               (Some str_Duo)))]%Z ex_live)).
Proof.
  assert (shapes_ok (db ex_live)) as H1.
  { assert (conversations (db ex_live) = conversations ex_db) as Hc
      by (by vm_compute).
    unfold shapes_ok. rewrite Hc. simpl.
    constructor; [|constructor; [|constructor]].
    - split; [compute_done | done].
    - split; [compute_done|]. simpl. split; [compute_done|].
      exists 1%N. split; [done | compute_done]. }
  split; [exact H1|].
  exact (X14_conversations_keep_their_shape _ ex_live H1).
Defined.

(** ** One conversation at a time *)

Lemma filter_save_ne cid doc (coll : list Conversation.t) :
  Conversation._id doc ≠ cid →
  List.filter (λ c, (Conversation._id c =? cid)%N) (Conversation.updateOne doc coll)
  = List.filter (λ c, (Conversation._id c =? cid)%N) coll.
Proof.
  intros Hne. unfold Conversation.updateOne.
  induction coll as [|a coll IH]; [done|]. rewrite fmap_cons. simpl.
  rewrite IH.
  destruct (N.eqb_spec (Conversation._id a) (Conversation._id doc)) as [E|E];
    [|done].
  rewrite E. apply N.eqb_neq in Hne. by rewrite Hne.
Qed.

Lemma filter_findByIdAndDelete_ne cid cid' (coll : list Conversation.t) :
  cid ≠ cid' →
  List.filter (λ c, (Conversation._id c =? cid')%N)
    (Conversation.findByIdAndDelete cid coll)
  = List.filter (λ c, (Conversation._id c =? cid')%N) coll.
Proof.
  intros Hne. induction coll as [|a coll IH]; [done|]. simpl.
  destruct (N.eqb_spec (Conversation._id a) cid) as [E|E]; simpl.
  - destruct (N.eqb_spec (Conversation._id a) cid'); [congruence | done].
  - by rewrite IH.
Qed.

Lemma filter_findOneAndUpdate_ne cid cid' flt upd (coll : list Conversation.t) :
  cid ≠ cid' →
  (∀ c, flt c = true → Conversation._id c = cid) →
  (∀ c, Conversation._id (upd c) = Conversation._id c) →
  List.filter (λ c, (Conversation._id c =? cid')%N)
    (Conversation.findOneAndUpdate flt upd coll).1
  = List.filter (λ c, (Conversation._id c =? cid')%N) coll.
Proof.
  intros Hne Hflt Hupd. induction coll as [|a coll IH]; [done|]. simpl.
  destruct (flt a) eqn:E; simpl.
  - rewrite Hupd. specialize (Hflt a E).
    destruct (N.eqb_spec (Conversation._id a) cid'); [congruence | done].
  - destruct (Conversation.findOneAndUpdate flt upd coll) as [rest r].
    simpl in *. by rewrite IH.
Qed.

Lemma filter_deleteMany_ne cid cid' (ms : list Message.t) :
  cid ≠ cid' →
  List.filter (λ m, (Message.conversation m =? cid')%N)
    (Message.deleteMany (λ m, (Message.conversation m =? cid)%N) ms)
  = List.filter (λ m, (Message.conversation m =? cid')%N) ms.
Proof.
  intros Hne. unfold Message.deleteMany.
  induction ms as [|m ms IH]; [done|]. simpl.
  destruct (N.eqb_spec (Message.conversation m) cid) as [E|E]; simpl.
  - destruct (N.eqb_spec (Message.conversation m) cid'); [congruence | done].
  - by rewrite IH.
Qed.

Lemma filter_updateMany_ne cid cid' u (ms : list Message.t) :
  cid ≠ cid' →
  List.filter (λ m, (Message.conversation m =? cid')%N)
    (Message.updateMany (Message.unreadBy cid u) (Message.addToSet_readBy u)
       ms)
  = List.filter (λ m, (Message.conversation m =? cid')%N) ms.
Proof.
  intros Hne. unfold Message.updateMany.
  induction ms as [|m ms IH]; [done|]. rewrite fmap_cons. simpl.
  rewrite IH. unfold Message.unreadBy.
  destruct (N.eqb_spec (Message.conversation m) cid) as [E|E]; [|done].
  destruct (negb _); simpl; [|done].
  destruct (N.eqb_spec (Message.conversation m) cid'); [congruence | done].
Qed.

Lemma stored_of_send schema cid cid' lm now u content c d ms m :
  cid ≠ cid' → Conversation._id c = cid →
  Message.createWith schema (oid d) now cid u (Js.trim content) [u]
    (messages d) = inr (ms, m) →
  stored_of cid'
    (set_conversations
       (Conversation.updateOne (Conversation.set_lastMessage lm c)
          (conversations (next_oid (set_messages ms d))))
       (next_oid (set_messages ms d)))
  = stored_of cid' d.
Proof.
  intros Hne Hid (-> & _ & _ & _ & Hconv)%createWith_inr.
  unfold stored_of. simpl. rewrite filter_save_ne by (simpl; congruence).
  rewrite List.filter_app. simpl. rewrite Hconv.
  apply N.eqb_neq in Hne as ->. by rewrite app_nil_r.
Qed.

Lemma stored_of_append schema cid cid' now u content d ms m :
  cid ≠ cid' →
  Message.createWith schema (oid d) now cid u (Js.trim content) [u]
    (messages d) = inr (ms, m) →
  stored_of cid' (next_oid (set_messages ms d)) = stored_of cid' d.
Proof.
  intros Hne (-> & _ & _ & _ & Hconv)%createWith_inr.
  unfold stored_of. simpl.
  rewrite List.filter_app. simpl. rewrite Hconv.
  apply N.eqb_neq in Hne as ->. by rewrite app_nil_r.
Qed.

Lemma findOne_participant_id u cid (coll : list Conversation.t) c :
  Conversation.findOne
    (λ c, (Conversation._id c =? cid)%N && hasParticipant u c) coll = Some c →
  Conversation._id c = cid.
Proof.
  intros [_ [Hid _]%andb_true_iff]%find_Some_elem. by apply N.eqb_eq.
Qed.

Lemma findOne_admin_id u cid (coll : list Conversation.t) c :
  Conversation.findOne
    (λ c, (Conversation._id c =? cid)%N
          && Conversation.ConversationType_eqb
               (Conversation.type c) Conversation.group
          && bool_decide (Conversation.admin c = Some u)) coll = Some c →
  Conversation._id c = cid.
Proof.
  intros [_ [[Hid _]%andb_true_iff _]%andb_true_iff]%find_Some_elem.
  by apply N.eqb_eq.
Qed.

Lemma step_socket_fst now sid ev s :
  (step now (SocketEvent sid ev) s).1 = (socket_on sid now ev s).1.
Proof. simpl. by destruct (socket_on sid now ev s). Qed.

Lemma step_rest_db now u call s :
  db (step now (Rest u call) s).1 = (rest u now call (db s)).1.
Proof. simpl. by destruct (rest u now call (db s)). Qed.

(** X15.  A request touches one conversation only: whatever is stored of
    any conversation other than the one the request names (or, for a
    creation, other than the new one), its documents and its messages, is
    after the request exactly what it was before. *)
Theorem X15_requests_touch_one_conversation now r s cid' :
  addressed r s ≠ Some cid' →
  stored_of cid' (db (step now r s).1) = stored_of cid' (db s).
Proof.
  destruct r as [sid [u|]|sid ev|u call]; intros Hne; try done.
  - rewrite step_socket_fst.
    unfold socket_on. destruct (sockets (io s) !! sid) as [k|]; [|done].
    destruct ev; simpl in *; try done.
    + unfold on_message_send, on_message_send_with.
      destruct (Conversation.findOne _ _) as [c|] eqn:Hfind; [|done].
      destruct (Message.createWith _ _ _ _ _ _ _ _) as [|[ms m]] eqn:E;
        [done|].
      simpl. apply findOne_participant_id in Hfind.
      save_cases
        by (simpl; eapply (stored_of_append _ conversationId);
            [congruence | done]).
      eapply (stored_of_send _ conversationId); [congruence | done | done].
    + unfold stored_of. simpl. rewrite filter_updateMany_ne; [done|congruence].
  - rewrite step_rest_db. destruct call; simpl in *; try done.
    + unfold ConversationsRouter.post, Conversation.create.
      repeat case_match; simplify_eq/=; try done.
      all: unfold stored_of; simpl; rewrite List.filter_app; simpl.
      all: match goal with
           | |- context [(oid ?d =? ?c)%N] =>
               destruct (N.eqb_spec (oid d) c); [congruence|]
           end.
      all: by rewrite app_nil_r.
    + unfold ConversationsRouter.put_members.
      repeat case_match; simplify_eq/=; save_writes; try done.
      all: match goal with
           | H : Conversation.findOne _ _ = Some _ |- _ =>
               apply findOne_admin_id in H
           end.
      all: unfold stored_of; simpl; rewrite filter_save_ne; [done|].
      all: simpl; congruence.
    + unfold ConversationsRouter.put_name.
      destruct name as [name|]; [|done].
      destruct (length (Js.trim name) =? 0); [done|].
      pose proof (filter_findOneAndUpdate_ne conversationId cid'
        (λ c, (Conversation._id c =? conversationId)%N
              && Conversation.ConversationType_eqb
                   (Conversation.type c) Conversation.group
              && bool_decide (Conversation.admin c = Some u))
        (Conversation.set_name (Js.trim name)) (conversations (db s))) as H.
      destruct (Conversation.findOneAndUpdate _ _ _) as [convs [c|]]; [|done].
      unfold stored_of. simpl in *. rewrite H; [done | congruence | | done].
      intros c0 [[Hid _]%andb_true_iff _]%andb_true_iff. by apply N.eqb_eq.
    + unfold ConversationsRouter.delete.
      destruct (Conversation.findOne _ _) as [c|] eqn:Hfind; [|done].
      apply findOne_participant_id in Hfind.
      assert (conversationId ≠ cid') as Hne' by congruence.
      repeat case_match; save_writes; unfold stored_of; simpl.
      all: rewrite ?filter_findByIdAndDelete_ne, ?filter_deleteMany_ne,
             ?filter_save_ne by (simpl; congruence); done.
    + unfold MessagesRouter.post, Message.create.
      destruct (_ || _); [done|].
      destruct (Conversation.findOne _ _) as [c|] eqn:Hfind; [|done].
      destruct (Message.createWith _ _ _ _ _ _ _ _) as [|[ms m]] eqn:E;
        [done|].
      simpl. apply findOne_participant_id in Hfind.
      save_cases
        by (simpl; eapply (stored_of_append _ conversationId);
            [congruence | done]).
      eapply (stored_of_send _ conversationId); [congruence | done | done].
    + unfold MessagesRouter.put_read.
      destruct (Conversation.findOne _ _); [|done].
      unfold stored_of. simpl. rewrite filter_updateMany_ne; [done|congruence].
Qed.

Lemma X15_witness :
  addressed (Rest 1 (DELETE_conversation 101)) ex_live ≠ Some 100%N
  ∧ stored_of 100 (db (step 50 (Rest 1 (DELETE_conversation 101)) ex_live).1)
    = stored_of 100 (db ex_live).
Proof.
  assert (addressed (Rest 1 (DELETE_conversation 101)) ex_live ≠ Some 100%N)
    as H1 by done.
  split; [exact H1|].
  exact (X15_requests_touch_one_conversation 50%Z
           (Rest 1 (DELETE_conversation 101)) ex_live 100%N H1).
Defined.

(** X16.  When either participant of a personal conversation deletes it,
    the call is answered "Conversation deleted" and the conversation and
    all its messages are gone; from then on, whatever requests follow, a
    fetch of the conversation or of its messages by anybody, the other
    participant included, is answered 404. *)
Theorem X16_personal_conversation_deleted_for_both u cid c s :
  wf (db s) → c ∈ conversations (db s) → Conversation._id c = cid →
  Conversation.type c = Conversation.personal →
  u ∈ Conversation.participants c →
  (ConversationsRouter.delete u cid (db s)).2
  = respond 200 (json_message "Conversation deleted")
  ∧ stored_of cid (ConversationsRouter.delete u cid (db s)).1 = ([], [])
  ∧ (∀ trace v page limit,
       ConversationsRouter.get v cid page limit
         (db (run trace
                (with_db (ConversationsRouter.delete u cid (db s)).1 s)))
       = respond 404 (json_error "Conversation not found")
       ∧ MessagesRouter.get v cid page limit
           (db (run trace
                  (with_db (ConversationsRouter.delete u cid (db s)).1 s)))
         = respond 404 (json_error "Conversation not found")).
Proof.
  intros Hwf Hc Hid Hty Hu.
  destruct (findOne_participant_Some u cid (db s))
    as (c' & Hfind & Hc' & Hid' & _).
  { apply participates_iff. by exists c. }
  assert (c' = c) as ->.
  { apply (NoDup_fmap_eq Conversation._id (conversations (db s)));
      [apply Hwf | done | done | congruence]. }
  unfold ConversationsRouter.delete. rewrite Hfind, Hty. cbn [fst snd].
  assert (∀ c', c' ∈ Conversation.findByIdAndDelete cid
                       (conversations (db s))
                → Conversation._id c' ≠ cid) as Hgone.
  { intros c'. apply findByIdAndDelete_gone, Hwf. }
  split; [done|]. split.
  - unfold stored_of. simpl. f_equal.
    + apply filter_bool_nil, find_None_elem. intros c' Hin.
      apply N.eqb_neq. by apply Hgone.
    + apply filter_bool_nil, find_None_elem.
      intros m [_ Hm]%elem_of_filter_bool. by apply negb_true_iff in Hm.
  - intros trace v page limit.
    match goal with
    | |- context [run trace ?s1] =>
        assert (∀ c'', c'' ∈ conversations (db (run trace s1)) →
                       Conversation._id c'' ≠ cid) as Hlater
    end.
    { intros c'' Hc''.
      match goal with
      | H : c'' ∈ conversations (db (run trace ?s1)) |- _ =>
          destruct (ev_conversations _ _ (run_evolves trace s1) c'' Hc'')
            as [(c0 & Hc0 & E0)|Hnew]
      end.
      - rewrite <- E0. by apply Hgone.
      - simpl in Hnew. pose proof (wf_conversation_old _ Hwf) as Hold.
        rewrite Forall_forall in Hold. specialize (Hold c Hc). lia. }
    split; [by apply get_not_found|].
    unfold MessagesRouter.get. rewrite findOne_participant_None; [done|].
    intros (c0 & Hc0 & Hid0 & _)%participates_iff. by apply (Hlater c0).
Qed.

Lemma X16_witness :
  wf (db ex_live)
  ∧ Conversation.mk 100 Conversation.personal [1; 2]%N None None None
    ∈ conversations (db ex_live)
  ∧ ConversationsRouter.get 1 100 0 0
      (db (run [(60, SocketEvent "sA" (message_send 100 str_hi));
                (61, Rest 1 (POST_conversations "group" (Some [2%N])
                               (Some str_Duo)))]%Z
             (with_db (ConversationsRouter.delete 2 100 (db ex_live)).1
                ex_live)))
    = respond 404 (json_error "Conversation not found").
Proof.
  assert (wf (db ex_live)) as H1 by (split; compute_done).
  assert (Conversation.mk 100 Conversation.personal [1; 2]%N None None None
          ∈ conversations (db ex_live)) as H2 by (vm_compute; left).
  split; [exact H1|]. split; [exact H2|].
  apply (X16_personal_conversation_deleted_for_both 2%N 100%N _ ex_live
           H1 H2); [done | done | compute_done].
Defined.

(** ** Unread counts *)

Lemma unreadBy_after_read cid u c' v m :
  Message.unreadBy c' v
    (if Message.unreadBy cid u m then Message.addToSet_readBy u m else m)
  = if decide (c' = cid ∧ v = u) then false else Message.unreadBy c' v m.
Proof.
  unfold Message.unreadBy.
  destruct (decide (c' = cid ∧ v = u)) as [[-> ->]|Hne].
  - destruct (N.eqb_spec (Message.conversation m) cid) as [E|E];
      simpl; [|by apply N.eqb_neq in E as ->].
    destruct (Js.includes (Message.readBy m) u) eqn:Hinc; simpl.
    + rewrite Hinc. by rewrite andb_false_r.
    + rewrite Hinc. simpl.
      assert (Js.includes (Message.readBy m ++ [u]) u = true) as ->.
      { apply includes_true, elem_of_app. right. by left. }
      by rewrite andb_false_r.
  - destruct (N.eqb_spec (Message.conversation m) cid) as [E|E]; [|done].
    destruct (Js.includes (Message.readBy m) u) eqn:Hinc; [done|]. simpl.
    rewrite Hinc.
    destruct (N.eqb_spec (Message.conversation m) c') as [E'|E']; [|done].
    simpl. f_equal.
    assert (v ≠ u) as Hv by (intros ->; apply Hne; split; congruence).
    destruct (Js.includes (Message.readBy m) v) eqn:Hv'.
    + apply includes_true. apply includes_true in Hv'.
      apply elem_of_app. by left.
    + apply includes_false. apply includes_false in Hv'.
      intros [?|?%list_elem_of_singleton]%elem_of_app; done.
Qed.

Lemma count_after_read cid u c' v (ms : list Message.t) :
  Message.countDocuments (Message.unreadBy c' v)
    (Message.updateMany (Message.unreadBy cid u) (Message.addToSet_readBy u)
       ms)
  = if decide (c' = cid ∧ v = u) then 0
    else Message.countDocuments (Message.unreadBy c' v) ms.
Proof.
  unfold Message.countDocuments, Message.updateMany.
  induction ms as [|m ms IH]; [by case_decide|].
  rewrite fmap_cons. simpl. rewrite unreadBy_after_read.
  destruct (decide (c' = cid ∧ v = u)); [done|].
  destruct (Message.unreadBy c' v m); simpl; by rewrite IH.
Qed.

Lemma send_valid_messages sid u now cid content s :
  participates u cid (db s) → valid_content content →
  messages (db (on_message_send sid u now cid content s).1)
  = messages (db s)
    ++ [Message.mk (oid (db s)) cid u (Bson.asStored (Js.trim content))
          [u] now].
Proof.
  intros Hpart Hvalid.
  destruct (findOne_participant_Some u cid (db s) Hpart) as (c & Hfind & _).
  unfold on_message_send, on_message_send_with. rewrite Hfind.
  unfold Message.createWith. rewrite castString_valid by done.
  cbn [messages conversations set_conversations set_messages next_oid].
  by destruct (Conversation.save _ _).
Qed.

(** X17.  The unread count of a conversation for a user is the number of
    its messages the user is not a reader of.  Marking conversation [cid]
    as read for [u] brings [u]'s count for it to 0 and changes no other
    count; a valid message sent by [u] to [cid] raises by one the count
    of [cid] for every other user and changes no other count, the
    sender's included. *)
Theorem X17_unread_counts sid u cid now s :
  data_userId <$> sockets (io s) !! sid = Some u →
  (∀ v conv,
     unreadCount v conv
       (db (step now (SocketEvent sid (messages_read cid)) s).1)
     = if decide (Conversation._id conv = cid ∧ v = u) then 0
       else unreadCount v conv (db s))
  ∧ (∀ content, participates u cid (db s) → valid_content content →
     ∀ v conv,
       unreadCount v conv
         (db (step now (SocketEvent sid (message_send cid content)) s).1)
       = unreadCount v conv (db s)
         + if decide (Conversation._id conv = cid ∧ v ≠ u) then 1 else 0).
Proof.
  intros Hsid. split.
  - intros v conv. rewrite step_socket_fst, (socket_on_lookup sid u) by done.
    unfold unreadCount. simpl. apply count_after_read.
  - intros content Hpart Hvalid v conv.
    rewrite step_socket_fst, (socket_on_lookup sid u) by done.
    unfold unreadCount. rewrite send_valid_messages by done.
    unfold Message.countDocuments. rewrite List.filter_app, length_app.
    f_equal. simpl. unfold Message.unreadBy. simpl.
    destruct (decide (Conversation._id conv = cid ∧ v ≠ u)) as [[-> Hv]|Hne].
    + rewrite N.eqb_refl. simpl.
      assert (Js.includes [u] v = false) as ->; [|done].
      apply includes_false. by intros ?%list_elem_of_singleton.
    + destruct (N.eqb_spec cid (Conversation._id conv)) as [E|E]; [|done].
      simpl. assert (Js.includes [u] v = true) as ->; [|done].
      apply includes_true, list_elem_of_singleton.
      destruct (decide (v = u)); [done|]. destruct Hne. by split.
Qed.

Lemma X17_witness :
  data_userId <$> sockets (io ex_live) !! "sA" = Some 1%N
  ∧ participates 1 101 (db ex_live) ∧ valid_content str_hi
  ∧ unreadCount 3
      (Conversation.mk 101 Conversation.group [1; 2; 3]%N
         (Some str_Trip) (Some 1%N) None)
      (db (step 50 (SocketEvent "sA" (message_send 101 str_hi)) ex_live).1)
    = 2.
Proof.
  assert (data_userId <$> sockets (io ex_live) !! "sA" = Some 1%N) as H1
    by (vm_compute; reflexivity).
  assert (participates 1 101 (db ex_live)) as H2 by compute_done.
  assert (valid_content str_hi) as H3
    by (split; [by vm_compute | vm_compute; lia]).
  repeat (split; [assumption|]).
  rewrite (proj2 (X17_unread_counts "sA" 1%N 101%N 50%Z ex_live H1)
             str_hi H2 H3).
  by vm_compute.
Defined.

(** ** Paging through messages *)

Lemma insertNewestFirst_perm m l : Message.insertNewestFirst m l ≡ₚ m :: l.
Proof.
  induction l as [|x l IH]; [done|]. simpl.
  destruct (Message.createdAt x <? Message.createdAt m)%Z; [done|].
  rewrite IH. apply Permutation_swap.
Qed.

Lemma sortNewestFirst_perm l : Message.sortNewestFirst l ≡ₚ l.
Proof.
  unfold Message.sortNewestFirst. induction l as [|x l IH]; [done|]. simpl.
  by rewrite insertNewestFirst_perm, IH.
Qed.

Lemma insertNewestFirst_sorted m l :
  StronglySorted not_older l →
  StronglySorted not_older (Message.insertNewestFirst m l).
Proof.
  induction 1 as [|x l Hl IH Hx]; simpl; [repeat constructor|].
  destruct (Z.ltb_spec (Message.createdAt x) (Message.createdAt m)).
  - constructor; [by constructor|]. constructor; [unfold not_older; lia|].
    eapply Forall_impl; [exact Hx|]. unfold not_older. intros; lia.
  - constructor; [done|].
    rewrite insertNewestFirst_perm. constructor; [done | done].
Qed.

Lemma sortNewestFirst_sorted l :
  StronglySorted not_older (Message.sortNewestFirst l).
Proof.
  unfold Message.sortNewestFirst. induction l as [|x l IH]; simpl.
  - constructor.
  - by apply insertNewestFirst_sorted.
Qed.

Lemma sorted_lookup (l : list Message.t) i j a b :
  StronglySorted not_older l → i ≤ j →
  l !! i = Some a → l !! j = Some b → not_older a b.
Proof.
  intros Hl. revert i j. induction Hl as [|x l Hl IH Hx]; intros i j Hij;
    [done|].
  destruct i as [|i], j as [|j]; simpl; try lia.
  - intros [= <-] [= <-]. unfold not_older. lia.
  - intros [= <-] Hb. rewrite Forall_forall in Hx. apply Hx.
    by eapply list_elem_of_lookup_2.
  - apply IH. lia.
Qed.

Lemma rev_lookup {A} (l : list A) i :
  i < length l → rev l !! i = l !! (length l - S i).
Proof. rewrite rev_alt. apply reverse_lookup. Qed.

(** The messages of one page, as the two listing handlers compute them. *)
Lemma messagePage_lookup d cid page limit i pm :
  (messagePage d cid page limit).1 !! i = Some pm →
  ∃ m k,
    pm = populate_sender d m
    ∧ Message.sortNewestFirst
        (Message.find (λ m, (Message.conversation m =? cid)%N) (messages d))
      !! k = Some m
    ∧ (page - 1) * limit ≤ k < (page - 1) * limit + limit
    ∧ k + S i
      = (page - 1) * limit
        + length (messagePage d cid page limit).1.
Proof.
  unfold messagePage. cbn [fst]. rewrite length_fmap, length_rev.
  set (sorted := Message.sortNewestFirst _).
  set (skip := (page - 1) * limit).
  intros (m & -> & Hm)%list_lookup_fmap_Some.
  assert (i < length (take limit (drop skip sorted))) as Hi.
  { rewrite <- length_rev. by eapply lookup_lt_Some. }
  rewrite rev_lookup in Hm by done.
  apply lookup_take_Some in Hm as [Hm Hlt].
  rewrite lookup_drop in Hm.
  exists m, (skip + (length (take limit (drop skip sorted)) - S i)).
  split; [done|]. split; [done|]. lia.
Qed.

(** X18.  For a participant, both listing handlers answer 200 with the
    same page of messages.  Every message on it is a stored message of
    that conversation, with its sender populated; there are at most
    [limit] of them (50 when no limit is given); they are in the order of
    their creation time, oldest first; and the first page ends with a
    message no other message of the conversation is newer than. *)
Theorem X18_message_page u cid page limit d :
  participates u cid d →
  ∃ msgs pg pc,
    MessagesRouter.get u cid page limit d
    = respond 200 (json_message_page msgs pg)
    ∧ ConversationsRouter.get u cid page limit d
      = respond 200 (json_conversation_page pc msgs pg)
    ∧ Forall (λ pm, pm_doc pm ∈ messages d
                    ∧ Message.conversation (pm_doc pm) = cid
                    ∧ pm = populate_sender d (pm_doc pm)) msgs
    ∧ length msgs ≤ parseIntOr 50 limit
    ∧ (∀ i j a b, i ≤ j → msgs !! i = Some a → msgs !! j = Some b →
         (Message.createdAt (pm_doc a) ≤ Message.createdAt (pm_doc b))%Z)
    ∧ (page ≤ 1 → ∀ m newest,
         m ∈ messages d → Message.conversation m = cid →
         last msgs = Some newest →
         (Message.createdAt m ≤ Message.createdAt (pm_doc newest))%Z).
Proof.
  intros Hpart.
  destruct (findOne_participant_Some u cid d Hpart) as (c & Hfind & _).
  unfold MessagesRouter.get, ConversationsRouter.get. rewrite Hfind.
  set (P := parseIntOr 1 page). set (L := parseIntOr 50 limit).
  destruct (messagePage d cid P L) as [msgs pg] eqn:E.
  exists msgs, pg. eexists. split; [done|]. split; [done|].
  assert (msgs = (messagePage d cid P L).1) as -> by (by rewrite E).
  clear E pg.
  pose proof (sortNewestFirst_sorted
    (Message.find (λ m, (Message.conversation m =? cid)%N) (messages d)))
    as Hsorted.
  assert (∀ m k,
    Message.sortNewestFirst
      (Message.find (λ m, (Message.conversation m =? cid)%N) (messages d))
    !! k = Some m → m ∈ messages d ∧ Message.conversation m = cid) as Hin.
  { intros m k Hk. apply list_elem_of_lookup_2 in Hk.
    rewrite sortNewestFirst_perm in Hk.
    apply elem_of_filter_bool in Hk as [? ?%N.eqb_eq]. done. }
  split; [|split; [|split]].
  - apply Forall_forall. intros pm (i & Hi)%list_elem_of_lookup_1.
    apply messagePage_lookup in Hi as (m & k & -> & Hk & _).
    destruct (Hin m k Hk). done.
  - unfold messagePage. cbn [fst].
    rewrite length_fmap, length_rev, length_take. lia.
  - intros i j a b Hij Ha Hb.
    apply messagePage_lookup in Ha as (ma & ka & -> & Hka & _ & Hia).
    apply messagePage_lookup in Hb as (mb & kb & -> & Hkb & _ & Hib).
    simpl. apply (sorted_lookup _ kb ka mb ma Hsorted); [lia | done | done].
  - intros Hpage m newest Hm Hcid Hlast.
    assert (P = 1) as HP by (subst P; unfold parseIntOr; destruct page; lia).
    rewrite last_lookup in Hlast.
    apply lookup_lt_Some in Hlast as Hlen.
    apply messagePage_lookup in Hlast as (m0 & k0 & -> & Hk0 & _ & Hi0).
    assert ((P - 1) * L = 0) as H0 by (by rewrite HP).
    rewrite H0 in Hi0.
    assert (k0 = 0) as -> by lia.
    assert (m ∈ Message.sortNewestFirst
                  (Message.find (λ m, (Message.conversation m =? cid)%N)
                     (messages d))) as Hm'.
    { rewrite sortNewestFirst_perm. apply elem_of_filter_bool.
      split; [done | by apply N.eqb_eq]. }
    apply list_elem_of_lookup_1 in Hm' as [k Hk]. simpl.
    apply (sorted_lookup _ 0 k m0 m Hsorted); [lia | done | done].
Qed.

Lemma X18_witness :
  participates 2 101 ex_db
  ∧ MessagesRouter.get 2 101 0 0 ex_db
    = respond 200
        (json_message_page
           [populate_sender ex_db (Message.mk 150 101 2 str_hi [2%N] 10)]
           (mkPagination 1 50 1 1 false)).
Proof.
  assert (participates 2 101 ex_db) as H1 by compute_done.
  split; [exact H1|].
  destruct (X18_message_page 2%N 101%N 0 0 ex_db H1)
    as (msgs & pg & pc & Hget & _).
  rewrite Hget. vm_compute in Hget. injection Hget as <- <-. by vm_compute.
Defined.

Lemma parseIntOr_pos dflt q : 0 < dflt → 0 < parseIntOr dflt q.
Proof. unfold parseIntOr. destruct q; lia. Qed.

Lemma ceil_div_bounds total L :
  0 < L →
  total ≤ (total + L - 1) / L * L ∧ (total + L - 1) / L * L < total + L.
Proof.
  intros HL.
  pose proof (Nat.div_mod_eq (total + L - 1) L) as Hdm.
  pose proof (Nat.mod_upper_bound (total + L - 1) L) as Hmod.
  nia.
Qed.

(** X19.  The pagination record the listing handlers return is coherent
    and the pages tile the conversation: [total] is the number of its
    messages; [pages] is [total] divided by the limit, rounded up; a page
    holds the limit, or what is left; [hasMore] is true exactly on the
    pages before the last; and every message of the conversation is on
    one of the pages 1 to [pages]. *)
Theorem X19_pages_tile_the_conversation u cid page limit d :
  participates u cid d →
  ∃ msgs pg,
    MessagesRouter.get u cid page limit d
    = respond 200 (json_message_page msgs pg)
    ∧ pg_page pg = parseIntOr 1 page
    ∧ pg_limit pg = parseIntOr 50 limit
    ∧ pg_total pg
      = length (List.filter (λ m, (Message.conversation m =? cid)%N)
                  (messages d))
    ∧ pg_total pg ≤ pg_pages pg * pg_limit pg
    ∧ pg_pages pg * pg_limit pg < pg_total pg + pg_limit pg
    ∧ length msgs
      = min (pg_limit pg) (pg_total pg - (pg_page pg - 1) * pg_limit pg)
    ∧ (pg_hasMore pg = true ↔ pg_page pg < pg_pages pg)
    ∧ (∀ m, m ∈ messages d → Message.conversation m = cid →
         ∃ p msgs' pg',
           1 ≤ p ≤ pg_pages pg
           ∧ MessagesRouter.get u cid p limit d
             = respond 200 (json_message_page msgs' pg')
           ∧ populate_sender d m ∈ msgs').
Proof.
  intros Hpart.
  destruct (findOne_participant_Some u cid d Hpart) as (c & Hfind & _).
  unfold MessagesRouter.get. rewrite Hfind.
  set (P := parseIntOr 1 page). set (L := parseIntOr 50 limit).
  assert (0 < P) as HP by (apply parseIntOr_pos; lia).
  assert (0 < L) as HL by (apply parseIntOr_pos; lia).
  unfold messagePage, Message.find.
  set (all := List.filter _ (messages d)).
  set (sorted := Message.sortNewestFirst all).
  assert (length sorted = length all) as Hlen
    by apply Permutation_length, sortNewestFirst_perm.
  destruct (ceil_div_bounds (length all) L HL) as [Hlo Hhi].
  eexists _, _. split; [done|]. cbn [pg_page pg_limit pg_total pg_pages
                                      pg_hasMore].
  split; [done|]. split; [done|]. split; [done|]. split; [done|].
  split; [done|].
  assert (length (take L (drop ((P - 1) * L) sorted))
          = min L (length all - (P - 1) * L)) as Hpage
    by (by rewrite length_take, length_drop, Hlen).
  split; [by rewrite length_fmap, length_rev|]. split.
  - rewrite Hpage, Nat.ltb_lt. split; intros H; nia.
  - intros m Hm Hcid.
    assert (m ∈ sorted) as Hin.
    { subst sorted. rewrite sortNewestFirst_perm. apply elem_of_filter_bool.
      split; [done | by apply N.eqb_eq]. }
    apply list_elem_of_lookup_1 in Hin as [k Hk].
    apply lookup_lt_Some in Hk as Hklt.
    pose proof (Nat.div_mod_eq k L) as Hdm.
    pose proof (Nat.mod_upper_bound k L) as Hmod.
    assert (k / L < (length all + L - 1) / L) as Hp.
    { apply Nat.div_lt_upper_bound; lia. }
    exists (S (k / L)). eexists _, _. split; [lia|].
    assert (parseIntOr 1 (S (k / L)) = S (k / L)) as -> by done.
    split; [done|].
    apply list_elem_of_fmap_2. rewrite rev_alt. apply elem_of_reverse.
    apply (list_elem_of_lookup_2 _ (k mod L)).
    rewrite lookup_take_lt by lia. rewrite lookup_drop.
    replace ((S (k / L) - 1) * L + k mod L) with k by lia. done.
Qed.

Lemma X19_witness :
  participates 2 101 ex_db
  ∧ (∃ msgs pg,
       MessagesRouter.get 2 101 0 0 ex_db
       = respond 200 (json_message_page msgs pg)
       ∧ pg_total pg = 1 ∧ pg_pages pg = 1 ∧ pg_hasMore pg = false).
Proof.
  assert (participates 2 101 ex_db) as H1 by compute_done.
  split; [exact H1|].
  destruct (X19_pages_tile_the_conversation 2%N 101%N 0 0 ex_db H1)
    as (msgs & pg & Hget & _).
  exists msgs, pg. split; [exact Hget|].
  vm_compute in Hget. injection Hget as <- <-. by vm_compute.
Defined.

(** ** The life of a message *)

Lemma elem_of_updateMany_keep cid u (ms : list Message.t) m :
  m ∈ ms →
  ∃ m', m' ∈ Message.updateMany (Message.unreadBy cid u)
                (Message.addToSet_readBy u) ms
        ∧ Message._id m' = Message._id m
        ∧ Message.conversation m' = Message.conversation m.
Proof.
  intros Hm. unfold Message.updateMany.
  exists (if Message.unreadBy cid u m then Message.addToSet_readBy u m else m).
  split.
  { by apply (list_elem_of_fmap_2
                (λ m, if Message.unreadBy cid u m
                      then Message.addToSet_readBy u m else m) ms m). }
  by destruct (Message.unreadBy cid u m).
Qed.

Lemma send_keeps_message schema sid u now cid content s m :
  m ∈ messages (db s) →
  m ∈ messages (db (on_message_send_with schema sid u now cid content s).1).
Proof.
  intros Hm. unfold on_message_send_with.
  destruct (Conversation.findOne _ _); [|done].
  destruct (Message.createWith _ _ _ _ _ _ _ _) as [|[ms m']] eqn:E; [done|].
  apply createWith_inr in E as (-> & _). simpl.
  destruct (Conversation.save _ _); simpl; apply elem_of_app; by left.
Qed.

Lemma step_keeps_message now r s m :
  m ∈ messages (db s) →
  (∀ u, r ≠ Rest u (DELETE_conversation (Message.conversation m))) →
  ∃ m', m' ∈ messages (db (step now r s).1)
        ∧ Message._id m' = Message._id m
        ∧ Message.conversation m' = Message.conversation m.
Proof.
  intros Hm Hr.
  destruct r as [sid [u|]|sid ev|u call].
  - by exists m.
  - by exists m.
  - rewrite step_socket_fst. unfold socket_on.
    destruct (sockets (io s) !! sid) as [k|]; [|by exists m].
    destruct ev; try (by exists m).
    + exists m. split; [|done]. by apply send_keeps_message.
    + by apply elem_of_updateMany_keep.
  - rewrite step_rest_db. destruct call; simpl; try (by exists m).
    + exists m. split; [|done]. unfold ConversationsRouter.post.
      by repeat case_match; simplify_eq/=.
    + exists m. split; [|done]. unfold ConversationsRouter.put_members.
      by repeat case_match; simplify_eq/=.
    + exists m. split; [|done]. unfold ConversationsRouter.put_name.
      by repeat case_match; simplify_eq/=.
    + exists m. split; [|done]. unfold ConversationsRouter.delete.
      assert (conversationId ≠ Message.conversation m) as Hne
        by (intros ->; by apply (Hr u)).
      repeat case_match; simplify_eq/=; try done.
      all: apply elem_of_filter_bool; split; [done|].
      all: apply negb_true_iff, N.eqb_neq; congruence.
    + exists m. split; [|done]. unfold MessagesRouter.post, Message.create.
      destruct (_ || _); [done|].
      destruct (Conversation.findOne _ _); [|done].
      destruct (Message.createWith _ _ _ _ _ _ _ _) as [|[ms m']] eqn:E;
        [done|].
      apply createWith_inr in E as (-> & _). simpl.
      destruct (Conversation.save _ _); simpl; apply elem_of_app; by left.
    + unfold MessagesRouter.put_read.
      destruct (Conversation.findOne _ _); [|by exists m].
      by apply elem_of_updateMany_keep.
Qed.

(** One request either keeps a stored message or is the DELETE of its
    conversation by a participant of a personal conversation or by the
    admin of a group, after which the conversation is gone too. *)
Lemma step_keeps_or_deletes now r s m :
  wf (db s) → m ∈ messages (db s) →
  (∃ m', m' ∈ messages (db (step now r s).1)
         ∧ Message._id m' = Message._id m
         ∧ Message.conversation m' = Message.conversation m)
  ∨ (∃ u c, r = Rest u (DELETE_conversation (Message.conversation m))
            ∧ c ∈ conversations (db s)
            ∧ Conversation._id c = Message.conversation m
            ∧ u ∈ Conversation.participants c
            ∧ (Conversation.type c = Conversation.personal
               ∨ Conversation.admin c = Some u)
            ∧ ∀ c', c' ∈ conversations (db (step now r s).1) →
                    Conversation._id c' ≠ Message.conversation m).
Proof.
  intros Hwf Hm.
  assert ((∀ u, r ≠ Rest u (DELETE_conversation (Message.conversation m)))
          ∨ ∃ u, r = Rest u (DELETE_conversation (Message.conversation m)))
    as [Hr|[u ->]].
  { destruct r as [| |u []]; try (left; intros; congruence).
    destruct (decide (conversationId = Message.conversation m)) as [->|Hne].
    - right. by exists u.
    - left. intros u' [= _ E]. done. }
  { left. by apply step_keeps_message. }
  set (cid := Message.conversation m).
  rewrite step_rest_db. simpl. unfold ConversationsRouter.delete.
  destruct (Conversation.findOne _ _) as [c|] eqn:Hfind;
    [|left; by exists m].
  pose proof Hfind as Hcid. apply findOne_participant_id in Hcid.
  apply find_Some_elem in Hfind as [Hc [_ Hu%bool_decide_eq_true]%andb_true_iff].
  assert (∀ c', c' ∈ Conversation.findByIdAndDelete cid
                       (conversations (db s))
                → Conversation._id c' ≠ cid) as Hgone.
  { intros c'. apply findByIdAndDelete_gone, Hwf. }
  destruct (Conversation.type c) eqn:Hty.
  - right. exists u, c. simpl. auto 10.
  - destruct (bool_decide _) eqn:Hadm.
    + apply bool_decide_eq_true in Hadm. right. exists u, c. simpl. auto 10.
    + left. exists m. by destruct (Conversation.save _ _).
Qed.

(** X20.  A stored message never changes its conversation, sender, content
    or creation time, whatever requests follow, and it stays stored for
    as long as its conversation is stored.  The only request that removes
    a message is the DELETE of its conversation by a participant of a
    personal conversation or by the admin of a group, which removes the
    conversation with it; a member's leaving of the group, a call that is
    refused and every other request keep it. *)
Theorem X20_messages_are_immutable_and_stay trace s m :
  wf (db s) → m ∈ messages (db s) →
  (∀ m', m' ∈ messages (db (run trace s)) → Message._id m' = Message._id m →
         Message.conversation m' = Message.conversation m
         ∧ Message.sender m' = Message.sender m
         ∧ Message.content m' = Message.content m
         ∧ Message.createdAt m' = Message.createdAt m)
  ∧ ((∃ c, c ∈ conversations (db (run trace s))
           ∧ Conversation._id c = Message.conversation m) →
     ∃ m', m' ∈ messages (db (run trace s))
           ∧ Message._id m' = Message._id m)
  ∧ (∀ now r,
       (∃ m', m' ∈ messages (db (step now r s).1)
              ∧ Message._id m' = Message._id m)
       ∨ (∃ u c, r = Rest u (DELETE_conversation (Message.conversation m))
                 ∧ c ∈ conversations (db s)
                 ∧ Conversation._id c = Message.conversation m
                 ∧ u ∈ Conversation.participants c
                 ∧ (Conversation.type c = Conversation.personal
                    ∨ Conversation.admin c = Some u)
                 ∧ ∀ c', c' ∈ conversations (db (step now r s).1) →
                         Conversation._id c' ≠ Message.conversation m)).
Proof.
  intros Hwf Hm. split; [|split].
  - intros m' Hm' Hid.
    destruct (ev_messages _ _ (run_evolves trace s) m' Hm')
      as [(m0 & Hm0 & Hid0 & ? & ? & ? & ? & _)|Hnew].
    + assert (m0 = m) as ->; [|done].
      apply (NoDup_fmap_eq Message._id (messages (db s)));
        [apply Hwf | done | done | congruence].
    + pose proof (wf_message_old _ Hwf) as Hold.
      rewrite Forall_forall in Hold. specialize (Hold m Hm). lia.
  - revert s m Hwf Hm.
    induction trace as [|[now r] trace IH]; intros s m Hwf Hm Hconv;
      [by exists m|].
    simpl in *.
    destruct (step_keeps_or_deletes now r s m Hwf Hm)
      as [(m1 & Hm1 & Hid1 & Hc1)|(u & c & _ & Hc & Hcid & _ & _ & Hgone)].
    + destruct (IH (step now r s).1 m1) as (m' & Hm' & Hid').
      * by apply step_wf.
      * done.
      * by rewrite Hc1.
      * exists m'. split; [done | congruence].
    + destruct Hconv as (cf & Hcf & Hidf).
      destruct (ev_conversations _ _ (run_evolves trace (step now r s).1)
                  cf Hcf) as [(c0 & Hc0 & E0)|Hnew].
      * destruct (Hgone c0 Hc0). congruence.
      * pose proof (wf_conversation_old _ Hwf) as Hold.
        rewrite Forall_forall in Hold. specialize (Hold c Hc).
        pose proof (ev_oid _ _ (step_evolves now r s)). lia.
  - intros now r.
    destruct (step_keeps_or_deletes now r s m Hwf Hm)
      as [(m1 & Hm1 & Hid1 & _)|H]; [left; by exists m1 | by right].
Qed.

Lemma X20_witness :
  wf (db ex_live)
  ∧ Message.mk 150 101 2 str_hi [2%N] 10 ∈ messages (db ex_live)
  ∧ (∃ c, c ∈ conversations
                (db (run [(50, SocketEvent "sA" (messages_read 101));
                          (51, Rest 2 (DELETE_conversation 101));
                          (52, Rest 1 (DELETE_conversation 100))]%Z
                       ex_live))
          ∧ Conversation._id c = 101%N)
  ∧ (∃ m', m' ∈ messages
                  (db (run [(50, SocketEvent "sA" (messages_read 101));
                            (51, Rest 2 (DELETE_conversation 101));
                            (52, Rest 1 (DELETE_conversation 100))]%Z
                         ex_live))
           ∧ Message._id m' = 150%N).
Proof.
  assert (wf (db ex_live)) as H1 by (split; compute_done).
  assert (Message.mk 150 101 2 str_hi [2%N] 10 ∈ messages (db ex_live))
    as H2 by (vm_compute; left).
  assert (∃ c, c ∈ conversations
                     (db (run [(50, SocketEvent "sA" (messages_read 101));
                               (51, Rest 2 (DELETE_conversation 101));
                               (52, Rest 1 (DELETE_conversation 100))]%Z
                            ex_live))
               ∧ Conversation._id c = 101%N) as H3.
  { eexists. split; [vm_compute; left|]. reflexivity. }
  repeat (split; [assumption|]).
  exact (proj1 (proj2 (X20_messages_are_immutable_and_stay _ ex_live _ H1 H2))
           H3).
Defined.

(** ** Friend requests and removals *)

Lemma between_pair a b f :
  FriendsRouter.between a b f = true
  ↔ same_pair (Friendship.requester f) (Friendship.recipient f) a b.
Proof.
  unfold FriendsRouter.between, same_pair.
  rewrite orb_true_iff, !andb_true_iff, !N.eqb_eq. done.
Qed.

Lemma between_same x y a b f :
  FriendsRouter.between a b f = true →
  FriendsRouter.between x y f = true → same_pair x y a b.
Proof.
  rewrite !between_pair. unfold same_pair.
  intros [[<- <-]|[<- <-]] [[<- <-]|[<- <-]]; auto.
Qed.

Lemma between_ext x y a b f :
  same_pair x y a b →
  FriendsRouter.between x y f = FriendsRouter.between a b f.
Proof.
  intros H. apply eq_true_iff_eq. rewrite !between_pair. unfold same_pair in *.
  destruct H as [[-> ->]|[-> ->]]; tauto.
Qed.

Lemma between_docs x y f g :
  same_pair (Friendship.requester f) (Friendship.recipient f)
            (Friendship.requester g) (Friendship.recipient g) →
  FriendsRouter.between x y f = FriendsRouter.between x y g.
Proof.
  intros H. apply eq_true_iff_eq. rewrite !between_pair. unfold same_pair in *.
  destruct H as [[-> ->]|[-> ->]]; tauto.
Qed.

Lemma acceptedBetween_spec a b f :
  Friendship.acceptedBetween a b f = true
  ↔ FriendsRouter.between a b f = true
    ∧ Friendship.status f = Friendship.accepted.
Proof.
  unfold Friendship.acceptedBetween, FriendsRouter.between.
  rewrite andb_true_iff.
  split; (intros [H1 H2]; split; [exact H1|]);
    by destruct (Friendship.status f).
Qed.

Lemma friends_elem a b d :
  friends a b d
  ↔ ∃ f, f ∈ friendships d ∧ FriendsRouter.between a b f = true
         ∧ Friendship.status f = Friendship.accepted.
Proof.
  unfold friends. rewrite Exists_exists. split.
  - intros (f & Hin & Hst & Hp). exists f. split; [done|].
    split; [by apply between_pair | done].
  - intros (f & Hin & Hp & Hst). exists f. split; [done|].
    split; [done | by apply between_pair].
Qed.

Lemma findOneAndDelete_find flt (l : list Friendship.t) :
  (FriendsRouter.findOneAndDelete flt l).2 = Friendship.findOne flt l.
Proof.
  induction l as [|f l IH]; [done|]. simpl. unfold Friendship.findOne. simpl.
  destruct (flt f); [done|].
  destruct (FriendsRouter.findOneAndDelete flt l) as [l' r]. exact IH.
Qed.

Lemma findOneAndDelete_perm flt (l : list Friendship.t) g :
  Friendship.findOne flt l = Some g →
  l ≡ₚ g :: (FriendsRouter.findOneAndDelete flt l).1.
Proof.
  unfold Friendship.findOne.
  induction l as [|f l IH]; [done|]. simpl.
  destruct (flt f).
  - by intros [= ->].
  - intros Hg. specialize (IH Hg).
    destruct (FriendsRouter.findOneAndDelete flt l) as [l' r]. simpl in *.
    rewrite IH. apply Permutation_swap.
Qed.

Lemma saveFound_perm flt doc (l : list Friendship.t) g :
  Friendship.findOne flt l = Some g →
  FriendsRouter.saveFound flt doc l
  ≡ₚ doc :: (FriendsRouter.findOneAndDelete flt l).1.
Proof.
  unfold Friendship.findOne.
  induction l as [|f l IH]; [done|]. simpl.
  destruct (flt f); [done|].
  intros Hg. specialize (IH Hg).
  destruct (FriendsRouter.findOneAndDelete flt l) as [l' r]. simpl in *.
  rewrite IH. apply Permutation_swap.
Qed.

Lemma filter_length_perm {A} (p : A → bool) (l l' : list A) :
  l ≡ₚ l' → length (List.filter p l) = length (List.filter p l').
Proof.
  induction 1 as [|x l l' _ IH|x y l|l l' l'' _ IH1 _ IH2]; simpl.
  - done.
  - destruct (p x); simpl; by rewrite IH.
  - by destruct (p x), (p y).
  - by rewrite IH1.
Qed.

Lemma filter_length_pos {A} (p : A → bool) (l : list A) x :
  x ∈ l → p x = true → 1 ≤ length (List.filter p l).
Proof.
  induction 1 as [x l|x y l _ IH]; intros Hp; simpl.
  - rewrite Hp. simpl. lia.
  - destruct (p y); simpl; [lia | by apply IH].
Qed.

(** Beside a document of two users, a store with one document a pair holds
    no other document of the two. *)
Lemma unique_rest d a b g rest :
  pair_unique d → friendships d ≡ₚ g :: rest →
  FriendsRouter.between a b g = true →
  ∀ f, f ∈ rest → FriendsRouter.between a b f = false.
Proof.
  intros Hu Hperm Hg f Hf.
  destruct (FriendsRouter.between a b f) eqn:E; [|done].
  specialize (Hu a b).
  rewrite (filter_length_perm _ _ _ Hperm) in Hu. simpl in Hu.
  rewrite Hg in Hu. simpl in Hu.
  pose proof (filter_length_pos _ _ _ Hf E). lia.
Qed.

Lemma duplicateKey_between a b st (l : list Friendship.t) :
  (∀ f, f ∈ l → FriendsRouter.between a b f = false) →
  FriendsRouter.duplicateKey (Friendship.mk a b st) l = false.
Proof.
  intros H. unfold FriendsRouter.duplicateKey.
  destruct (existsb _ l) eqn:E; [|done].
  apply existsb_exists in E as (f & Hin%list_elem_of_In & Hk). simpl in Hk.
  apply andb_true_iff in Hk as [?%N.eqb_eq ?%N.eqb_eq].
  specialize (H f Hin).
  assert (FriendsRouter.between a b f = true) as Ht
    by (apply between_pair; left; done).
  congruence.
Qed.

(** The conclusions of X21 that hold as soon as the store is
    unchanged and the answer is a refusal. *)
Ltac refused :=
  split; [intros [?|?]; done|];
  split; [done|];
  split; [intros; reflexivity|];
  split; [assumption|];
  split; [done|]; done.

(** X21.  Asking someone to be a friend, POST /api/friends/request/:userId,
    in a store that holds at most one friendship document for any two users.
    The request is taken (201 for a first request, 200 for a renewed one)
    exactly when the two users differ, the recipient exists, and every
    document between the two is a declined one.  When it is taken the store
    holds a pending request from the requester to the recipient, and the two
    were not friends; otherwise the store is unchanged.  In every case the
    request neither makes nor breaks a friendship of any two users, the
    store still holds at most one document for any two users, the unique
    index of the collection is never hit (no 500), and conversations and
    messages are untouched. *)
Theorem X21_friend_request_leaves_friendships_alone
    (requesterId recipientId : ObjectId) (d : Store) :
  pair_unique d →
  let '(d', r) := FriendsRouter.post_request requesterId recipientId d in
  ((FriendsRouter.code r = 200 ∨ FriendsRouter.code r = 201)
   ↔ (requesterId ≠ recipientId
      ∧ is_Some (User.findById recipientId (users d))
      ∧ ∀ f, f ∈ friendships d →
             FriendsRouter.between requesterId recipientId f = true →
             Friendship.status f = Friendship.declined))
  ∧ (FriendsRouter.code r = 200 ∨ FriendsRouter.code r = 201 →
     Friendship.mk requesterId recipientId Friendship.pending
       ∈ friendships d'
     ∧ ¬ friends requesterId recipientId d)
  ∧ (FriendsRouter.code r ≠ 200 → FriendsRouter.code r ≠ 201 → d' = d)
  ∧ (∀ x y, friends x y d' ↔ friends x y d)
  ∧ pair_unique d'
  ∧ FriendsRouter.code r ≠ 500
  ∧ users d' = users d
  ∧ conversations d' = conversations d
  ∧ messages d' = messages d.
Proof.
  intros Hu. unfold FriendsRouter.post_request.
  destruct (N.eqb_spec requesterId recipientId) as [Heq|Hne].
  { simpl. split; [|refused].
    split; [intros [?|?]; done | intros (Hne & _); done]. }
  destruct (User.findById recipientId (users d)) as [usr|] eqn:Husr.
  2:{ simpl. split; [|refused].
      split; [intros [?|?]; done | intros (_ & [? ?] & _); done]. }
  destruct (Friendship.findOne
              (FriendsRouter.between requesterId recipientId)
              (friendships d)) as [g|] eqn:Hfind.
  - (* a document of the two exists *)
    pose proof (findOneAndDelete_perm _ _ _ Hfind) as Hperm.
    pose proof Hfind as Hg. apply find_Some_elem in Hg as [Hgin Hgb].
    pose proof (unique_rest d _ _ g _ Hu Hperm Hgb) as Hrest.
    assert (∀ f, f ∈ friendships d →
                 FriendsRouter.between requesterId recipientId f = true →
                 f = g) as Honly.
    { intros f Hf Hb. rewrite Hperm in Hf.
      apply elem_of_cons in Hf as [->|Hf]; [done|].
      rewrite (Hrest f Hf) in Hb. done. }
    destruct (Friendship.status g) eqn:Hst.
    1,2,4:
      (simpl; split;
       [split; [intros [?|?]; done
               | intros (_ & _ & Hall); specialize (Hall g Hgin Hgb);
                 congruence]
       | refused]).
    (* declined: the request is renewed *)
    rewrite (duplicateKey_between _ _ _ _ Hrest).
    set (doc := {| Friendship.requester := requesterId;
                   Friendship.recipient := recipientId;
                   Friendship.status := Friendship.pending |}).
    pose proof (saveFound_perm
                  (FriendsRouter.between requesterId recipientId) doc
                  _ _ Hfind) as Hsave.
    simpl.
    assert (¬ friends requesterId recipientId d) as Hnf.
    { rewrite friends_elem. intros (f & Hf & Hb & Hacc).
      rewrite (Honly f Hf Hb) in Hacc. congruence. }
    split.
    { split; [|by left]. intros _. split; [done|]. split; [by eexists|].
      intros f Hf Hb. by rewrite (Honly f Hf Hb). }
    split.
    { intros _. split; [|done]. rewrite Hsave. left. }
    split; [done|].
    split.
    { intros x y. rewrite !friends_elem. simpl.
      split; intros (f & Hf & Hb & Hacc); exists f.
      - rewrite Hsave in Hf. apply elem_of_cons in Hf as [->|Hf]; [done|].
        split; [|done]. rewrite Hperm. by right.
      - rewrite Hperm in Hf.
        apply elem_of_cons in Hf as [->|Hf]; [congruence|].
        split; [|done]. rewrite Hsave. by right. }
    split.
    { intros x y. simpl.
      rewrite (filter_length_perm _ _ _ Hsave).
      specialize (Hu x y). rewrite (filter_length_perm _ _ _ Hperm) in Hu.
      simpl in *.
      assert (FriendsRouter.between x y doc = FriendsRouter.between x y g)
        as ->; [|by destruct (FriendsRouter.between x y g)].
      apply between_docs. simpl. apply between_pair in Hgb.
      destruct Hgb as [[H1 H2]|[H1 H2]]; [left|right]; by rewrite H1, H2. }
    done.
  - (* no document of the two: a new one is created *)
    pose proof (proj1 (find_None_elem _ _) Hfind) as Hnone.
    rewrite (duplicateKey_between _ _ _ _ Hnone). simpl.
    assert (¬ friends requesterId recipientId d) as Hnf.
    { rewrite friends_elem. intros (f & Hf & Hb & _).
      rewrite (Hnone f Hf) in Hb. done. }
    split.
    { split; [|by right]. intros _. split; [done|]. split; [by eexists|].
      intros f Hf Hb. rewrite (Hnone f Hf) in Hb. done. }
    split.
    { intros _. split; [|done]. apply elem_of_app. right. left. }
    split; [done|].
    split.
    { intros x y. unfold friends. simpl. rewrite Exists_app.
      split; [|by left]. intros [H|H]; [done|].
      apply Exists_cons in H as [[H _]|H]; [done | by apply Exists_nil in H]. }
    split; [|done].
    intros x y. simpl. rewrite List.filter_app, length_app. simpl.
    destruct (FriendsRouter.between x y _) eqn:E; simpl.
    + apply between_pair in E. simpl in E.
      assert (List.filter (FriendsRouter.between x y) (friendships d) = [])
        as ->; [|simpl; lia].
      apply filter_bool_nil, find_None_elem. intros f Hf.
      rewrite <- (Hnone f Hf). apply between_ext.
      unfold same_pair in *. destruct E as [[-> ->]|[-> ->]]; auto.
    + specialize (Hu x y). lia.
Qed.

Lemma ex_db_pair_unique : pair_unique ex_db.
Proof.
  intros a b. unfold ex_db. cbn [friendships List.filter].
  destruct (FriendsRouter.between a b (Friendship.mk 1 2 _)) eqn:E1,
           (FriendsRouter.between a b (Friendship.mk 3 1 _)) eqn:E2,
           (FriendsRouter.between a b (Friendship.mk 1 4 _)) eqn:E3;
    cbn [length]; try lia; exfalso;
    repeat match goal with
           | H : FriendsRouter.between _ _ _ = true |- _ =>
               apply between_pair in H; unfold same_pair in H; simpl in H
           end; lia.
Qed.

Lemma X21_witness :
  pair_unique ex_db
  ∧ Friendship.mk 2 3 Friendship.pending
      ∈ friendships (FriendsRouter.post_request 2 3 ex_db).1
  ∧ (friends 1 2 (FriendsRouter.post_request 2 3 ex_db).1 ↔ friends 1 2 ex_db).
Proof.
  pose proof ex_db_pair_unique as H. split; [exact H|].
  pose proof (X21_friend_request_leaves_friendships_alone 2%N 3%N ex_db H)
    as H'.
  assert (FriendsRouter.code (FriendsRouter.post_request 2 3 ex_db).2 = 201)
    as Hc by (by vm_compute).
  destruct (FriendsRouter.post_request 2 3 ex_db) as [d' r].
  destruct H' as (_ & Hsent & _ & Hfr & _).
  split; [apply Hsent; by right | apply Hfr].
Defined.

(** X22.  Removing a friend, DELETE /api/friends/:userId, in a store that
    holds at most one friendship document for any two users.  The answer is
    200 exactly when the two are friends, and 404 with the store unchanged
    otherwise.  Afterwards the two are not friends, while the friendship of
    any other two users is as before.  Conversations and messages are
    untouched, so a personal conversation of the two stays, with its
    messages; but asking for the personal conversation with the former
    friend, POST /api/conversations, is now refused with 400 whether or not
    it exists. *)
Theorem X22_removing_a_friend (userId friendId : ObjectId) (d : Store) :
  pair_unique d →
  let '(d', r) := FriendsRouter.delete userId friendId d in
  (FriendsRouter.code r = 200 ↔ friends userId friendId d)
  ∧ (FriendsRouter.code r ≠ 200 → d' = d ∧ FriendsRouter.code r = 404)
  ∧ ¬ friends userId friendId d'
  ∧ (∀ x y, ¬ same_pair x y userId friendId →
            (friends x y d' ↔ friends x y d))
  ∧ pair_unique d'
  ∧ users d' = users d
  ∧ conversations d' = conversations d
  ∧ messages d' = messages d
  ∧ (userId ≠ friendId → ∀ name,
       ConversationsRouter.post userId "personal" (Some [friendId]) name d'
       = (d', respond 400 (json_error "Can only chat with friends"))).
Proof.
  intros Hu. unfold FriendsRouter.delete.
  pose proof (findOneAndDelete_find
                (Friendship.acceptedBetween userId friendId)
                (friendships d)) as Hfind.
  assert (∀ d', ¬ friends userId friendId d' → userId ≠ friendId → ∀ name,
            ConversationsRouter.post userId "personal" (Some [friendId])
              name d'
            = (d', respond 400 (json_error "Can only chat with friends")))
    as Hpost.
  { intros d' Hnf Hne name. unfold ConversationsRouter.post.
    rewrite (spreadSet_pair _ _ Hne). simpl.
    destruct (areFriends d' userId friendId) eqn:E; [|reflexivity].
    apply areFriends_spec in E. done. }
  destruct (FriendsRouter.findOneAndDelete _ (friendships d)) as [fs [g|]]
    eqn:E; simpl in Hfind; symmetry in Hfind.
  - pose proof (findOneAndDelete_perm _ _ _ Hfind) as Hperm.
    rewrite E in Hperm. simpl in Hperm.
    apply find_Some_elem in Hfind as [Hgin Hg].
    apply acceptedBetween_spec in Hg as [Hgb Hgacc].
    pose proof (unique_rest d _ _ g _ Hu Hperm Hgb) as Hrest.
    assert (¬ friends userId friendId (set_friendships fs d)) as Hnf.
    { rewrite friends_elem. simpl. intros (f & Hf & Hb & _).
      rewrite (Hrest f Hf) in Hb. done. }
    simpl.
    split.
    { split; [|done]. intros _. apply friends_elem. by exists g. }
    split; [intros Hc; by destruct Hc|].
    split; [exact Hnf|].
    split.
    { intros x y Hxy. rewrite !friends_elem. simpl.
      split; intros (f & Hf & Hb & Hacc); exists f.
      - split; [|done]. rewrite Hperm. by right.
      - rewrite Hperm in Hf. apply elem_of_cons in Hf as [->|Hf]; [|done].
        destruct Hxy. exact (between_same _ _ _ _ _ Hgb Hb). }
    split.
    { intros x y. simpl. specialize (Hu x y).
      rewrite (filter_length_perm _ _ _ Hperm) in Hu. simpl in Hu.
      destruct (FriendsRouter.between x y g); simpl in Hu; lia. }
    split; [done|]. split; [done|]. split; [done|].
    exact (Hpost _ Hnf).
  - assert (¬ friends userId friendId d) as Hnf.
    { rewrite friends_elem. intros (f & Hf & Hb & Hacc).
      pose proof (proj1 (find_None_elem _ _) Hfind f Hf) as Hn.
      assert (Friendship.acceptedBetween userId friendId f = true) as Ht
        by (by apply acceptedBetween_spec).
      congruence. }
    simpl.
    split; [split; [done | intros ?; done]|].
    split; [done|].
    split; [exact Hnf|].
    split; [done|].
    split; [exact Hu|].
    split; [done|]. split; [done|]. split; [done|].
    exact (Hpost _ Hnf).
Qed.

Lemma X22_witness :
  pair_unique ex_db
  ∧ ¬ friends 1 2 (FriendsRouter.delete 1 2 ex_db).1
  ∧ Conversation.mk 100 Conversation.personal [1; 2]%N None None None
      ∈ conversations (FriendsRouter.delete 1 2 ex_db).1
  ∧ (ConversationsRouter.post 1 "personal" (Some [2%N]) None
       (FriendsRouter.delete 1 2 ex_db).1).2
    = respond 400 (json_error "Can only chat with friends").
Proof.
  pose proof ex_db_pair_unique as H. split; [exact H|].
  pose proof (X22_removing_a_friend 1%N 2%N ex_db H) as H'.
  destruct (FriendsRouter.delete 1 2 ex_db) as [d' r].
  destruct H' as (_ & _ & Hnf & _ & _ & _ & Hc & _ & Hpost).
  split; [exact Hnf|]. cbn [fst]. split.
  - rewrite Hc. vm_compute. left.
  - by rewrite (Hpost ltac:(done) None).
Defined.

(** ** A group renamed past the bound of its schema *)

Lemma validate_long_name c n :
  Conversation.name c = Some n → 50 < length n →
  ∃ e, Conversation.validate c = Some e.
Proof.
  intros Hn Hlen. unfold Conversation.validate. rewrite Hn.
  destruct (50 <? length n) eqn:E; [by eexists|].
  apply Nat.ltb_ge in E. lia.
Qed.

(** X23.  PUT /:id/name stores a name of any length, while every [save] of
    the conversation validates the stored name against [maxlength: 50].
    So on a group whose name is longer than 50 code units every handler
    that saves the document is refused.  A participant's valid
    [message:send] writes the message and then fails: the sender alone is
    told "Failed to send message", nothing is broadcast and lastMessage
    is not set.  Adding or removing members never succeeds and a member
    cannot leave (500), the store being left as it was. *)
Theorem X23_group_renamed_past_the_bound sid u now cid c n content s :
  data_userId <$> sockets (io s) !! sid = Some u →
  wf (db s) →
  c ∈ conversations (db s) → Conversation._id c = cid →
  Conversation.name c = Some n → 50 < length n →
  (u ∈ Conversation.participants c → valid_content content →
   step now (SocketEvent sid (message_send cid content)) s
   = (with_db
        (next_oid
           (set_messages
              (messages (db s)
               ++ [Message.mk (oid (db s)) cid u
                     (Bson.asStored (Js.trim content)) [u] now])
              (db s))) s,
      Emitted [emit (socket_emit sid) (error "Failed to send message")]))
  ∧ (∀ v action ms,
       (ConversationsRouter.put_members v cid action ms (db s)).1 = db s
       ∧ status (ConversationsRouter.put_members v cid action ms (db s)).2
         ≠ 200)
  ∧ (∀ v, Conversation.type c = Conversation.group →
          v ∈ Conversation.participants c → Conversation.admin c ≠ Some v →
          ConversationsRouter.delete v cid (db s)
          = (db s, respond 500 (json_error "Failed to leave conversation"))).
Proof.
  intros Hsid Hwf Hc Hid Hn Hlen.
  destruct (validate_long_name c n Hn Hlen) as [e He].
  assert (∀ v, v ∈ Conversation.participants c →
            Conversation.findOne
              (λ c, (Conversation._id c =? cid)%N && hasParticipant v c)
              (conversations (db s)) = Some c) as Hfind.
  { intros v Hv.
    destruct (findOne_participant_Some v cid (db s))
      as (c' & Hfind & Hc' & Hid' & _).
    { apply participates_iff. by exists c. }
    rewrite Hfind. f_equal.
    apply (NoDup_fmap_eq Conversation._id (conversations (db s)));
      [apply Hwf | done | done | congruence]. }
  split; [|split].
  - intros Hu Hvalid. unfold step.
    rewrite (socket_on_lookup sid u) by done.
    unfold on_message_send, on_message_send_with. rewrite (Hfind u Hu).
    unfold Message.createWith. rewrite castString_valid by done.
    cbn [messages conversations set_conversations set_messages next_oid].
    by rewrite (save_inl _ e) by (by rewrite validate_set_lastMessage).
  - intros v action ms. unfold ConversationsRouter.put_members.
    destruct ms as [ms|]; [|done].
    destruct (String.eqb action ""); [done|].
    destruct (Conversation.findOne _ _) as [c'|] eqn:Hadm; [|done].
    assert (c' = c) as ->.
    { pose proof (findOne_admin_id _ _ _ _ Hadm) as Hid'.
      apply find_Some_elem in Hadm as [Hc' _].
      apply (NoDup_fmap_eq Conversation._id (conversations (db s)));
        [apply Hwf | done | done | congruence]. }
    assert (∀ ps, Conversation.save (Conversation.set_participants ps c)
                    (conversations (db s)) = inl e) as Hsave.
    { intros ps. apply save_inl. by rewrite validate_set_participants. }
    repeat case_match; simplify_eq/=; try done.
    all: rewrite Hsave in *; done.
  - intros v Hty Hv Hadm. unfold ConversationsRouter.delete.
    rewrite (Hfind v Hv), Hty, bool_decide_eq_false_2 by done.
    by rewrite (save_inl _ e) by (by rewrite validate_set_participants).
Qed.

Lemma X23_witness :
  data_userId <$> sockets (io ex_renamed) !! "sB" = Some 2%N
  ∧ wf (db ex_renamed)
  ∧ Conversation.mk 101 Conversation.group [1; 2; 3]%N (Some str_51)
      (Some 1%N) None ∈ conversations (db ex_renamed)
  ∧ 50 < length str_51
  ∧ ConversationsRouter.delete 2 101 (db ex_renamed)
    = (db ex_renamed,
       respond 500 (json_error "Failed to leave conversation")).
Proof.
  assert (data_userId <$> sockets (io ex_renamed) !! "sB" = Some 2%N) as H1
    by (vm_compute; reflexivity).
  assert (wf (db ex_renamed)) as H2 by (split; compute_done).
  assert (Conversation.mk 101 Conversation.group [1; 2; 3]%N (Some str_51)
            (Some 1%N) None ∈ conversations (db ex_renamed)) as H3
    by (vm_compute; right; left).
  assert (50 < length str_51) as H4 by (vm_compute; lia).
  repeat (split; [assumption|]).
  apply (proj2 (proj2 (X23_group_renamed_past_the_bound "sB" 2%N 50%Z 101%N
                         _ str_51 str_hi ex_renamed H1 H2 H3 eq_refl eq_refl
                         H4)));
    [done | vm_compute; right; left | done].
Defined.
